(** * mirror::Class (runtime/mirror/class.cc): member lookup, package
    membership, status transitions and the lazily installed ClassExt.

    The development follows class.cc function by function.  Objects of the
    managed heap are addressed by references ([ClassRef], [ExtRef]); a
    C++ [nullptr] is [None].  [LOG(FATAL)] and a failing [CHECK] end the
    call with [Fatal]; a [DCHECK] does so in debug builds only
    ([kIsDebugBuild]).  Loops that follow pointers carry fuel. *)

From Stdlib Require Import ZArith Lia Bool Ascii String.
From stdpp Require Import base decidable option list relations strings.

Local Open Scope Z_scope.

(** ** Outcome of a call *)

(** The abort sites of class.cc that the development distinguishes, and the
    two ways in which a call leaves the defined behaviour of the language: a
    member access through a null pointer and a read past the end of an
    array. *)
Inductive Abort : Set :=
  | UnexpectedChangeBack      (* SetStatus: LOG(FATAL) "Unexpected change back of class status" *)
  | NotHoldingLock            (* SetStatus: CHECK_EQ(GetLockOwnerThreadId(), self->GetThreadId()) *)
  | AlreadyErroneous          (* SetStatus: CHECK(!h_this->IsErroneous()) *)
  | WrongErrorStatus          (* SetStatus: CHECK_EQ(new == ErrorResolved, old >= Resolved) *)
  | NoPendingException        (* Thread::AssertPendingException *)
  | PendingNotOOM             (* Thread::AssertPendingOOMException *)
  | NullExtData               (* EnsureExtDataPresent: CHECK(!ret.IsNull()) *)
  | TempNotBelowResolved      (* SetStatus: CHECK_LT(new_status, kStatusResolved) *)
  | RegularRetired            (* SetStatus: CHECK_NE(new_status, kStatusRetired) *)
  | ClassSizeShrinks          (* SetClassSize: LOG(FATAL) *)
  | FieldSearchMismatch       (* FindFieldByNameAndType: CHECK_EQ(found, ret) *)
  | NullPointer               (* [p->...] with [p == nullptr] *)
  | OutOfBounds               (* an element read at an index past the end *)
  | DebugCheck.               (* any DCHECK *)

Inductive Res (A : Type) : Type :=
  | Ret (a : A)
  | Fatal (why : Abort)
  | OutOfFuel.
Arguments Ret {A} a.
Arguments Fatal {A} why.
Arguments OutOfFuel {A}.

Definition bind {A B} (r : Res A) (k : A -> Res B) : Res B :=
  match r with
  | Ret a => k a
  | Fatal w => Fatal w
  | OutOfFuel => OutOfFuel
  end.

Notation "x <-- r ;; k" := (bind r (fun x => k))
  (at level 100, r at next level, right associativity).

(** [CHECK(b)] and [DCHECK(b)]. *)
Definition CHECK (b : bool) (why : Abort) : Res unit :=
  if b then Ret tt else Fatal why.
Definition DCHECK (kIsDebugBuild b : bool) : Res unit :=
  if kIsDebugBuild && negb b then Fatal DebugCheck else Ret tt.

(** ** StringPiece *)

Module StringPiece.

(** A StringPiece is a run of bytes. *)
Definition t := list ascii.

Definition byte (c : ascii) : Z := Z.of_N (N_of_ascii c).

(** [memcmp(a, b, n)]: only the sign of the result is specified, and only the
    sign is used. *)
Fixpoint memcmp (a b : t) (n : nat) : Z :=
  match n, a, b with
  | S n', x :: a', y :: b' =>
      if byte x <? byte y then -1
      else if byte y <? byte x then 1
      else memcmp a' b' n'
  | _, _, _ => 0
  end.

(** Modelled from the spec: StringPiece::Compare is declared in
    base/stringpiece.h, which is not part of the sources; it is the
    comparison key of the sorted field tables: bytewise over the common
    length, the shorter string first on a tie. *)
Definition Compare (a b : t) : Z :=
  let r := memcmp a b (Nat.min (length a) (length b)) in
  if r =? 0 then
    if (length a <? length b)%nat then -1
    else if (length b <? length a)%nat then 1
    else 0
  else r.

(** [a == b] on StringPieces. *)
Definition eqb (a b : t) : bool := bool_decide (a = b).

(** [s.find(c, pos)]: the first index at or after [pos] that holds [c];
    [None] is [npos]. *)
Fixpoint find_at (c : ascii) (s : t) (pos idx : nat) : option nat :=
  match s with
  | [] => None
  | x :: s' =>
      if (pos <=? idx)%nat && bool_decide (x = c) then Some idx
      else find_at c s' pos (S idx)
  end.
Definition find (c : ascii) (s : t) (pos : nat) : option nat := find_at c s pos 0.

End StringPiece.

(** ** References and records *)

(** References into the managed heap ([ObjPtr<Class>], [ObjPtr<ClassExt>],
    [ObjPtr<ClassLoader>], [ObjPtr<DexCache>]); they are never null, a
    nullable pointer is an [option]. *)
Definition ClassRef := nat.
Definition ExtRef := nat.
Definition LoaderRef := nat.
Definition DexCacheRef := nat.
Definition TypeIndex := nat.

(** A pending failure: a [Throwable]; [AssertPendingOOMException] tells an
    OutOfMemoryError from the others. *)
Inductive Throwable : Set :=
  | OutOfMemoryError
  | OtherThrowable (id : nat).

#[global] Instance Throwable_eq_dec : EqDecision Throwable.
Proof. solve_decision. Defined.

Module ArtField.
(** What class.cc reads of an ArtField. *)
Record t := {
  GetName : StringPiece.t;
  GetTypeDescriptor : StringPiece.t;
  GetDexFieldIndex : Z
}.
End ArtField.

(** An [ArtField*] returned by a lookup: the field at index [fp_index] of the
    static ([fp_static]) or instance field array of [fp_owner]. *)
Record FieldPtr := { fp_owner : ClassRef; fp_static : bool; fp_index : nat }.

Module ArtMethod.
(** What class.cc reads of an ArtMethod. *)
Record t := {
  GetName : StringPiece.t;
  GetSignature : StringPiece.t;
  IsDefault : bool;
  GetDeclaringClass : ClassRef
}.
End ArtMethod.

Module ClassExt.
Record t := { verify_error_ : option Throwable }.
End ClassExt.

Module Class.
(** The fields of mirror::Class that class.cc reads or writes.  The
    predicates that class.h computes from [access_flags_] and [class_flags_]
    ([IsInterface], [IsProxyClass], [IsPrimitive], [IsFinalizable],
    [IsVariableSize]) are kept as booleans of the object; [monitor_owner_] is
    the thread id that holds the object's lock (0 when unlocked). *)
Record t := {
  status_ : Z;
  super_class_ : option ClassRef;
  component_type_ : option ClassRef;
  class_loader_ : option LoaderRef;
  dex_cache_ : option DexCacheRef;
  iftable_ : list ClassRef;
  ext_data_ : option ExtRef;
  sfields_ : option (list ArtField.t);
  ifields_ : option (list ArtField.t);
  virtual_methods_ : list ArtMethod.t;
  copied_methods_ : list ArtMethod.t;
  class_size_ : Z;
  object_size_ : Z;
  object_size_alloc_fast_path_ : Z;
  monitor_owner_ : Z;
  interfaces_ : option (list (option ClassRef));
  interface_type_list_ : option (list TypeIndex);
  IsInterface : bool;
  IsProxyClass : bool;
  IsPrimitive : bool;
  IsFinalizable : bool;
  IsVariableSize : bool
}.

Definition GetStatus (c : t) : Z := status_ c.
Definition GetSuperClass (c : t) : option ClassRef := super_class_ c.
Definition GetComponentType (c : t) : option ClassRef := component_type_ c.
Definition GetClassLoader (c : t) : option LoaderRef := class_loader_ c.
Definition GetExtData (c : t) : option ExtRef := ext_data_ c.
Definition GetClassSize (c : t) : Z := class_size_ c.
Definition GetIfTable (c : t) : list ClassRef := iftable_ c.
Definition GetIfTableCount (c : t) : nat := length (iftable_ c).

(** Modelled from the spec: IsArrayClass is declared in class.h, which is not
    part of the sources; an array type is one with an element type. *)
Definition IsArrayClass (c : t) : bool :=
  match component_type_ c with Some _ => true | None => false end.

(** Modelled from the spec: GetVirtualMethods and GetDeclaredVirtualMethods
    are declared in class-inl.h, which is not part of the sources.  The
    virtual methods of a type are the ones it declares followed by the ones
    the loader copied down into it (conflict markers included); the declared
    ones leave the copies out. *)
Definition GetVirtualMethods (c : t) : list ArtMethod.t :=
  virtual_methods_ c ++ copied_methods_ c.
Definition GetDeclaredVirtualMethods (c : t) : list ArtMethod.t :=
  virtual_methods_ c.

Definition set_status (v : Z) (c : t) : t :=
  {| status_ := v; super_class_ := super_class_ c; component_type_ := component_type_ c;
     class_loader_ := class_loader_ c; dex_cache_ := dex_cache_ c; iftable_ := iftable_ c;
     ext_data_ := ext_data_ c; sfields_ := sfields_ c; ifields_ := ifields_ c;
     virtual_methods_ := virtual_methods_ c; copied_methods_ := copied_methods_ c;
     class_size_ := class_size_ c; object_size_ := object_size_ c;
     object_size_alloc_fast_path_ := object_size_alloc_fast_path_ c;
     monitor_owner_ := monitor_owner_ c; interfaces_ := interfaces_ c;
     interface_type_list_ := interface_type_list_ c; IsInterface := IsInterface c;
     IsProxyClass := IsProxyClass c; IsPrimitive := IsPrimitive c;
     IsFinalizable := IsFinalizable c; IsVariableSize := IsVariableSize c |}.

Definition set_ext_data (v : option ExtRef) (c : t) : t :=
  {| status_ := status_ c; super_class_ := super_class_ c; component_type_ := component_type_ c;
     class_loader_ := class_loader_ c; dex_cache_ := dex_cache_ c; iftable_ := iftable_ c;
     ext_data_ := v; sfields_ := sfields_ c; ifields_ := ifields_ c;
     virtual_methods_ := virtual_methods_ c; copied_methods_ := copied_methods_ c;
     class_size_ := class_size_ c; object_size_ := object_size_ c;
     object_size_alloc_fast_path_ := object_size_alloc_fast_path_ c;
     monitor_owner_ := monitor_owner_ c; interfaces_ := interfaces_ c;
     interface_type_list_ := interface_type_list_ c; IsInterface := IsInterface c;
     IsProxyClass := IsProxyClass c; IsPrimitive := IsPrimitive c;
     IsFinalizable := IsFinalizable c; IsVariableSize := IsVariableSize c |}.

Definition set_class_size (v : Z) (c : t) : t :=
  {| status_ := status_ c; super_class_ := super_class_ c; component_type_ := component_type_ c;
     class_loader_ := class_loader_ c; dex_cache_ := dex_cache_ c; iftable_ := iftable_ c;
     ext_data_ := ext_data_ c; sfields_ := sfields_ c; ifields_ := ifields_ c;
     virtual_methods_ := virtual_methods_ c; copied_methods_ := copied_methods_ c;
     class_size_ := v; object_size_ := object_size_ c;
     object_size_alloc_fast_path_ := object_size_alloc_fast_path_ c;
     monitor_owner_ := monitor_owner_ c; interfaces_ := interfaces_ c;
     interface_type_list_ := interface_type_list_ c; IsInterface := IsInterface c;
     IsProxyClass := IsProxyClass c; IsPrimitive := IsPrimitive c;
     IsFinalizable := IsFinalizable c; IsVariableSize := IsVariableSize c |}.

Definition set_object_size_alloc_fast_path (v : Z) (c : t) : t :=
  {| status_ := status_ c; super_class_ := super_class_ c; component_type_ := component_type_ c;
     class_loader_ := class_loader_ c; dex_cache_ := dex_cache_ c; iftable_ := iftable_ c;
     ext_data_ := ext_data_ c; sfields_ := sfields_ c; ifields_ := ifields_ c;
     virtual_methods_ := virtual_methods_ c; copied_methods_ := copied_methods_ c;
     class_size_ := class_size_ c; object_size_ := object_size_ c;
     object_size_alloc_fast_path_ := v;
     monitor_owner_ := monitor_owner_ c; interfaces_ := interfaces_ c;
     interface_type_list_ := interface_type_list_ c; IsInterface := IsInterface c;
     IsProxyClass := IsProxyClass c; IsPrimitive := IsPrimitive c;
     IsFinalizable := IsFinalizable c; IsVariableSize := IsVariableSize c |}.

End Class.

(** The object graph and the collaborators outside class.cc that the lookups
    consult: the class linker ([LookupClass], [LookupResolvedType],
    [GetDescriptorForProxy]), the dex file ([DexTypeDescriptor]),
    [Primitive::Descriptor] and [Class::IsAssignableFrom] (class-inl.h).
    [IsAssignableFrom rt a b] is [a->IsAssignableFrom(b)]. *)
Record Runtime := {
  heap : ClassRef -> Class.t;
  IsAssignableFrom : ClassRef -> ClassRef -> bool;
  LookupClass : StringPiece.t -> option ClassRef;
  LookupResolvedType : TypeIndex -> option DexCacheRef -> option LoaderRef -> option ClassRef;
  GetDescriptorForProxy : ClassRef -> StringPiece.t;
  PrimitiveDescriptor : ClassRef -> StringPiece.t;
  DexTypeDescriptor : ClassRef -> StringPiece.t
}.

(** ** Field lookup (class.cc 710-806) *)

(** The [while (low < high)] loop of FindFieldByNameAndType.  [fuel] bounds
    the iterations; [high - low] of them always suffice
    ([bsearch_loop_fuel]).  The result is the index of the field that [ret]
    points to.  [low + high] does not wrap: the table lies in memory, so its
    size is far below half the range of [size_t]; and [mid] is below [high],
    so [fields->At(mid)] is always inside the table. *)
Fixpoint bsearch_loop (fuel : nat) (fields : list ArtField.t)
    (name type : StringPiece.t) (low high : nat) : option nat :=
  match fuel with
  | O => None
  | S fuel' =>
      if (low <? high)%nat then
        let mid := ((low + high) / 2)%nat in
        match fields !! mid with
        | None => None
        | Some field =>
            let result := StringPiece.Compare (ArtField.GetName field) name in
            let result :=
              if result =? 0
              then StringPiece.Compare (ArtField.GetTypeDescriptor field) type
              else result in
            if result <? 0 then bsearch_loop fuel' fields name type (mid + 1)%nat high
            else if result >? 0 then bsearch_loop fuel' fields name type low mid
            else Some mid
        end
      else None
  end.

Definition binary_search (fields : list ArtField.t) (name type : StringPiece.t) : option nat :=
  bsearch_loop (length fields) fields name type 0%nat (length fields).

(** The linear scan of the [kIsDebugBuild] block. *)
Fixpoint linear_scan_from (idx : nat) (fields : list ArtField.t)
    (name type : StringPiece.t) : option nat :=
  match fields with
  | [] => None
  | field :: rest =>
      if StringPiece.eqb name (ArtField.GetName field)
         && StringPiece.eqb type (ArtField.GetTypeDescriptor field)
      then Some idx
      else linear_scan_from (S idx) rest name type
  end.

Definition linear_scan (fields : list ArtField.t) (name type : StringPiece.t) : option nat :=
  linear_scan_from 0%nat fields name type.

Definition FindFieldByNameAndType (kIsDebugBuild : bool) (fields : option (list ArtField.t))
    (name type : StringPiece.t) : Res (option nat) :=
  match fields with
  | None => Ret None
  | Some fields =>
      let ret := binary_search fields name type in
      _ <-- (if kIsDebugBuild
             then CHECK (bool_decide (linear_scan fields name type = ret)) FieldSearchMismatch
             else Ret tt);;
      Ret ret
  end.

Section Lookup.
Context (rt : Runtime).

Definition FindDeclaredInstanceField (kIsDebugBuild : bool) (this : ClassRef)
    (name type : StringPiece.t) : Res (option FieldPtr) :=
  r <-- FindFieldByNameAndType kIsDebugBuild (Class.ifields_ (heap rt this)) name type;;
  Ret (option_map (Build_FieldPtr this false) r).

(** [DCHECK(type != nullptr)]: the null pointer converts to the empty
    StringPiece. *)
Definition FindDeclaredStaticField (kIsDebugBuild : bool) (this : ClassRef)
    (name type : StringPiece.t) : Res (option FieldPtr) :=
  _ <-- DCHECK kIsDebugBuild (negb (StringPiece.eqb type []));;
  r <-- FindFieldByNameAndType kIsDebugBuild (Class.sfields_ (heap rt this)) name type;;
  Ret (option_map (Build_FieldPtr this true) r).

(** ** Direct interfaces (class.cc 927-958) *)

(** Modelled from the spec: NumDirectInterfaces is declared in class-inl.h,
    which is not part of the sources.  A primitive type has none, an array
    type has exactly the two marker interfaces, a proxy has its explicit
    interface list, any other type the interface list of its definition. *)
Definition NumDirectInterfaces (c : Class.t) : nat :=
  if Class.IsPrimitive c then 0%nat
  else if Class.IsArrayClass c then 2%nat
  else if Class.IsProxyClass c then
    match Class.interfaces_ c with Some l => length l | None => 0%nat end
  else
    match Class.interface_type_list_ c with Some l => length l | None => 0%nat end.

Definition Cloneable : StringPiece.t := list_ascii_of_string "Ljava/lang/Cloneable;".
Definition Serializable : StringPiece.t := list_ascii_of_string "Ljava/io/Serializable;".

(** [GetInterfaceTypeList()->GetTypeItem(idx).type_idx_]: GetInterfaceTypeList
    (class.cc 1006-1012) returns null for a class without a class definition,
    and the list is then accessed through the null pointer; GetTypeItem reads
    the list at [idx] whatever its size. *)
Definition GetDirectInterfaceTypeIdx (kIsDebugBuild : bool) (c : Class.t) (idx : nat)
    : Res TypeIndex :=
  _ <-- DCHECK kIsDebugBuild (negb (Class.IsPrimitive c));;
  _ <-- DCHECK kIsDebugBuild (negb (Class.IsArrayClass c));;
  match Class.interface_type_list_ c with
  | None => Fatal NullPointer
  | Some interface_type_list =>
      match interface_type_list !! idx with
      | Some type_idx => Ret type_idx
      | None => Fatal OutOfBounds
      end
  end.

(** [DCHECK(klass != nullptr)] holds of every [ClassRef].  The result is
    null ([None]) when the class linker knows no such class or the type is not
    resolved yet.  The interfaces of a proxy are read through [interfaces]
    also where the DCHECK on it is not made; [interfaces->Get(idx)] checks
    the index and gives null past the end of the array. *)
Definition GetDirectInterface (kIsDebugBuild : bool) (klass : ClassRef) (idx : nat)
    : Res (option ClassRef) :=
  let c := heap rt klass in
  _ <-- DCHECK kIsDebugBuild (negb (Class.IsPrimitive c));;
  if Class.IsArrayClass c then
    interface <--
      (if (idx =? 0)%nat then Ret (LookupClass rt Cloneable)
       else (_ <-- DCHECK kIsDebugBuild (idx =? 1)%nat;; Ret (LookupClass rt Serializable)));;
    _ <-- DCHECK kIsDebugBuild (bool_decide (is_Some interface));;
    Ret interface
  else if Class.IsProxyClass c then
    let interfaces := Class.interfaces_ c in
    _ <-- DCHECK kIsDebugBuild (bool_decide (is_Some interfaces));;
    match interfaces with
    | None => Fatal NullPointer
    | Some interfaces => Ret (o ← interfaces !! idx; o)
    end
  else
    type_idx <-- GetDirectInterfaceTypeIdx kIsDebugBuild c idx;;
    let interface :=
      LookupResolvedType rt type_idx (Class.dex_cache_ c) (Class.class_loader_ c) in
    Ret interface.

(** ** Static field resolution (class.cc 808-831) *)

(** The loop over the direct interfaces of [k], from index [i], with [n]
    interfaces to go; [rec] is the recursive call of FindStaticField. *)
Fixpoint interfaces_loop (rec : option ClassRef -> Res (option FieldPtr))
    (kIsDebugBuild : bool) (k : ClassRef) (i n : nat) : Res (option FieldPtr) :=
  match n with
  | O => Ret None
  | S n' =>
      interface <-- GetDirectInterface kIsDebugBuild k i;;
      _ <-- DCHECK kIsDebugBuild (bool_decide (is_Some interface));;
      f <-- rec interface;;
      match f with
      | Some f => Ret (Some f)
      | None => interfaces_loop rec kIsDebugBuild k (S i) n'
      end
  end.

(** [fuel] bounds the depth of the walk: one unit per step up the superclass
    chain and per step into an interface. *)
Fixpoint FindStaticField (fuel : nat) (kIsDebugBuild : bool) (klass : option ClassRef)
    (name type : StringPiece.t) : Res (option FieldPtr) :=
  match klass with
  | None => Ret None
  | Some k =>
      match fuel with
      | O => OutOfFuel
      | S fuel' =>
          f <-- FindDeclaredStaticField kIsDebugBuild k name type;;
          match f with
          | Some f => Ret (Some f)
          | None =>
              f <-- interfaces_loop
                      (fun interface => FindStaticField fuel' kIsDebugBuild interface name type)
                      kIsDebugBuild k 0%nat (NumDirectInterfaces (heap rt k));;
              match f with
              | Some f => Ret (Some f)
              | None =>
                  FindStaticField fuel' kIsDebugBuild (Class.GetSuperClass (heap rt k)) name type
              end
          end
      end
  end.

End Lookup.

(** ** Interface super calls (class.cc 634-697) *)

(** Modelled from the spec: ArtMethod::HasSameNameAndSignature is defined in
    art_method.cc, which is not part of the sources; it is the
    same-name-and-signature match. *)
Definition HasSameNameAndSignature (a b : ArtMethod.t) : bool :=
  StringPiece.eqb (ArtMethod.GetName a) (ArtMethod.GetName b)
  && StringPiece.eqb (ArtMethod.GetSignature a) (ArtMethod.GetSignature b).

(** The first loop: [for (ArtMethod& iface_method : GetVirtualMethods(...))]. *)
Fixpoint own_loop (method : ArtMethod.t) (methods : list ArtMethod.t) : option ArtMethod.t :=
  match methods with
  | [] => None
  | iface_method :: rest =>
      if HasSameNameAndSignature method iface_method then Some iface_method
      else own_loop method rest
  end.

(** ** Package membership (class.cc 351-389, 896-917) *)

(** [while (i < min_length && descriptor1[i] == descriptor2[i]) ++i;]
    [min_length] iterations are the most the loop can make. *)
Fixpoint common_prefix_loop (fuel : nat) (descriptor1 descriptor2 : StringPiece.t)
    (min_length i : nat) : nat :=
  match fuel with
  | O => i
  | S fuel' =>
      if (i <? min_length)%nat && bool_decide (descriptor1 !! i = descriptor2 !! i)
      then common_prefix_loop fuel' descriptor1 descriptor2 min_length (S i)
      else i
  end.

Definition slash : ascii := "/"%char.

Definition IsInSamePackage_descriptors (descriptor1 descriptor2 : StringPiece.t) : bool :=
  let min_length := Nat.min (length descriptor1) (length descriptor2) in
  let i := common_prefix_loop min_length descriptor1 descriptor2 min_length 0%nat in
  if bool_decide (StringPiece.find slash descriptor1 i <> None)
     || bool_decide (StringPiece.find slash descriptor2 i <> None)
  then false
  else true.

Section Package.
Context (rt : Runtime).

(** [while (klass->IsArrayClass()) klass = klass->GetComponentType();] *)
Fixpoint strip_arrays (fuel : nat) (klass : ClassRef) : Res ClassRef :=
  match Class.GetComponentType (heap rt klass) with
  | None => Ret klass
  | Some component =>
      match fuel with
      | O => OutOfFuel
      | S fuel' => strip_arrays fuel' component
      end
  end.

(** GetDescriptor with GetArrayDescriptor unfolded into it. *)
Fixpoint GetDescriptor (fuel : nat) (this : ClassRef) : Res StringPiece.t :=
  let c := heap rt this in
  if Class.IsPrimitive c then Ret (PrimitiveDescriptor rt this)
  else
    match Class.GetComponentType c with
    | Some component =>
        match fuel with
        | O => OutOfFuel
        | S fuel' =>
            elem_desc <-- GetDescriptor fuel' component;;
            Ret ("["%char :: elem_desc)
        end
    | None =>
        if Class.IsProxyClass c then Ret (GetDescriptorForProxy rt this)
        else Ret (DexTypeDescriptor rt this)
    end.

Definition IsInSamePackage (fuel : nat) (this that : ClassRef) : Res bool :=
  let klass1 := this in
  let klass2 := that in
  if bool_decide (klass1 = klass2) then Ret true
  else if negb (bool_decide (Class.GetClassLoader (heap rt klass1)
                             = Class.GetClassLoader (heap rt klass2)))
  then Ret false
  else
    klass1 <-- strip_arrays fuel klass1;;
    klass2 <-- strip_arrays fuel klass2;;
    if bool_decide (klass1 = klass2) then Ret true
    else
      temp1 <-- GetDescriptor fuel klass1;;
      temp2 <-- GetDescriptor fuel klass2;;
      Ret (IsInSamePackage_descriptors temp1 temp2).

End Package.

(** ** Class size (class.cc 200-208) *)

(** Sizes are [uint32_t]; on values of that range the comparison is the one
    on integers. *)
Definition SetClassSize (kIsDebugBuild : bool) (this : Class.t) (new_class_size : Z)
    : Res Class.t :=
  _ <-- (if kIsDebugBuild && (new_class_size <? Class.GetClassSize this)
         then Fatal ClassSizeShrinks else Ret tt);;
  Ret (Class.set_class_size new_class_size this).

(** Successive calls on one object. *)
Fixpoint SetClassSize_all (kIsDebugBuild : bool) (this : Class.t) (sizes : list Z)
    : Res Class.t :=
  match sizes with
  | [] => Ret this
  | new_class_size :: rest =>
      this' <-- SetClassSize kIsDebugBuild this new_class_size;;
      SetClassSize_all kIsDebugBuild this' rest
  end.

(** ** Threads, the ClassExt heap, ClassExt::Alloc *)

Record Thread := {
  GetThreadId : Z;
  exception_ : option Throwable
}.

Definition GetException (self : Thread) : option Throwable := exception_ self.
Definition IsExceptionPending (self : Thread) : bool :=
  match exception_ self with Some _ => true | None => false end.
Definition ClearException (self : Thread) : Thread :=
  {| GetThreadId := GetThreadId self; exception_ := None |}.
Definition SetException (self : Thread) (e : Throwable) : Thread :=
  {| GetThreadId := GetThreadId self; exception_ := Some e |}.

(** Modelled from the spec: Thread::AssertPendingException and
    Thread::AssertPendingOOMException are defined in thread.cc, which is not
    part of the sources; they are the assert-pending operation of the
    pending-failure channel, the second one for an out-of-memory
    condition. *)
Definition AssertPendingException (self : Thread) : Res unit :=
  CHECK (IsExceptionPending self) NoPendingException.
Definition AssertPendingOOMException (self : Thread) : Res unit :=
  _ <-- AssertPendingException self;;
  CHECK (bool_decide (GetException self = Some OutOfMemoryError)) PendingNotOOM.

(** The part of the managed heap a call works on: the Class object [h_this]
    refers to, the ClassExt objects, the allocator ([next_ext] is the next
    free reference, [room] the number of objects that still fit) and the
    number of [NotifyAll] calls made so far on the monitor of [klass]. *)
Record Heap := {
  klass : Class.t;
  exts : ExtRef -> ClassExt.t;
  next_ext : ExtRef;
  room : nat;
  notify_all : nat
}.

Definition set_klass (c : Class.t) (h : Heap) : Heap :=
  {| klass := c; exts := exts h; next_ext := next_ext h; room := room h;
     notify_all := notify_all h |}.

Definition NotifyAll (h : Heap) : Heap :=
  {| klass := klass h; exts := exts h; next_ext := next_ext h; room := room h;
     notify_all := S (notify_all h) |}.

(** [ext->SetVerifyError(e)] *)
Definition SetVerifyError (ext : ExtRef) (e : option Throwable) (h : Heap) : Heap :=
  {| klass := klass h;
     exts := fun r => if bool_decide (r = ext) then {| ClassExt.verify_error_ := e |} else exts h r;
     next_ext := next_ext h; room := room h; notify_all := notify_all h |}.

Definition GetVerifyError (ext : ExtRef) (h : Heap) : option Throwable :=
  ClassExt.verify_error_ (exts h ext).

(** Modelled from the spec: ClassExt::Alloc is defined in class_ext.cc, which is
    not part of the sources.  It allocates a new ExtensionData record; if
    the allocation fails it returns null with an out-of-memory condition
    pending on the calling thread. *)
Definition ClassExt_Alloc (h : Heap) (self : Thread) : Heap * Thread * option ExtRef :=
  match room h with
  | O => (h, SetException self OutOfMemoryError, None)
  | S room' =>
      ({| klass := klass h;
          exts := fun r => if bool_decide (r = next_ext h)
                           then {| ClassExt.verify_error_ := None |} else exts h r;
          next_ext := S (next_ext h); room := room'; notify_all := notify_all h |},
       self, Some (next_ext h))
  end.

(** [CasFieldStrongSequentiallyConsistentObject(ext_offset, nullptr, new_ext)] *)
Definition CasExtData (h : Heap) (new_ext : ExtRef) : Heap * bool :=
  match Class.GetExtData (klass h) with
  | None => (set_klass (Class.set_ext_data (Some new_ext) (klass h)) h, true)
  | Some _ => (h, false)
  end.

(** ** EnsureExtDataPresent (class.cc 71-111) *)

(** The tail of the function once [ret] is known: [CHECK(!ret.IsNull())],
    the exception restored, [return]. *)
Definition ensure_finish (self : Thread) (throwable : option Throwable) (ret : option ExtRef)
    : Res (Thread * option ExtRef) :=
  _ <-- CHECK (bool_decide (is_Some ret)) NullExtData;;
  Ret (match throwable with Some t => SetException self t | None => self end, ret).

(** The function run by one thread without interference.  The two
    instantiations of the CAS that [IsActiveTransaction] selects differ in
    transaction logging only. *)
Definition EnsureExtDataPresent (kIsDebugBuild : bool) (h : Heap) (self : Thread)
    : Res (Heap * Thread * option ExtRef) :=
  match Class.GetExtData (klass h) with
  | Some existing => Ret (h, self, Some existing)
  | None =>
      let throwable := GetException self in
      let self := ClearException self in
      let '(h, self, new_ext) := ClassExt_Alloc h self in
      match new_ext with
      | None =>
          _ <-- AssertPendingOOMException self;;
          Ret (h, self, None)
      | Some new_ext =>
          let '(h, set) := CasExtData h new_ext in
          let ret := if set then Some new_ext else Class.GetExtData (klass h) in
          _ <-- DCHECK kIsDebugBuild
                  (negb set || bool_decide (Class.GetExtData (klass h) = Some new_ext));;
          r <-- ensure_finish self throwable ret;;
          Ret (h, r.1, r.2)
      end
  end.

(** *** The same function, one shared access at a time

    Where a thread stands in EnsureExtDataPresent; the locals that are live
    at that point travel with it. *)
Inductive Pc : Set :=
  | AtEntry
  | AtAlloc (throwable : option Throwable)
  | AtCas (throwable : option Throwable) (new_ext : ExtRef)
  | AtConfirm (throwable : option Throwable) (new_ext : ExtRef)
  | AtReread (throwable : option Throwable) (new_ext : ExtRef)
  | Returned (ret : option ExtRef)
  | Aborted (why : Abort).

Definition finish_pc (self : Thread) (throwable : option Throwable) (ret : option ExtRef)
    : Thread * Pc :=
  match ensure_finish self throwable ret with
  | Ret r => (r.1, Returned r.2)
  | Fatal why => (self, Aborted why)
  | OutOfFuel => (self, Aborted DebugCheck)
  end.

(** One step of one thread: [AtEntry] reads the slot, [AtAlloc] allocates,
    [AtCas] is the compare-and-swap, [AtConfirm] the read of the DCHECK
    after a CAS that succeeded, [AtReread] the read after one that
    failed. *)
Definition ensure_step (kIsDebugBuild : bool) (h : Heap) (self : Thread) (pc : Pc)
    : Heap * Thread * Pc :=
  match pc with
  | AtEntry =>
      match Class.GetExtData (klass h) with
      | Some existing => (h, self, Returned (Some existing))
      | None => (h, ClearException self, AtAlloc (GetException self))
      end
  | AtAlloc throwable =>
      let '(h', self', new_ext) := ClassExt_Alloc h self in
      match new_ext with
      | None =>
          match AssertPendingOOMException self' with
          | Ret _ => (h', self', Returned None)
          | Fatal why => (h', self', Aborted why)
          | OutOfFuel => (h', self', Aborted DebugCheck)
          end
      | Some new_ext => (h', self', AtCas throwable new_ext)
      end
  | AtCas throwable new_ext =>
      let '(h', set) := CasExtData h new_ext in
      if set then
        if kIsDebugBuild then (h', self, AtConfirm throwable new_ext)
        else let '(self', pc') := finish_pc self throwable (Some new_ext) in (h', self', pc')
      else (h', self, AtReread throwable new_ext)
  | AtConfirm throwable new_ext =>
      if bool_decide (Class.GetExtData (klass h) = Some new_ext)
      then let '(self', pc') := finish_pc self throwable (Some new_ext) in (h, self', pc')
      else (h, self, Aborted DebugCheck)
  | AtReread throwable new_ext =>
      let '(self', pc') := finish_pc self throwable (Class.GetExtData (klass h)) in
      (h, self', pc')
  | Returned _ | Aborted _ => (h, self, pc)
  end.

(** Threads that race through EnsureExtDataPresent on one Class. *)
Record Sys := {
  shared : Heap;
  threads : list (Thread * Pc)
}.

Inductive sys_step (kIsDebugBuild : bool) : Sys -> Sys -> Prop :=
  | step_thread (s : Sys) (i : nat) (self self' : Thread) (pc pc' : Pc) (h' : Heap) :
      threads s !! i = Some (self, pc) ->
      ensure_step kIsDebugBuild (shared s) self pc = (h', self', pc') ->
      sys_step kIsDebugBuild s {| shared := h'; threads := <[i := (self', pc')]> (threads s) |}.

Definition sys_init (h : Heap) (callers : list Thread) : Sys :=
  {| shared := h; threads := map (fun self => (self, AtEntry)) callers |}.

(** [n] steps of one thread on its own. *)
Fixpoint run_alone (kIsDebugBuild : bool) (n : nat) (h : Heap) (self : Thread) (pc : Pc)
    : Heap * Thread * Pc :=
  match n with
  | O => (h, self, pc)
  | S n' =>
      let '(h', self', pc') := ensure_step kIsDebugBuild h self pc in
      run_alone kIsDebugBuild n' h' self' pc'
  end.

(** ** SetStatus (class.cc 113-194) *)

(** The declarations of class.h and of the runtime that SetStatus uses and
    that are not part of the sources: the values of the Status enumerators,
    [IsTemp], [RoundUp] and [kObjectAlignment]. *)
Record ClassDecls := {
  kStatusRetired : Z;
  kStatusErrorResolved : Z;
  kStatusErrorUnresolved : Z;
  kStatusResolved : Z;
  kStatusInitialized : Z;
  IsTemp : Class.t -> bool;
  RoundUp : Z -> Z -> Z;
  kObjectAlignment : Z
}.

(** The build and the state of the runtime at the call. *)
Record Config := {
  kIsDebugBuild : bool;
  class_linker_initialized : bool
}.

Section Status.
Context (d : ClassDecls) (cfg : Config).

(** Modelled from the spec: IsErroneous is declared in class.h, which is not
    part of the sources; a type is erroneous when its status is
    ErrorUnresolved or ErrorResolved. *)
Definition IsErroneous (status : Z) : bool :=
  (status =? kStatusErrorUnresolved d) || (status =? kStatusErrorResolved d).

Definition uint32_max : Z := 2 ^ 32 - 1.

(** The block under [if (UNLIKELY(IsErroneous(new_status)))]; the VLOG
    output is left out. *)
Definition mark_erroneous (h : Heap) (self : Thread) (old_status new_status : Z)
    : Res (Heap * Thread) :=
  _ <-- CHECK (negb (IsErroneous (Class.GetStatus (klass h)))) AlreadyErroneous;;
  _ <-- CHECK (Bool.eqb (new_status =? kStatusErrorResolved d)
                        (old_status >=? kStatusResolved d)) WrongErrorStatus;;
  r <-- EnsureExtDataPresent (kIsDebugBuild cfg) h self;;
  let '(h, self, ext) := r in
  h <-- match ext with
        | Some ext =>
            _ <-- AssertPendingException self;;
            Ret (SetVerifyError ext (GetException self) h)
        | None =>
            _ <-- AssertPendingOOMException self;;
            Ret h
        end;;
  _ <-- AssertPendingException self;;
  Ret (h, self).

(** [h] holds the object [h_this] refers to.  The two instantiations of
    SetField32Volatile that [IsActiveTransaction] selects differ in
    transaction logging only.  [IsTemp] is read after the status is stored. *)
Definition SetStatus (h : Heap) (new_status : Z) (self : Thread) : Res (Heap * Thread) :=
  let old_status := Class.GetStatus (klass h) in
  _ <-- (if class_linker_initialized cfg then
           _ <-- (if (new_status <=? old_status)
                     && negb (new_status =? kStatusErrorUnresolved d)
                     && negb (new_status =? kStatusErrorResolved d)
                     && negb (new_status =? kStatusRetired d)
                  then Fatal UnexpectedChangeBack else Ret tt);;
           if (new_status >=? kStatusResolved d) || (old_status >=? kStatusResolved d)
           then CHECK (Class.monitor_owner_ (klass h) =? GetThreadId self) NotHoldingLock
           else Ret tt
         else Ret tt);;
  r <-- (if IsErroneous new_status
         then mark_erroneous h self old_status new_status
         else Ret (h, self));;
  let '(h, self) := r in
  let h := set_klass (Class.set_status new_status (klass h)) h in
  h <-- (if (new_status =? kStatusInitialized d) && negb (Class.IsVariableSize (klass h)) then
           _ <-- DCHECK (kIsDebugBuild cfg)
                   (Class.object_size_alloc_fast_path_ (klass h) =? uint32_max);;
           if negb (Class.IsFinalizable (klass h))
           then Ret (set_klass (Class.set_object_size_alloc_fast_path
                                  (RoundUp d (Class.object_size_ (klass h)) (kObjectAlignment d))
                                  (klass h)) h)
           else Ret h
         else Ret h);;
  if negb (class_linker_initialized cfg) then Ret (h, self)
  else if IsTemp d (klass h) then
    _ <-- CHECK (new_status <? kStatusResolved d) TempNotBelowResolved;;
    if (new_status =? kStatusRetired d) || (new_status =? kStatusErrorUnresolved d)
    then Ret (NotifyAll h, self)
    else Ret (h, self)
  else
    _ <-- CHECK (negb (new_status =? kStatusRetired d)) RegularRetired;;
    if (old_status >=? kStatusResolved d) || (new_status >=? kStatusResolved d)
    then Ret (NotifyAll h, self)
    else Ret (h, self).

End Status.

(** ** Access flags in a debug build (class.cc 1349-1362) *)

(** The declarations that GetAccessFlagsDCheck uses and that are not part of
    the sources: [IsIdxLoaded] of class.h and the root
    [String::GetJavaLangString()] of string.h. *)
Record AccessDecls := {
  IsIdxLoaded : Class.t -> bool;
  GetJavaLangString : option ClassRef
}.

(** Modelled from the spec: IsRetired is declared in class.h, which is not
    part of the sources; a type is retired when its status is Retired. *)
Definition IsRetired (d : ClassDecls) (c : Class.t) : bool :=
  Class.GetStatus c =? kStatusRetired d.

Section AccessFlags.
Context (rt : Runtime) (d : ClassDecls) (ad : AccessDecls) (kIsDebugBuild : bool).

(** [DCHECK(IsIdxLoaded() || IsRetired() || IsErroneous() ||
    this == String::GetJavaLangString())] *)
Definition GetAccessFlagsDCheck (this : ClassRef) : Res unit :=
  let c := heap rt this in
  DCHECK kIsDebugBuild
    (IsIdxLoaded ad c || IsRetired d c || IsErroneous d (Class.GetStatus c)
     || bool_decide (Some this = GetJavaLangString ad)).

(** Modelled from the spec: IsInterface and GetAccessFlags are declared in
    class.h, which is not part of the sources.  IsInterface tests the
    interface bit of the access flags ([Class.IsInterface] is that bit) and
    reads the flags with GetAccessFlags, which in a debug build first calls
    GetAccessFlagsDCheck. *)
Definition IsInterface (this : ClassRef) : Res bool :=
  _ <-- (if kIsDebugBuild then GetAccessFlagsDCheck this else Ret tt);;
  Ret (Class.IsInterface (heap rt this)).

End AccessFlags.

(** ** The scan of FindVirtualMethodForInterfaceSuper (class.cc 634-697) *)

Section InterfaceSuper.
Context (rt : Runtime) (d : ClassDecls) (ad : AccessDecls) (kIsDebugBuild : bool).

(** [for (ArtMethod* possible_override : abstract_methods)]: the value of
    [overridden] when the loop is left. *)
Fixpoint overridden_loop (iface : ClassRef) (current_method : ArtMethod.t)
    (abstract_methods : list ArtMethod.t) : Res bool :=
  match abstract_methods with
  | [] => Ret false
  | possible_override :: rest =>
      _ <-- DCHECK kIsDebugBuild (HasSameNameAndSignature possible_override current_method);;
      if IsAssignableFrom rt iface (ArtMethod.GetDeclaringClass possible_override)
      then Ret true
      else overridden_loop iface current_method rest
  end.

(** [for (auto& method_iter : iface->GetDeclaredVirtualMethods(...))]:
    [inl m] when the loop returns [m] from the function, [inr v] when it ends
    with the vector [abstract_methods] equal to [v]. *)
Fixpoint declared_loop (iface : ClassRef) (method : ArtMethod.t)
    (methods : list ArtMethod.t) (abstract_methods : list ArtMethod.t)
    : Res (ArtMethod.t + list ArtMethod.t) :=
  match methods with
  | [] => Ret (inr abstract_methods)
  | current_method :: rest =>
      if HasSameNameAndSignature current_method method then
        if ArtMethod.IsDefault current_method then
          overridden <-- overridden_loop iface current_method abstract_methods;;
          if negb overridden then Ret (inl current_method)
          else declared_loop iface method rest abstract_methods
        else
          declared_loop iface method rest (abstract_methods ++ [current_method])
      else declared_loop iface method rest abstract_methods
  end.

(** [for (size_t k = iftable_count; k != 0;) { k--; ... }] and the final
    [return].  [k] never reaches past the table, so the [None] branch is
    dead. *)
Fixpoint iftable_loop (iftable : list ClassRef) (method : ArtMethod.t) (k : nat)
    (abstract_methods : list ArtMethod.t) : Res (option ArtMethod.t) :=
  match k with
  | O => Ret (head abstract_methods)
  | S k' =>
      _ <-- DCHECK kIsDebugBuild (k' <? length iftable)%nat;;
      match iftable !! k' with
      | None => Fatal DebugCheck
      | Some iface =>
          r <-- declared_loop iface method
                  (Class.GetDeclaredVirtualMethods (heap rt iface)) abstract_methods;;
          match r with
          | inl current_method => Ret (Some current_method)
          | inr abstract_methods' => iftable_loop iftable method k' abstract_methods'
          end
      end
  end.

(** The two DCHECKs on entry call IsInterface, on the declaring class of
    [method] and on the receiver. *)
Definition FindVirtualMethodForInterfaceSuper (this : ClassRef) (method : ArtMethod.t)
    : Res (option ArtMethod.t) :=
  is_interface <-- IsInterface rt d ad kIsDebugBuild (ArtMethod.GetDeclaringClass method);;
  _ <-- DCHECK kIsDebugBuild is_interface;;
  is_interface <-- IsInterface rt d ad kIsDebugBuild this;;
  _ <-- DCHECK kIsDebugBuild is_interface;;
  match own_loop method (Class.GetVirtualMethods (heap rt this)) with
  | Some iface_method => Ret (Some iface_method)
  | None =>
      iftable_loop (Class.GetIfTable (heap rt this)) method
        (Class.GetIfTableCount (heap rt this)) []
  end.

End InterfaceSuper.

(** ** The order of field keys *)

(** Structural lexicographic order on StringPieces, the order [Compare] decides. *)
Fixpoint lex (a b : StringPiece.t) : comparison :=
  match a, b with
  | [], [] => Eq
  | [], _ :: _ => Lt
  | _ :: _, [] => Gt
  | x :: a', y :: b' =>
      match Z.compare (StringPiece.byte x) (StringPiece.byte y) with
      | Eq => lex a' b'
      | c => c
      end
  end.

Definition sign (c : comparison) : Z :=
  match c with Lt => -1 | Eq => 0 | Gt => 1 end.

(** The (name, then type) key of a field and the order of two keys. *)
Definition key_of (f : ArtField.t) : StringPiece.t * StringPiece.t :=
  (ArtField.GetName f, ArtField.GetTypeDescriptor f).

Definition key_cmp (a b : StringPiece.t * StringPiece.t) : comparison :=
  match lex a.1 b.1 with
  | Eq => lex a.2 b.2
  | c => c
  end.

(** A field table in ascending key order ([ascending]), and one in strictly
    ascending order ([strictly_ascending]): no two entries share both name
    and type. *)
Fixpoint ascending (fields : list ArtField.t) : bool :=
  match fields with
  | a :: (b :: _) as rest =>
      negb (bool_decide (key_cmp (key_of a) (key_of b) = Gt)) && ascending rest
  | _ => true
  end.

Fixpoint strictly_ascending (fields : list ArtField.t) : bool :=
  match fields with
  | a :: (b :: _) as rest =>
      bool_decide (key_cmp (key_of a) (key_of b) = Lt) && strictly_ascending rest
  | _ => true
  end.

(** Two fields of one table with the same name and type. *)
Definition str (s : string) : StringPiece.t := list_ascii_of_string s.

Definition twin_fields : list ArtField.t :=
  [ {| ArtField.GetName := str "a"; ArtField.GetTypeDescriptor := str "I";
       ArtField.GetDexFieldIndex := 0 |};
    {| ArtField.GetName := str "a"; ArtField.GetTypeDescriptor := str "I";
       ArtField.GetDexFieldIndex := 1 |} ].

Definition three_fields : list ArtField.t :=
  [ {| ArtField.GetName := str "a"; ArtField.GetTypeDescriptor := str "I";
       ArtField.GetDexFieldIndex := 0 |};
    {| ArtField.GetName := str "a"; ArtField.GetTypeDescriptor := str "J";
       ArtField.GetDexFieldIndex := 1 |};
    {| ArtField.GetName := str "b"; ArtField.GetTypeDescriptor := str "I";
       ArtField.GetDexFieldIndex := 2 |} ].

(** ** Objects for the examples *)

(** Modelled from the spec: the Status enumeration is declared in class.h,
    which is not part of the sources.  The states are numbered in their
    increasing order, NotReady = 0 up to Initialized = 9, with the states
    that a transition may regress into (Retired, ErrorResolved,
    ErrorUnresolved) below NotReady.  A temporary instance is one that is not
    fully installed yet: below Resolving, not ErrorResolved, and of a kind
    that is instantiated (here: neither primitive nor an interface). *)
Definition example_decls : ClassDecls :=
  {| kStatusRetired := -3;
     kStatusErrorResolved := -2;
     kStatusErrorUnresolved := -1;
     kStatusResolved := 4;
     kStatusInitialized := 9;
     IsTemp := fun c =>
       (Class.status_ c <? 3) && negb (Class.status_ c =? -2)
       && negb (Class.IsPrimitive c) && negb (Class.IsInterface c);
     RoundUp := fun x n => (x + n - 1) / n * n;
     kObjectAlignment := 8 |}.

Definition kStatusIdx : Z := 1.
Definition kStatusLoaded : Z := 2.
Definition kStatusVerifying : Z := 5.

(** A class or interface with the given status, lock owner and ClassExt. *)
Definition example_class (status : Z) (owner : Z) (ext : option ExtRef) (interface : bool)
    : Class.t :=
  {| Class.status_ := status; Class.super_class_ := None; Class.component_type_ := None;
     Class.class_loader_ := None; Class.dex_cache_ := None; Class.iftable_ := [];
     Class.ext_data_ := ext; Class.sfields_ := None; Class.ifields_ := None;
     Class.virtual_methods_ := []; Class.copied_methods_ := [];
     Class.class_size_ := 10; Class.object_size_ := 12;
     Class.object_size_alloc_fast_path_ := 2 ^ 32 - 1;
     Class.monitor_owner_ := owner; Class.interfaces_ := None;
     Class.interface_type_list_ := None; Class.IsInterface := interface;
     Class.IsProxyClass := false; Class.IsPrimitive := false;
     Class.IsFinalizable := false; Class.IsVariableSize := false |}.

(** A heap around [c] in which [room] more objects fit. *)
Definition example_heap (c : Class.t) (room : nat) : Heap :=
  {| klass := c; exts := fun _ => {| ClassExt.verify_error_ := None |};
     next_ext := 0%nat; room := room; notify_all := 0%nat |}.

Definition example_thread (pending : option Throwable) : Thread :=
  {| GetThreadId := 1; exception_ := pending |}.

Definition debug_running : Config :=
  {| kIsDebugBuild := true; class_linker_initialized := true |}.
Definition release_running : Config :=
  {| kIsDebugBuild := false; class_linker_initialized := true |}.
Definition release_starting : Config :=
  {| kIsDebugBuild := false; class_linker_initialized := false |}.

(** ** The result of FindVirtualMethodForInterfaceSuper, stated on the scan *)

Section InterfaceSuperSpec.
Context (rt : Runtime) (d : ClassDecls) (ad : AccessDecls).

(** The same-name-and-signature matches the scan meets, in the order it meets
    them: the interface table from index count-1 down to 0, the declared
    virtual methods of each interface in their order; each match with the
    interface it was found in. *)
Definition matches_in (method : ArtMethod.t) (iface : ClassRef) : list (ClassRef * ArtMethod.t) :=
  map (pair iface)
    (List.filter (fun m => HasSameNameAndSignature m method)
       (Class.GetDeclaredVirtualMethods (heap rt iface))).

Definition scan_order (this : ClassRef) (method : ArtMethod.t) : list (ClassRef * ArtMethod.t) :=
  flat_map (matches_in method) (rev (Class.GetIfTable (heap rt this))).

(** The abstract candidates collected over a stretch of the scan. *)
Definition collected (scanned : list (ClassRef * ArtMethod.t)) : list ArtMethod.t :=
  map snd (List.filter (fun p => negb (ArtMethod.IsDefault p.2)) scanned).

(** A default match found in [iface] after [scanned] is overridden when some
    abstract candidate collected so far is declared by a subtype of [iface]. *)
Definition overridden (iface : ClassRef) (scanned : list (ClassRef * ArtMethod.t)) : bool :=
  existsb (fun a => IsAssignableFrom rt iface (ArtMethod.GetDeclaringClass a))
    (collected scanned).

(** Every default match of [scan] is overridden where the scan meets it. *)
Definition defaults_overridden (scan : list (ClassRef * ArtMethod.t)) : Prop :=
  forall scanned iface m rest,
    scan = scanned ++ (iface, m) :: rest ->
    ArtMethod.IsDefault m = true ->
    overridden iface scanned = true.

(** [r] is what the interface super call of [method] on [this] resolves to. *)
Definition Resolves (this : ClassRef) (method : ArtMethod.t) (r : option ArtMethod.t) : Prop :=
  match List.find (HasSameNameAndSignature method) (Class.GetVirtualMethods (heap rt this)) with
  | Some own => r = Some own
  | None =>
      (exists scanned iface m rest,
          scan_order this method = scanned ++ (iface, m) :: rest
          /\ ArtMethod.IsDefault m = true
          /\ overridden iface scanned = false
          /\ defaults_overridden scanned
          /\ r = Some m)
      \/ (defaults_overridden (scan_order this method)
          /\ r = head (collected (scan_order this method)))
  end.

(** The scan as one pass over the matches, with the candidates collected so
    far. *)
Fixpoint flat_scan (scan : list (ClassRef * ArtMethod.t)) (abstract_methods : list ArtMethod.t)
    : ArtMethod.t + list ArtMethod.t :=
  match scan with
  | [] => inr abstract_methods
  | (iface, m) :: rest =>
      if ArtMethod.IsDefault m then
        if existsb (fun a => IsAssignableFrom rt iface (ArtMethod.GetDeclaringClass a))
             abstract_methods
        then flat_scan rest abstract_methods
        else inl m
      else flat_scan rest (abstract_methods ++ [m])
  end.

(** The access flags of [k] can be read in a debug build. *)
Definition flags_readable (k : ClassRef) : bool :=
  IsIdxLoaded ad (heap rt k) || IsRetired d (heap rt k)
  || IsErroneous d (Class.GetStatus (heap rt k))
  || bool_decide (Some k = GetJavaLangString ad).

(** The two assertions on entry, with what reading the access flags asserts in
    a debug build. *)
Definition entry_ok (this : ClassRef) (method : ArtMethod.t) : bool :=
  flags_readable (ArtMethod.GetDeclaringClass method)
  && Class.IsInterface (heap rt (ArtMethod.GetDeclaringClass method))
  && flags_readable this
  && Class.IsInterface (heap rt this).

End InterfaceSuperSpec.

(** ** Packages, stated on descriptors *)

(** The index of the last [c] in [s]. *)
Fixpoint last_index (c : ascii) (s : StringPiece.t) : option nat :=
  match s with
  | [] => None
  | x :: s' =>
      match last_index c s' with
      | Some i => Some (S i)
      | None => if bool_decide (x = c) then Some 0%nat else None
      end
  end.

(** The package prefix of a descriptor: the string up to the last '/';
    a descriptor without '/' has none. *)
Definition package_prefix (descriptor : StringPiece.t) : option StringPiece.t :=
  match last_index slash descriptor with
  | Some i => Some (take i descriptor)
  | None => None
  end.

(** The length of the longest common prefix. *)
Fixpoint lcp (a b : StringPiece.t) : nat :=
  match a, b with
  | x :: a', y :: b' => if bool_decide (x = y) then S (lcp a' b') else 0%nat
  | _, _ => 0%nat
  end.

Section PackageSpec.
Context (rt : Runtime).

(** [Strips k n e]: [e] is the innermost element type of [k], [n] array
    levels down; [e] is not an array type. *)
Inductive Strips : ClassRef -> nat -> ClassRef -> Prop :=
  | Strips_base (k : ClassRef) :
      Class.GetComponentType (heap rt k) = None -> Strips k 0 k
  | Strips_array (k component e : ClassRef) (n : nat) :
      Class.GetComponentType (heap rt k) = Some component ->
      Strips component n e -> Strips k (S n) e.

(** The descriptor of a type that is not an array type. *)
Definition element_descriptor (e : ClassRef) : StringPiece.t :=
  if Class.IsPrimitive (heap rt e) then PrimitiveDescriptor rt e
  else if Class.IsProxyClass (heap rt e) then GetDescriptorForProxy rt e
  else DexTypeDescriptor rt e.

End PackageSpec.

(** A runtime for the examples: [Object] at 0, [Object[]] at 1, [String] at 2
    and [Thread[][]]'s chain at 3 (array of 4), 4 (array of 5), 5 ([Thread]);
    all of one loader; every other reference holds a class of another
    loader. *)
Definition example_package_class (component : option ClassRef) (loader : option LoaderRef)
    : Class.t :=
  {| Class.status_ := 9; Class.super_class_ := None; Class.component_type_ := component;
     Class.class_loader_ := loader; Class.dex_cache_ := None; Class.iftable_ := [];
     Class.ext_data_ := None; Class.sfields_ := None; Class.ifields_ := None;
     Class.virtual_methods_ := []; Class.copied_methods_ := [];
     Class.class_size_ := 0; Class.object_size_ := 0;
     Class.object_size_alloc_fast_path_ := 0;
     Class.monitor_owner_ := 0; Class.interfaces_ := None;
     Class.interface_type_list_ := None; Class.IsInterface := false;
     Class.IsProxyClass := false; Class.IsPrimitive := false;
     Class.IsFinalizable := false; Class.IsVariableSize := false |}.

Definition example_package_rt : Runtime :=
  {| heap := fun k =>
       match k with
       | 1%nat => example_package_class (Some 0%nat) None
       | 3%nat => example_package_class (Some 4%nat) None
       | 4%nat => example_package_class (Some 5%nat) None
       | 0%nat | 2%nat | 5%nat => example_package_class None None
       | _ => example_package_class None (Some 1%nat)
       end;
     IsAssignableFrom := fun a b => bool_decide (a = b);
     LookupClass := fun _ => None;
     LookupResolvedType := fun _ _ _ => None;
     GetDescriptorForProxy := fun _ => [];
     PrimitiveDescriptor := fun _ => [];
     DexTypeDescriptor := fun k =>
       match k with
       | 0%nat => str "Ljava/lang/Object;"
       | 2%nat => str "Ljava/lang/String;"
       | 5%nat => str "Ljava/lang/Thread;"
       | _ => str "Lcom/example/Other;"
       end |}.

(** ** The order of the static-field walk *)

Section StaticFieldSpec.
Context (rt : Runtime).

(** The direct interfaces of [k] in index order; an interface that is not
    resolved is [None]. *)
Definition direct_interface (k : ClassRef) (i : nat) : option ClassRef :=
  match GetDirectInterface rt false k i with
  | Ret interface => interface
  | _ => None
  end.

Definition direct_interfaces (k : ClassRef) : list (option ClassRef) :=
  map (direct_interface k) (seq 0 (NumDirectInterfaces (heap rt k))).

(** The types the walk visits from [klass], in the order it visits them when
    nothing is found: the type, then what the walk visits from each of its
    direct interfaces in turn, then what it visits from its superclass.
    [fuel] bounds the depth as it does in FindStaticField. *)
Fixpoint search_order (fuel : nat) (klass : option ClassRef) : list ClassRef :=
  match klass, fuel with
  | None, _ => []
  | Some _, O => []
  | Some k, S fuel' =>
      k :: flat_map (search_order fuel') (direct_interfaces k)
        ++ search_order fuel' (Class.GetSuperClass (heap rt k))
  end.

(** The declared static field of [k] with the given name and type. *)
Definition declared_static (k : ClassRef) (name type : StringPiece.t) : option FieldPtr :=
  match Class.sfields_ (heap rt k) with
  | Some fields => option_map (Build_FieldPtr k true) (binary_search fields name type)
  | None => None
  end.

(** The first type of [order] that declares the static field. *)
Fixpoint first_hit (order : list ClassRef) (name type : StringPiece.t) : option FieldPtr :=
  match order with
  | [] => None
  | k :: rest =>
      match declared_static k name type with
      | Some f => Some f
      | None => first_hit rest name type
      end
  end.


End StaticFieldSpec.

(** A runtime for the examples: class 0 extends class 1 and implements
    interface 2 (type index 7 of its interface list); both 1 and 2 declare the
    static field [x : I]. *)
Definition field_x : ArtField.t :=
  {| ArtField.GetName := str "x"; ArtField.GetTypeDescriptor := str "I";
     ArtField.GetDexFieldIndex := 0 |}.

Definition example_field_class (super : option ClassRef) (ifaces : option (list TypeIndex))
    (sfields : option (list ArtField.t)) : Class.t :=
  {| Class.status_ := 9; Class.super_class_ := super; Class.component_type_ := None;
     Class.class_loader_ := None; Class.dex_cache_ := None; Class.iftable_ := [];
     Class.ext_data_ := None; Class.sfields_ := sfields; Class.ifields_ := None;
     Class.virtual_methods_ := []; Class.copied_methods_ := [];
     Class.class_size_ := 0; Class.object_size_ := 0;
     Class.object_size_alloc_fast_path_ := 0;
     Class.monitor_owner_ := 0; Class.interfaces_ := None;
     Class.interface_type_list_ := ifaces; Class.IsInterface := false;
     Class.IsProxyClass := false; Class.IsPrimitive := false;
     Class.IsFinalizable := false; Class.IsVariableSize := false |}.

Definition example_field_rt : Runtime :=
  {| heap := fun k =>
       match k with
       | 0%nat => example_field_class (Some 1%nat) (Some [7%nat]) (Some [])
       | _ => example_field_class None None (Some [field_x])
       end;
     IsAssignableFrom := fun a b => bool_decide (a = b);
     LookupClass := fun _ => None;
     LookupResolvedType := fun t _ _ => if bool_decide (t = 7%nat) then Some 2%nat else None;
     GetDescriptorForProxy := fun _ => [];
     PrimitiveDescriptor := fun _ => [];
     DexTypeDescriptor := fun _ => [] |}.


(** ** Racing installers *)

(** The ClassExt slot of the Class the threads race on. *)
Definition slot (s : Sys) : option ExtRef := Class.GetExtData (klass (shared s)).

(** The threads scheduled as [schedule] tells: its entries are the indices of
    the threads that take the next step. *)
Fixpoint run_schedule (kIsDebugBuild : bool) (schedule : list nat) (s : Sys) : Sys :=
  match schedule with
  | [] => s
  | i :: rest =>
      match threads s !! i with
      | Some (self, pc) =>
          let '(h', self', pc') := ensure_step kIsDebugBuild (shared s) self pc in
          run_schedule kIsDebugBuild rest
            {| shared := h'; threads := <[i := (self', pc')]> (threads s) |}
      | None => run_schedule kIsDebugBuild rest s
      end
  end.

(** Where a caller stands, against the thread [self0] it was on entry: its
    pending failure is saved and cleared while it allocates and installs; a
    caller that returned a record returned the installed one and has its
    pending failure back; a caller that returned none has an OutOfMemoryError
    pending; no caller aborts. *)
Definition caller_ok (installed : option ExtRef) (self0 self : Thread) (pc : Pc) : Prop :=
  match pc with
  | AtEntry => self = self0
  | AtAlloc throwable | AtCas throwable _ =>
      throwable = GetException self0 /\ GetException self = None
  | AtConfirm throwable new_ext =>
      throwable = GetException self0 /\ GetException self = None
      /\ installed = Some new_ext
  | AtReread throwable _ =>
      throwable = GetException self0 /\ GetException self = None
      /\ installed <> None
  | Returned (Some ret) =>
      installed = Some ret /\ GetException self = GetException self0
  | Returned None => GetException self = Some OutOfMemoryError
  | Aborted _ => False
  end.

(** Two callers, the first with a failure pending, on a class without a
    ClassExt and a heap with room for two objects. *)
Definition race_init : Sys :=
  sys_init (example_heap (example_class kStatusLoaded 0 None false) 2)
    [example_thread (Some (OtherThrowable 7)); example_thread None].

(** Both read the empty slot, both allocate, thread 0 wins the CAS. *)
Definition race_schedule : list nat := [0; 1; 0; 1; 0; 1; 1]%nat.

(** A runtime for the examples: interfaces [A] (0), [B extends A] (1) and [C]
    (2); [A] and [C] declare a default [f()V], [B] redeclares it abstract.
    Interface 3 extends [A] and [B], interface 4 extends [A], [C] and [B];
    5 is a class with the interface table of 3. *)
Definition method_f (default : bool) (declaring : ClassRef) : ArtMethod.t :=
  {| ArtMethod.GetName := str "f"; ArtMethod.GetSignature := str "()V";
     ArtMethod.IsDefault := default; ArtMethod.GetDeclaringClass := declaring |}.

Definition example_iface_class (interface : bool) (iftable : list ClassRef)
    (declared : list ArtMethod.t) : Class.t :=
  {| Class.status_ := 9; Class.super_class_ := None; Class.component_type_ := None;
     Class.class_loader_ := None; Class.dex_cache_ := None; Class.iftable_ := iftable;
     Class.ext_data_ := None; Class.sfields_ := None; Class.ifields_ := None;
     Class.virtual_methods_ := declared; Class.copied_methods_ := [];
     Class.class_size_ := 0; Class.object_size_ := 0;
     Class.object_size_alloc_fast_path_ := 0;
     Class.monitor_owner_ := 0; Class.interfaces_ := None;
     Class.interface_type_list_ := None; Class.IsInterface := interface;
     Class.IsProxyClass := false; Class.IsPrimitive := false;
     Class.IsFinalizable := false; Class.IsVariableSize := false |}.

Definition example_iface_rt : Runtime :=
  {| heap := fun k =>
       match k with
       | 0%nat => example_iface_class true [] [method_f true 0%nat]
       | 1%nat => example_iface_class true [0%nat] [method_f false 1%nat]
       | 2%nat => example_iface_class true [] [method_f true 2%nat]
       | 3%nat => example_iface_class true [0%nat; 1%nat] []
       | 4%nat => example_iface_class true [0%nat; 2%nat; 1%nat] []
       | _ => example_iface_class false [0%nat; 1%nat] []
       end;
     IsAssignableFrom := fun a b =>
       bool_decide (a = b)
       || bool_decide ((a, b) ∈ [(0, 1); (0, 3); (1, 3); (0, 4); (1, 4); (2, 4)]%nat);
     LookupClass := fun _ => None;
     LookupResolvedType := fun _ _ _ => None;
     GetDescriptorForProxy := fun _ => [];
     PrimitiveDescriptor := fun _ => [];
     DexTypeDescriptor := fun _ => [] |}.

(** The class.h side of the examples: a type is IdxLoaded from status [Idx]
    on, and no example holds java.lang.String. *)
Definition example_access : AccessDecls :=
  {| IsIdxLoaded := fun c => Class.GetStatus c >=? kStatusIdx;
     GetJavaLangString := None |}.

(** A runtime for the examples: the interface of [example_iface_rt] at 0,
    with its default [f()V], not yet loaded (status 0); every other reference
    holds the same interface, initialized. *)
Definition example_unloaded_rt : Runtime :=
  {| heap := fun k =>
       match k with
       | 0%nat => Class.set_status 0 (example_iface_class true [] [method_f true 0%nat])
       | _ => example_iface_class true [] [method_f true 0%nat]
       end;
     IsAssignableFrom := fun a b => bool_decide (a = b);
     LookupClass := fun _ => None;
     LookupResolvedType := fun _ _ _ => None;
     GetDescriptorForProxy := fun _ => [];
     PrimitiveDescriptor := fun _ => [];
     DexTypeDescriptor := fun _ => [] |}.

(** * The other lookups of class.cc *)

(** ** The iterations of the binary search (class.cc 721-738) *)

(** The [while (low < high)] loop of FindFieldByNameAndType once more, with
    its iterations counted: [OutOfFuel] when the loop has not ended after
    [fuel] iterations, so that a run that is cut short is told apart from one
    that finds nothing; a read of [fields->At(mid)] past the table is
    [OutOfBounds]. *)
Fixpoint bsearch_loop_bounded (fuel : nat) (fields : list ArtField.t)
    (name type : StringPiece.t) (low high : nat) : Res (option nat) :=
  if (low <? high)%nat then
    match fuel with
    | O => OutOfFuel
    | S fuel' =>
        let mid := ((low + high) / 2)%nat in
        match fields !! mid with
        | None => Fatal OutOfBounds
        | Some field =>
            let result := StringPiece.Compare (ArtField.GetName field) name in
            let result :=
              if result =? 0
              then StringPiece.Compare (ArtField.GetTypeDescriptor field) type
              else result in
            if result <? 0 then bsearch_loop_bounded fuel' fields name type (mid + 1)%nat high
            else if result >? 0 then bsearch_loop_bounded fuel' fields name type low mid
            else Ret (Some mid)
        end
    end
  else Ret None.

(** ** Fields by name and by dex index (class.cc 752-885) *)

(** The [for (ArtField& field : ...)] loops that compare the dex field
    index; the result is the index of the field in the array. *)
Fixpoint dex_field_loop (idx : nat) (fields : list ArtField.t) (dex_field_idx : Z)
    : option nat :=
  match fields with
  | [] => None
  | field :: rest =>
      if ArtField.GetDexFieldIndex field =? dex_field_idx then Some idx
      else dex_field_loop (S idx) rest dex_field_idx
  end.

(** [GetIFields()] and [GetSFields()]: the range over a null array is
    empty. *)
Definition GetIFields (c : Class.t) : list ArtField.t :=
  match Class.ifields_ c with Some l => l | None => [] end.
Definition GetSFields (c : Class.t) : list ArtField.t :=
  match Class.sfields_ c with Some l => l | None => [] end.

Section FieldLookup.
Context (rt : Runtime).

Definition FindDeclaredInstanceField_dex (this : ClassRef) (dex_cache : option DexCacheRef)
    (dex_field_idx : Z) : option FieldPtr :=
  if bool_decide (Class.dex_cache_ (heap rt this) = dex_cache)
  then option_map (Build_FieldPtr this false)
         (dex_field_loop 0 (GetIFields (heap rt this)) dex_field_idx)
  else None.

Definition FindDeclaredStaticField_dex (this : ClassRef) (dex_cache : option DexCacheRef)
    (dex_field_idx : Z) : option FieldPtr :=
  if bool_decide (dex_cache = Class.dex_cache_ (heap rt this))
  then option_map (Build_FieldPtr this true)
         (dex_field_loop 0 (GetSFields (heap rt this)) dex_field_idx)
  else None.

(** FindInstanceField by name: the loop up the superclass chain; [fuel]
    bounds its length. *)
Fixpoint FindInstanceField (fuel : nat) (kIsDebugBuild : bool) (c : option ClassRef)
    (name type : StringPiece.t) : Res (option FieldPtr) :=
  match c with
  | None => Ret None
  | Some k =>
      match fuel with
      | O => OutOfFuel
      | S fuel' =>
          f <-- FindDeclaredInstanceField rt kIsDebugBuild k name type;;
          match f with
          | Some f => Ret (Some f)
          | None =>
              FindInstanceField fuel' kIsDebugBuild (Class.GetSuperClass (heap rt k)) name type
          end
      end
  end.

(** FindInstanceField by dex index. *)
Fixpoint FindInstanceField_dex (fuel : nat) (c : option ClassRef)
    (dex_cache : option DexCacheRef) (dex_field_idx : Z) : Res (option FieldPtr) :=
  match c with
  | None => Ret None
  | Some k =>
      match fuel with
      | O => OutOfFuel
      | S fuel' =>
          match FindDeclaredInstanceField_dex k dex_cache dex_field_idx with
          | Some f => Ret (Some f)
          | None =>
              FindInstanceField_dex fuel' (Class.GetSuperClass (heap rt k))
                dex_cache dex_field_idx
          end
      end
  end.

(** FindStaticField by dex index; the walk is the one of the lookup by
    name. *)
Fixpoint FindStaticField_dex (fuel : nat) (kIsDebugBuild : bool) (klass : option ClassRef)
    (dex_cache : option DexCacheRef) (dex_field_idx : Z) : Res (option FieldPtr) :=
  match klass with
  | None => Ret None
  | Some k =>
      match fuel with
      | O => OutOfFuel
      | S fuel' =>
          match FindDeclaredStaticField_dex k dex_cache dex_field_idx with
          | Some f => Ret (Some f)
          | None =>
              f <-- interfaces_loop rt
                      (fun interface =>
                         FindStaticField_dex fuel' kIsDebugBuild interface
                           dex_cache dex_field_idx)
                      kIsDebugBuild k 0%nat (NumDirectInterfaces (heap rt k));;
              match f with
              | Some f => Ret (Some f)
              | None =>
                  FindStaticField_dex fuel' kIsDebugBuild (Class.GetSuperClass (heap rt k))
                    dex_cache dex_field_idx
              end
          end
      end
  end.

(** FindField: at each level the declared instance fields, the declared
    static fields, then the direct interfaces through FindStaticField. *)
Fixpoint FindField (fuel : nat) (kIsDebugBuild : bool) (klass : option ClassRef)
    (name type : StringPiece.t) : Res (option FieldPtr) :=
  match klass with
  | None => Ret None
  | Some k =>
      match fuel with
      | O => OutOfFuel
      | S fuel' =>
          f <-- FindDeclaredInstanceField rt kIsDebugBuild k name type;;
          match f with
          | Some f => Ret (Some f)
          | None =>
              f <-- FindDeclaredStaticField rt kIsDebugBuild k name type;;
              match f with
              | Some f => Ret (Some f)
              | None =>
                  f <-- interfaces_loop rt
                          (fun interface =>
                             FindStaticField rt fuel' kIsDebugBuild interface name type)
                          kIsDebugBuild k 0%nat (NumDirectInterfaces (heap rt k));;
                  match f with
                  | Some f => Ret (Some f)
                  | None =>
                      FindField fuel' kIsDebugBuild (Class.GetSuperClass (heap rt k)) name type
                  end
              end
          end
      end
  end.

(** The superclass chain from [c], as far as [fuel] reaches. *)
Fixpoint super_chain (fuel : nat) (c : option ClassRef) : list ClassRef :=
  match c, fuel with
  | None, _ => []
  | Some _, O => []
  | Some k, S fuel' => k :: super_chain fuel' (Class.GetSuperClass (heap rt k))
  end.

(** The declared instance field of [k] with the given name and type. *)
Definition declared_instance (k : ClassRef) (name type : StringPiece.t) : option FieldPtr :=
  match Class.ifields_ (heap rt k) with
  | Some fields => option_map (Build_FieldPtr k false) (binary_search fields name type)
  | None => None
  end.

(** The first hit of a lookup [look] along a list of types. *)
Fixpoint first_some {A} (look : ClassRef -> option A) (order : list ClassRef) : option A :=
  match order with
  | [] => None
  | k :: rest =>
      match look k with
      | Some a => Some a
      | None => first_some look rest
      end
  end.

(** The field a pointer points to. *)
Definition deref_field (p : FieldPtr) : option ArtField.t :=
  (if fp_static p then GetSFields (heap rt (fp_owner p)) else GetIFields (heap rt (fp_owner p)))
    !! fp_index p.

End FieldLookup.

(** A runtime for the examples: class 0 extends class 1; class 1, of dex
    cache 4, declares the instance field [x : I] with dex index 0. *)
Definition example_instance_class (super : option ClassRef) (dex_cache : option DexCacheRef)
    (ifields : option (list ArtField.t)) : Class.t :=
  {| Class.status_ := 9; Class.super_class_ := super; Class.component_type_ := None;
     Class.class_loader_ := None; Class.dex_cache_ := dex_cache; Class.iftable_ := [];
     Class.ext_data_ := None; Class.sfields_ := None; Class.ifields_ := ifields;
     Class.virtual_methods_ := []; Class.copied_methods_ := [];
     Class.class_size_ := 0; Class.object_size_ := 0;
     Class.object_size_alloc_fast_path_ := 0;
     Class.monitor_owner_ := 0; Class.interfaces_ := None;
     Class.interface_type_list_ := None; Class.IsInterface := false;
     Class.IsProxyClass := false; Class.IsPrimitive := false;
     Class.IsFinalizable := false; Class.IsVariableSize := false |}.

Definition example_instance_rt : Runtime :=
  {| heap := fun k =>
       match k with
       | 0%nat => example_instance_class (Some 1%nat) (Some 3%nat) (Some [])
       | _ => example_instance_class None (Some 4%nat) (Some [field_x])
       end;
     IsAssignableFrom := fun a b => bool_decide (a = b) || bool_decide (a = 1%nat);
     LookupClass := fun _ => None;
     LookupResolvedType := fun _ _ _ => None;
     GetDescriptorForProxy := fun _ => [];
     PrimitiveDescriptor := fun _ => [];
     DexTypeDescriptor := fun _ => [] |}.

(** ** Method lookups (class.cc 403-632) *)

(** The lookups by name and signature come in two overloads, for a
    signature given as a StringPiece and as a [Signature]; the two bodies are
    the same, and one definition stands for both. *)

Section MethodLookup.
Context (rt : Runtime).
(** The parts of art_method.h and class.h the lookups use and that are not
    part of the sources: the interface method a proxy method stands for, the
    dex method index, and the direct methods of a class. *)
Context (GetInterfaceMethodIfProxy : ArtMethod.t -> ArtMethod.t).
Context (GetDexMethodIndex : ArtMethod.t -> Z).
Context (GetDirectMethods : ClassRef -> list ArtMethod.t).

(** [for (auto& method : GetDirectMethods(pointer_size))] *)
Fixpoint direct_loop (name signature : StringPiece.t) (methods : list ArtMethod.t)
    : option ArtMethod.t :=
  match methods with
  | [] => None
  | method :: rest =>
      if StringPiece.eqb name (ArtMethod.GetName method)
         && StringPiece.eqb (ArtMethod.GetSignature method) signature
      then Some method
      else direct_loop name signature rest
  end.

Definition FindDeclaredDirectMethod (this : ClassRef) (name signature : StringPiece.t)
    : option ArtMethod.t :=
  direct_loop name signature (GetDirectMethods this).

(** The loop of the lookups by dex method index. *)
Fixpoint dex_method_loop (dex_method_idx : Z) (methods : list ArtMethod.t)
    : option ArtMethod.t :=
  match methods with
  | [] => None
  | method :: rest =>
      if GetDexMethodIndex method =? dex_method_idx then Some method
      else dex_method_loop dex_method_idx rest
  end.

Definition FindDeclaredDirectMethod_dex (this : ClassRef) (dex_cache : option DexCacheRef)
    (dex_method_idx : Z) : option ArtMethod.t :=
  if bool_decide (Class.dex_cache_ (heap rt this) = dex_cache)
  then dex_method_loop dex_method_idx (GetDirectMethods this)
  else None.

(** [for (klass = this; klass != nullptr; klass = klass->GetSuperClass())];
    [fuel] bounds the length of the chain. *)
Fixpoint FindDirectMethod (fuel : nat) (klass : option ClassRef)
    (name signature : StringPiece.t) : Res (option ArtMethod.t) :=
  match klass with
  | None => Ret None
  | Some k =>
      match fuel with
      | O => OutOfFuel
      | S fuel' =>
          match FindDeclaredDirectMethod k name signature with
          | Some method => Ret (Some method)
          | None => FindDirectMethod fuel' (Class.GetSuperClass (heap rt k)) name signature
          end
      end
  end.

Fixpoint FindDirectMethod_dex (fuel : nat) (klass : option ClassRef)
    (dex_cache : option DexCacheRef) (dex_method_idx : Z) : Res (option ArtMethod.t) :=
  match klass with
  | None => Ret None
  | Some k =>
      match fuel with
      | O => OutOfFuel
      | S fuel' =>
          match FindDeclaredDirectMethod_dex k dex_cache dex_method_idx with
          | Some method => Ret (Some method)
          | None =>
              FindDirectMethod_dex fuel' (Class.GetSuperClass (heap rt k))
                dex_cache dex_method_idx
          end
      end
  end.

(** [for (auto& method : GetVirtualMethods(pointer_size))]: the name and the
    signature compared are those of [np_method]. *)
Fixpoint virtual_loop (name signature : StringPiece.t) (methods : list ArtMethod.t)
    : option ArtMethod.t :=
  match methods with
  | [] => None
  | method :: rest =>
      let np_method := GetInterfaceMethodIfProxy method in
      if StringPiece.eqb name (ArtMethod.GetName np_method)
         && StringPiece.eqb (ArtMethod.GetSignature np_method) signature
      then Some method
      else virtual_loop name signature rest
  end.

Definition FindDeclaredVirtualMethod (this : ClassRef) (name signature : StringPiece.t)
    : option ArtMethod.t :=
  virtual_loop name signature (Class.GetVirtualMethods (heap rt this)).

Definition FindDeclaredVirtualMethod_dex (this : ClassRef) (dex_cache : option DexCacheRef)
    (dex_method_idx : Z) : option ArtMethod.t :=
  if bool_decide (Class.dex_cache_ (heap rt this) = dex_cache)
  then dex_method_loop dex_method_idx (Class.GetDeclaredVirtualMethods (heap rt this))
  else None.

(** FindDeclaredDirectMethodByName and FindDeclaredVirtualMethodByName share
    their loop. *)
Fixpoint by_name_loop (name : StringPiece.t) (methods : list ArtMethod.t)
    : option ArtMethod.t :=
  match methods with
  | [] => None
  | method :: rest =>
      let np_method := GetInterfaceMethodIfProxy method in
      if StringPiece.eqb name (ArtMethod.GetName np_method) then Some method
      else by_name_loop name rest
  end.

Definition FindDeclaredDirectMethodByName (this : ClassRef) (name : StringPiece.t)
    : option ArtMethod.t :=
  by_name_loop name (GetDirectMethods this).

Definition FindDeclaredVirtualMethodByName (this : ClassRef) (name : StringPiece.t)
    : option ArtMethod.t :=
  by_name_loop name (Class.GetVirtualMethods (heap rt this)).

Fixpoint FindVirtualMethod (fuel : nat) (klass : option ClassRef)
    (name signature : StringPiece.t) : Res (option ArtMethod.t) :=
  match klass with
  | None => Ret None
  | Some k =>
      match fuel with
      | O => OutOfFuel
      | S fuel' =>
          match FindDeclaredVirtualMethod k name signature with
          | Some method => Ret (Some method)
          | None => FindVirtualMethod fuel' (Class.GetSuperClass (heap rt k)) name signature
          end
      end
  end.

Fixpoint FindVirtualMethod_dex (fuel : nat) (klass : option ClassRef)
    (dex_cache : option DexCacheRef) (dex_method_idx : Z) : Res (option ArtMethod.t) :=
  match klass with
  | None => Ret None
  | Some k =>
      match fuel with
      | O => OutOfFuel
      | S fuel' =>
          match FindDeclaredVirtualMethod_dex k dex_cache dex_method_idx with
          | Some method => Ret (Some method)
          | None =>
              FindVirtualMethod_dex fuel' (Class.GetSuperClass (heap rt k))
                dex_cache dex_method_idx
          end
      end
  end.

(** [for (int32_t i = 0; i < iftable_count; ++i)], from index [i] with [n]
    entries to go; [look] is the lookup made in each interface.  [i] never
    reaches past the table, so the [None] branch is dead. *)
Fixpoint interface_method_loop (look : ClassRef -> option ArtMethod.t)
    (iftable : list ClassRef) (i n : nat) : option ArtMethod.t :=
  match n with
  | O => None
  | S n' =>
      match iftable !! i with
      | None => None
      | Some iface =>
          match look iface with
          | Some method => Some method
          | None => interface_method_loop look iftable (S i) n'
          end
      end
  end.

Definition FindInterfaceMethod (this : ClassRef) (name signature : StringPiece.t)
    : option ArtMethod.t :=
  match FindDeclaredVirtualMethod this name signature with
  | Some method => Some method
  | None =>
      let iftable_count := Class.GetIfTableCount (heap rt this) in
      let iftable := Class.GetIfTable (heap rt this) in
      interface_method_loop (fun iface => FindDeclaredVirtualMethod iface name signature)
        iftable 0%nat iftable_count
  end.

Definition FindInterfaceMethod_dex (this : ClassRef) (dex_cache : option DexCacheRef)
    (dex_method_idx : Z) : option ArtMethod.t :=
  match FindDeclaredVirtualMethod_dex this dex_cache dex_method_idx with
  | Some method => Some method
  | None =>
      let iftable_count := Class.GetIfTableCount (heap rt this) in
      let iftable := Class.GetIfTable (heap rt this) in
      interface_method_loop
        (fun iface => FindDeclaredVirtualMethod_dex iface dex_cache dex_method_idx)
        iftable 0%nat iftable_count
  end.

End MethodLookup.

(** ** GetCommonSuperClass and Depth (class.cc 974-985, 1138-1144) *)

(** What GetCommonSuperClass comes to: a class, or, in a build without
    DCHECKs, the call of IsAssignableFrom through the null superclass of the
    root of the chain. *)
Inductive Common : Set :=
  | CommonSuper (common_super_class : ClassRef)
  | NullDereference.

Section CommonSuperClass.
Context (rt : Runtime) (d : ClassDecls) (ad : AccessDecls) (kIsDebugBuild : bool).

(** [while (!common_super_class->IsAssignableFrom(klass.Get()))]; [fuel]
    bounds the steps up the chain. *)
Fixpoint common_loop (fuel : nat) (klass common_super_class : ClassRef) : Res Common :=
  if IsAssignableFrom rt common_super_class klass then Ret (CommonSuper common_super_class)
  else
    match fuel with
    | O => OutOfFuel
    | S fuel' =>
        let old_common := common_super_class in
        match Class.GetSuperClass (heap rt old_common) with
        | None =>
            _ <-- DCHECK kIsDebugBuild false;;
            Ret NullDereference
        | Some common_super_class => common_loop fuel' klass common_super_class
        end
    end.

(** [klass] is a reference, so [DCHECK(klass.Get() != nullptr)] holds; the
    two other DCHECKs call IsInterface. *)
Definition GetCommonSuperClass (fuel : nat) (this klass : ClassRef) : Res Common :=
  is_interface <-- IsInterface rt d ad kIsDebugBuild klass;;
  _ <-- DCHECK kIsDebugBuild (negb is_interface);;
  is_interface <-- IsInterface rt d ad kIsDebugBuild this;;
  _ <-- DCHECK kIsDebugBuild (negb is_interface);;
  common_loop fuel klass this.

(** [depth] is a [uint32_t]. *)
Fixpoint depth_loop (fuel : nat) (klass : ClassRef) (depth : Z) : Res Z :=
  match Class.GetSuperClass (heap rt klass) with
  | None => Ret depth
  | Some super =>
      match fuel with
      | O => OutOfFuel
      | S fuel' => depth_loop fuel' super ((depth + 1) mod 2 ^ 32)
      end
  end.

Definition Depth (fuel : nat) (this : ClassRef) : Res Z := depth_loop fuel this 0.

End CommonSuperClass.

(** ** Progress of a caller of EnsureExtDataPresent *)

(** The shared accesses a caller at [pc] has at most before it. *)
Definition pc_rank (pc : Pc) : nat :=
  match pc with
  | AtEntry => 4
  | AtAlloc _ => 3
  | AtCas _ _ => 2
  | AtConfirm _ _ | AtReread _ _ => 1
  | Returned _ | Aborted _ => 0
  end.

(** How often thread [i] is scheduled in [schedule]. *)
Definition turns (i : nat) (schedule : list nat) : nat :=
  length (List.filter (Nat.eqb i) schedule).

(** The methods with the name and the signature of [method] that the
    interface-super lookup on [this] can see: the virtual methods of [this]
    and the declared virtual methods of the interfaces of its table. *)
Definition visible_match (rt : Runtime) (this : ClassRef) (method m : ArtMethod.t) : Prop :=
  HasSameNameAndSignature m method = true
  /\ (In m (Class.GetVirtualMethods (heap rt this))
      \/ exists iface, In iface (Class.GetIfTable (heap rt this))
                       /\ In m (Class.GetDeclaredVirtualMethods (heap rt iface))).

(** A runtime for the examples: class 0, of dex cache 3, extends class 1 and
    has the copied method [g()V]; class 1, of dex cache 4, declares the
    virtual method [f()V] and has the direct method [<init>()V]. *)
Definition method_named (name : string) (declaring : ClassRef) : ArtMethod.t :=
  {| ArtMethod.GetName := str name; ArtMethod.GetSignature := str "()V";
     ArtMethod.IsDefault := false; ArtMethod.GetDeclaringClass := declaring |}.

Definition example_method_class (super : option ClassRef) (dex_cache : option DexCacheRef)
    (declared copied : list ArtMethod.t) : Class.t :=
  {| Class.status_ := 9; Class.super_class_ := super; Class.component_type_ := None;
     Class.class_loader_ := None; Class.dex_cache_ := dex_cache; Class.iftable_ := [];
     Class.ext_data_ := None; Class.sfields_ := None; Class.ifields_ := None;
     Class.virtual_methods_ := declared; Class.copied_methods_ := copied;
     Class.class_size_ := 0; Class.object_size_ := 0;
     Class.object_size_alloc_fast_path_ := 0;
     Class.monitor_owner_ := 0; Class.interfaces_ := None;
     Class.interface_type_list_ := None; Class.IsInterface := false;
     Class.IsProxyClass := false; Class.IsPrimitive := false;
     Class.IsFinalizable := false; Class.IsVariableSize := false |}.

Definition example_method_rt : Runtime :=
  {| heap := fun k =>
       match k with
       | 0%nat => example_method_class (Some 1%nat) (Some 3%nat) [] [method_named "g" 2%nat]
       | _ => example_method_class None (Some 4%nat) [method_named "f" 1%nat] []
       end;
     IsAssignableFrom := fun a b => bool_decide (a = b) || bool_decide (a = 1%nat);
     LookupClass := fun _ => None;
     LookupResolvedType := fun _ _ _ => None;
     GetDescriptorForProxy := fun _ => [];
     PrimitiveDescriptor := fun _ => [];
     DexTypeDescriptor := fun _ => [] |}.

Definition example_direct_methods (k : ClassRef) : list ArtMethod.t :=
  match k with
  | 1%nat => [method_named "<init>" 1%nat]
  | _ => []
  end.

Definition example_dex_method_index (m : ArtMethod.t) : Z :=
  Z.of_nat (length (ArtMethod.GetName m)).

(** ** FindClassInitializer (class.cc 699-708) *)

Section ClassInitializer.
(** [IsClassInitializer] is declared in art_method.h and the direct methods of
    a class in class.h; neither is part of the sources. *)
Context (IsClassInitializer : ArtMethod.t -> bool).
Context (GetDirectMethods : ClassRef -> list ArtMethod.t).

Fixpoint class_initializer_loop (kIsDebugBuild : bool) (methods : list ArtMethod.t)
    : Res (option ArtMethod.t) :=
  match methods with
  | [] => Ret None
  | method :: rest =>
      if IsClassInitializer method then
        _ <-- DCHECK kIsDebugBuild (StringPiece.eqb (ArtMethod.GetName method) (str "<clinit>"));;
        _ <-- DCHECK kIsDebugBuild (StringPiece.eqb (ArtMethod.GetSignature method) (str "()V"));;
        Ret (Some method)
      else class_initializer_loop kIsDebugBuild rest
  end.

Definition FindClassInitializer (kIsDebugBuild : bool) (this : ClassRef)
    : Res (option ArtMethod.t) :=
  class_initializer_loop kIsDebugBuild (GetDirectMethods this).

End ClassInitializer.

(** * Properties *)

Lemma byte_inj x y : StringPiece.byte x = StringPiece.byte y -> x = y.
Proof.
  unfold StringPiece.byte. intros H. apply N2Z.inj in H.
  rewrite <- (ascii_N_embedding x), <- (ascii_N_embedding y). now rewrite H.
Qed.

Lemma Compare_lex a b : StringPiece.Compare a b = sign (lex a b).
Proof.
  unfold StringPiece.Compare.
  revert b. induction a as [|x a IH]; intros [|y b]; simpl; try reflexivity.
  specialize (IH b).
  destruct (Z.compare_spec (StringPiece.byte x) (StringPiece.byte y)) as [E|L|G].
  - rewrite E, Z.ltb_irrefl. exact IH.
  - apply Z.ltb_lt in L. now rewrite L.
  - assert ((StringPiece.byte x <? StringPiece.byte y) = false) as -> by (apply Z.ltb_ge; lia).
    apply Z.ltb_lt in G. now rewrite G.
Qed.

Lemma lex_eq a b : lex a b = Eq <-> a = b.
Proof.
  revert b. induction a as [|x a IH]; intros [|y b]; simpl; split; try congruence; try easy.
  - destruct (Z.compare_spec (StringPiece.byte x) (StringPiece.byte y)) as [E|L|G]; try easy.
    intros H. apply IH in H. apply byte_inj in E. congruence.
  - intros [= -> ->]. rewrite Z.compare_refl. now apply IH.
Qed.

Lemma lex_antisym a b : lex b a = CompOpp (lex a b).
Proof.
  revert b. induction a as [|x a IH]; intros [|y b]; simpl; try reflexivity.
  rewrite (Z.compare_antisym (StringPiece.byte x)).
  destruct (Z.compare (StringPiece.byte x) (StringPiece.byte y)); simpl; auto.
Qed.

Lemma lex_trans a b c : lex a b = Lt -> lex b c = Lt -> lex a c = Lt.
Proof.
  revert b c. induction a as [|x a IH]; intros [|y b] [|z c]; simpl; try easy.
  destruct (Z.compare_spec (StringPiece.byte x) (StringPiece.byte y)) as [E|L|G];
    destruct (Z.compare_spec (StringPiece.byte y) (StringPiece.byte z)) as [E'|L'|G'];
    try easy; intros H1 H2.
  - rewrite E, E', Z.compare_refl. eauto.
  - assert (StringPiece.byte x < StringPiece.byte z) as ->%Z.compare_lt_iff by lia. reflexivity.
  - assert (StringPiece.byte x < StringPiece.byte z) as ->%Z.compare_lt_iff by lia. reflexivity.
  - assert (StringPiece.byte x < StringPiece.byte z) as ->%Z.compare_lt_iff by lia. reflexivity.
Qed.

(** ** FindFieldByNameAndType *)

Lemma key_cmp_eq a b : key_cmp a b = Eq <-> a = b.
Proof.
  destruct a as [n1 t1], b as [n2 t2]. unfold key_cmp. simpl. split.
  - destruct (lex n1 n2) eqn:E; try discriminate.
    intros H. apply lex_eq in E, H. congruence.
  - intros [= -> ->]. rewrite (proj2 (lex_eq n2 n2) eq_refl). now apply lex_eq.
Qed.

Lemma key_cmp_antisym a b : key_cmp b a = CompOpp (key_cmp a b).
Proof.
  unfold key_cmp. rewrite (lex_antisym a.1 b.1), (lex_antisym a.2 b.2).
  destruct (lex a.1 b.1); reflexivity.
Qed.

Lemma key_cmp_trans a b c : key_cmp a b = Lt -> key_cmp b c = Lt -> key_cmp a c = Lt.
Proof.
  unfold key_cmp.
  destruct (lex a.1 b.1) eqn:E1; try discriminate;
    destruct (lex b.1 c.1) eqn:E2; try discriminate; intros H1 H2.
  - apply lex_eq in E1, E2. rewrite E1, E2, (proj2 (lex_eq c.1 c.1) eq_refl).
    eapply lex_trans; eauto.
  - apply lex_eq in E1. rewrite E1, E2. reflexivity.
  - apply lex_eq in E2. rewrite <- E2, E1. reflexivity.
  - rewrite (lex_trans _ _ _ E1 E2). reflexivity.
Qed.

(** The comparison the loop computes is the order of the keys. *)
Lemma loop_result_sign (field : ArtField.t) name type :
  (let result := StringPiece.Compare (ArtField.GetName field) name in
   if result =? 0 then StringPiece.Compare (ArtField.GetTypeDescriptor field) type
   else result) = sign (key_cmp (key_of field) (name, type)).
Proof.
  cbv zeta. rewrite !Compare_lex. unfold key_cmp, key_of. simpl.
  destruct (lex (ArtField.GetName field) name); reflexivity.
Qed.

Lemma strictly_ascending_lookup fields i j a b :
  strictly_ascending fields = true -> (i < j)%nat ->
  fields !! i = Some a -> fields !! j = Some b ->
  key_cmp (key_of a) (key_of b) = Lt.
Proof.
  revert i j a b. induction fields as [|x l IH]; intros i j a b Hs Hij Ha Hb.
  - discriminate.
  - assert (Hl : strictly_ascending l = true).
    { destruct l; [reflexivity|]. simpl in Hs. now apply andb_prop in Hs as [_ ?]. }
    assert (Hx : forall k c, l !! k = Some c -> key_cmp (key_of x) (key_of c) = Lt).
    { clear -Hs IH Hl. intros k. destruct l as [|y l']; intros c Hc; [discriminate|].
      simpl in Hs. apply andb_prop in Hs as [Hxy _]. apply bool_decide_eq_true in Hxy.
      destruct k as [|k].
      - simpl in Hc. congruence.
      - eapply key_cmp_trans; [exact Hxy|].
        eapply (IH 0%nat (S k)); eauto. lia. }
    destruct i as [|i], j as [|j]; try lia; simpl in Ha, Hb.
    + injection Ha as <-. eauto.
    + eapply (IH i j); eauto. lia.
Qed.

Lemma linear_scan_from_found fields name type k m f :
  fields !! m = Some f -> key_of f = (name, type) ->
  (forall j g, (j < m)%nat -> fields !! j = Some g -> key_of g <> (name, type)) ->
  linear_scan_from k fields name type = Some (k + m)%nat.
Proof.
  revert k m. induction fields as [|x l IH]; intros k m Hm Hk Hbefore; [discriminate|].
  simpl. destruct m as [|m]; simpl in Hm.
  - injection Hm as ->. unfold key_of in Hk. injection Hk as -> ->.
    unfold StringPiece.eqb. rewrite !bool_decide_eq_true_2 by reflexivity. simpl.
    f_equal. lia.
  - assert (Hx : key_of x <> (name, type)) by (apply (Hbefore 0%nat); [lia|reflexivity]).
    destruct (StringPiece.eqb name (ArtField.GetName x)
              && StringPiece.eqb type (ArtField.GetTypeDescriptor x)) eqn:E.
    + apply andb_prop in E as [E1 E2]. apply bool_decide_eq_true in E1, E2.
      exfalso. apply Hx. unfold key_of. congruence.
    + rewrite (IH (S k) m Hm Hk).
      * f_equal. lia.
      * intros j g Hj Hg. apply (Hbefore (S j)); [lia|exact Hg].
Qed.

Lemma linear_scan_from_none fields name type k :
  (forall j g, fields !! j = Some g -> key_of g <> (name, type)) ->
  linear_scan_from k fields name type = None.
Proof.
  revert k. induction fields as [|x l IH]; intros k H; [reflexivity|].
  simpl.
  destruct (StringPiece.eqb name (ArtField.GetName x)
            && StringPiece.eqb type (ArtField.GetTypeDescriptor x)) eqn:E.
  - apply andb_prop in E as [E1 E2]. apply bool_decide_eq_true in E1, E2.
    exfalso. apply (H 0%nat x); [reflexivity|]. unfold key_of. congruence.
  - apply IH. intros j g Hg. apply (H (S j)). exact Hg.
Qed.

Lemma mid_bounds low high : (low < high -> low <= (low + high) / 2 < high)%nat.
Proof.
  intros H. split.
  - apply Nat.div_le_lower_bound; lia.
  - apply Nat.Div0.div_lt_upper_bound; lia.
Qed.

(** The invariant of the binary search: the key lies neither below [low] nor
    at or above [high]. *)
Lemma bsearch_loop_correct fields name type : strictly_ascending fields = true ->
  forall fuel low high,
  (high <= length fields)%nat -> (high - low <= fuel)%nat ->
  (forall i f, (i < low)%nat -> fields !! i = Some f ->
               key_cmp (key_of f) (name, type) = Lt) ->
  (forall i f, (high <= i)%nat -> fields !! i = Some f ->
               key_cmp (key_of f) (name, type) = Gt) ->
  bsearch_loop fuel fields name type low high = linear_scan fields name type.
Proof.
  intros Hs. 
  assert (Hnone : forall low high, (high <= low)%nat ->
    (forall i f, (i < low)%nat -> fields !! i = Some f ->
               key_cmp (key_of f) (name, type) = Lt) ->
    (forall i f, (high <= i)%nat -> fields !! i = Some f ->
               key_cmp (key_of f) (name, type) = Gt) ->
    None = linear_scan fields name type).
  { intros low high Hle Hlo Hhi. symmetry. apply linear_scan_from_none.
    intros j g Hg Hk. destruct (Nat.lt_ge_cases j low) as [Hj|Hj].
    - specialize (Hlo j g Hj Hg). rewrite Hk in Hlo.
      rewrite (proj2 (key_cmp_eq _ _) eq_refl) in Hlo. discriminate.
    - assert (Hj' : (high <= j)%nat) by lia.
      specialize (Hhi j g Hj' Hg). rewrite Hk in Hhi.
      rewrite (proj2 (key_cmp_eq _ _) eq_refl) in Hhi. discriminate. }
  induction fuel as [|fuel IH]; intros low high Hlen Hfuel Hlo Hhi.
  - simpl. apply (Hnone low high); auto. lia.
  - cbn [bsearch_loop]. destruct (low <? high)%nat eqn:Hlt.
    2:{ apply Nat.ltb_ge in Hlt. eapply Hnone; eauto. }
    apply Nat.ltb_lt in Hlt. cbv zeta.
    set (mid := ((low + high) / 2)%nat).
    assert (Hmid : (low <= mid < high)%nat) by (subst mid; now apply mid_bounds).
    destruct (fields !! mid) as [field|] eqn:Hf.
    2:{ apply lookup_ge_None in Hf. lia. }
    pose proof (loop_result_sign field name type) as Hsign. cbv zeta in Hsign.
    rewrite Hsign. clear Hsign.
    destruct (key_cmp (key_of field) (name, type)) eqn:Hc; simpl.
    + apply key_cmp_eq in Hc. unfold linear_scan.
      rewrite (linear_scan_from_found fields name type 0 mid field Hf Hc); [reflexivity|].
      intros j g Hj Hg Hk.
      pose proof (strictly_ascending_lookup fields j mid g field Hs Hj Hg Hf) as Hlt'.
      rewrite Hk, Hc in Hlt'. rewrite (proj2 (key_cmp_eq _ _) eq_refl) in Hlt'. discriminate.
    + apply IH; auto; [lia|].
      intros i f Hi Hif.
      destruct (Nat.eq_dec i mid) as [->|Hne]; [congruence|].
      assert (Hi' : (i < mid)%nat) by lia.
      eapply key_cmp_trans; [|exact Hc].
      eapply strictly_ascending_lookup; eauto.
    + apply IH; auto; [lia|lia|].
      intros i f Hi Hif.
      destruct (Nat.eq_dec i mid) as [->|Hne]; [congruence|].
      assert (Hi' : (mid < i)%nat) by lia.
      pose proof (strictly_ascending_lookup fields mid i field f Hs Hi' Hf Hif) as Hlt'.
      rewrite key_cmp_antisym.
      assert (Hq : key_cmp (name, type) (key_of field) = Lt).
      { rewrite key_cmp_antisym, Hc. reflexivity. }
      rewrite (key_cmp_trans _ _ _ Hq Hlt'). reflexivity.
Qed.

(** The fuel handed to the loop by [binary_search] is never what stops it:
    any larger amount gives the same answer. *)
Lemma bsearch_loop_fuel fields name type : forall fuel fuel' low high,
  (high - low <= fuel)%nat -> (high - low <= fuel')%nat ->
  bsearch_loop fuel fields name type low high = bsearch_loop fuel' fields name type low high.
Proof.
  induction fuel as [|fuel IH]; intros fuel' low high H H'.
  - destruct fuel'; simpl; [reflexivity|].
    assert ((low <? high)%nat = false) as -> by (apply Nat.ltb_ge; lia). reflexivity.
  - destruct fuel' as [|fuel'].
    + simpl. assert ((low <? high)%nat = false) as -> by (apply Nat.ltb_ge; lia). reflexivity.
    + cbn [bsearch_loop]. destruct (low <? high)%nat eqn:Hlt; [|reflexivity].
      apply Nat.ltb_lt in Hlt. cbv zeta.
      pose proof (mid_bounds low high Hlt) as Hmid.
      destruct (fields !! ((low + high) / 2)%nat); [|reflexivity].
      repeat match goal with |- context [if ?b then _ else _] => destruct b end;
        try reflexivity; apply IH; lia.
Qed.

(** C4, as amended: on a field table in strictly ascending (name, type) order
    the binary search of FindFieldByNameAndType returns, for every query key,
    what the exhaustive linear scan returns (the index of the match, or none),
    in debug builds too, where the two are compared; a null table gives
    none. *)
Theorem FindFieldByNameAndType_is_linear_scan
    (kIsDebugBuild : bool) (fields : option (list ArtField.t)) (name type : StringPiece.t) :
  (forall l, fields = Some l -> strictly_ascending l = true) ->
  FindFieldByNameAndType kIsDebugBuild fields name type
  = Ret (match fields with
         | Some l => linear_scan l name type
         | None => None
         end)
  /\ (forall l, fields = Some l -> binary_search l name type = linear_scan l name type).
Proof.
  intros Hs.
  assert (Hb : forall l, fields = Some l -> binary_search l name type = linear_scan l name type).
  { intros l Hl. unfold binary_search.
    apply bsearch_loop_correct; auto; try lia.
    intros i f Hi Hf. apply lookup_lt_Some in Hf. lia. }
  split; [|exact Hb].
  destruct fields as [l|]; [|reflexivity].
  unfold FindFieldByNameAndType. rewrite (Hb l eq_refl).
  destruct kIsDebugBuild; simpl; [|reflexivity].
  rewrite bool_decide_eq_true_2 by reflexivity. reflexivity.
Qed.

Lemma FindFieldByNameAndType_is_linear_scan_witness :
  strictly_ascending three_fields = true
  /\ FindFieldByNameAndType true (Some three_fields) (str "a") (str "J") = Ret (Some 1%nat).
Proof.
  split; [reflexivity|].
  refine (proj1 (FindFieldByNameAndType_is_linear_scan true (Some three_fields)
                   (str "a") (str "J") _)).
  intros l [= <-]. reflexivity.
Defined.

(** C4, as stated, fails on a table that is in ascending order but holds two
    entries with the same name and type: the binary search returns the second
    one, the linear scan the first, and a debug build aborts on the
    difference. *)
Lemma FindFieldByNameAndType_twins_differ :
  ascending twin_fields = true
  /\ binary_search twin_fields (str "a") (str "I") = Some 1%nat
  /\ linear_scan twin_fields (str "a") (str "I") = Some 0%nat
  /\ FindFieldByNameAndType false (Some twin_fields) (str "a") (str "I") = Ret (Some 1%nat)
  /\ FindFieldByNameAndType true (Some twin_fields) (str "a") (str "I")
     = Fatal FieldSearchMismatch.
Proof. repeat split; vm_compute; reflexivity. Qed.

(** ** SetClassSize *)

(** C10, as amended: in a debug build SetClassSize aborts on a size below the
    stored one, so over any run of calls that returns the stored class size
    has not decreased.  In a build that is not a debug build SetClassSize
    makes no check and stores the new size, whatever it is. *)
Theorem SetClassSize_debug_never_shrinks :
  (forall (this : Class.t) (new_class_size : Z),
     new_class_size < Class.GetClassSize this ->
     SetClassSize true this new_class_size = Fatal ClassSizeShrinks)
  /\ (forall (this : Class.t) (new_class_size : Z),
     Class.GetClassSize this <= new_class_size ->
     SetClassSize true this new_class_size
     = Ret (Class.set_class_size new_class_size this))
  /\ (forall (sizes : list Z) (this this' : Class.t),
     SetClassSize_all true this sizes = Ret this' ->
     Class.GetClassSize this <= Class.GetClassSize this')
  /\ (forall (this : Class.t) (new_class_size : Z),
     SetClassSize false this new_class_size
     = Ret (Class.set_class_size new_class_size this)).
Proof.
  split; [|split; [|split]]; [| | |reflexivity].
  - intros this n H. unfold SetClassSize. simpl.
    apply Z.ltb_lt in H. now rewrite H.
  - intros this n H. unfold SetClassSize. simpl.
    apply Z.ltb_ge in H. now rewrite H.
  - induction sizes as [|n rest IH]; intros this this' H; simpl in H.
    + injection H as ->. lia.
    + unfold SetClassSize in H. simpl in H.
      destruct (n <? Class.GetClassSize this) eqn:E; simpl in H; [discriminate|].
      apply IH in H. apply Z.ltb_ge in E. simpl in H. unfold Class.GetClassSize in *.
      simpl in H. lia.
Qed.

Lemma SetClassSize_debug_never_shrinks_witness :
  SetClassSize true (example_class 2 0 None false) 5 = Fatal ClassSizeShrinks
  /\ SetClassSize true (example_class 2 0 None false) 16
     = Ret (Class.set_class_size 16 (example_class 2 0 None false))
  /\ Class.GetClassSize (example_class 2 0 None false)
     <= Class.GetClassSize (Class.set_class_size 16 (example_class 2 0 None false)).
Proof.
  destruct SetClassSize_debug_never_shrinks as (H1 & H2 & H3 & _).
  split; [apply H1; vm_compute; reflexivity|].
  split; [apply H2; vm_compute; discriminate|].
  apply (H3 [16]). reflexivity.
Defined.

(** C10, as stated, fails in a build that is not a debug build: the check is
    compiled out and the smaller size is stored. *)
Lemma SetClassSize_release_shrinks :
  Class.GetClassSize (example_class 2 0 None false) = 10
  /\ SetClassSize false (example_class 2 0 None false) 5
     = Ret (Class.set_class_size 5 (example_class 2 0 None false))
  /\ Class.GetClassSize (Class.set_class_size 5 (example_class 2 0 None false)) = 5.
Proof. repeat split. Qed.

(** ** EnsureExtDataPresent, one thread *)

Lemma Thread_restore (self : Thread) :
  match GetException self with
  | Some t => SetException (ClearException self) t
  | None => ClearException self
  end = self.
Proof. destruct self as [tid [e|]]; reflexivity. Qed.

(** The heap once a fresh ClassExt has been allocated and installed. *)
Lemma EnsureExtDataPresent_alone kIsDebugBuild (h : Heap) (self : Thread) :
  EnsureExtDataPresent kIsDebugBuild h self =
  match Class.GetExtData (klass h) with
  | Some existing => Ret (h, self, Some existing)
  | None =>
      match room h with
      | O => Ret (h, SetException self OutOfMemoryError, None)
      | S _ =>
          Ret (set_klass (Class.set_ext_data (Some (next_ext h)) (klass h))
                 (ClassExt_Alloc h self).1.1,
               self, Some (next_ext h))
      end
  end.
Proof.
  unfold EnsureExtDataPresent.
  destruct (Class.GetExtData (klass h)) as [e|] eqn:He; [reflexivity|].
  unfold ClassExt_Alloc. simpl. destruct (room h) as [|r] eqn:Hr.
  - reflexivity.
  - unfold CasExtData. simpl. rewrite He. simpl.
    rewrite bool_decide_eq_true_2 by reflexivity.
    unfold DCHECK. rewrite andb_false_r. simpl.
    rewrite Thread_restore. reflexivity.
Qed.

(** ** SetStatus *)

Lemma set_ext_data_same (c : Class.t) : Class.set_ext_data (Class.ext_data_ c) c = c.
Proof. destruct c; reflexivity. Qed.

Lemma set_ext_data_twice v w (c : Class.t) :
  Class.set_ext_data v (Class.set_ext_data w c) = Class.set_ext_data v c.
Proof. reflexivity. Qed.

(** What a call of the erroneous block that returns has done. *)
Lemma mark_erroneous_Ret d cfg (h h1 : Heap) (self self1 : Thread) (old_status new_status : Z) :
  mark_erroneous d cfg h self old_status new_status = Ret (h1, self1) ->
  IsErroneous d (Class.GetStatus (klass h)) = false
  /\ ((new_status =? kStatusErrorResolved d) = (old_status >=? kStatusResolved d))
  /\ notify_all h1 = notify_all h
  /\ Class.status_ (klass h1) = Class.status_ (klass h)
  /\ Class.set_ext_data (Class.ext_data_ (klass h)) (klass h1) = klass h
  /\ match Class.GetExtData (klass h1) with
     | Some ext =>
         GetException self <> None
         /\ GetVerifyError ext h1 = GetException self
         /\ self1 = self
     | None =>
         room h = O /\ h1 = h /\ GetException self1 = Some OutOfMemoryError
     end.
Proof.
  unfold mark_erroneous. intros H.
  destruct (IsErroneous d (Class.GetStatus (klass h))) eqn:Herr; simpl in H; [discriminate|].
  destruct (Bool.eqb (new_status =? kStatusErrorResolved d) (old_status >=? kStatusResolved d))
    eqn:Heq; simpl in H; [|discriminate].
  apply Bool.eqb_prop in Heq.
  rewrite EnsureExtDataPresent_alone in H.
  split; [reflexivity|]. split; [exact Heq|].
  destruct (Class.GetExtData (klass h)) as [e|] eqn:He; simpl in H.
  - unfold AssertPendingException, IsExceptionPending in H.
    destruct (exception_ self) as [t|] eqn:Ht; simpl in H; [|discriminate].
    injection H as <- <-. simpl. unfold Class.GetExtData in *. rewrite He.
    repeat split; auto.
    + rewrite <- He. apply set_ext_data_same.
    + unfold GetException. congruence.
    + unfold GetVerifyError, GetException. simpl.
      rewrite bool_decide_eq_true_2 by reflexivity. reflexivity.
  - destruct (room h) as [|r] eqn:Hr; simpl in H.
    + injection H as <- <-. unfold Class.GetExtData in *. rewrite He.
      repeat split; auto. rewrite <- He. apply set_ext_data_same.
    + unfold AssertPendingException, IsExceptionPending in H.
      destruct (exception_ self) as [t|] eqn:Ht; simpl in H; [|discriminate].
      injection H as <- <-. simpl.
      repeat split; auto.
      * unfold ClassExt_Alloc. rewrite Hr. reflexivity.
      * unfold Class.GetExtData in He. rewrite set_ext_data_twice.
        apply set_ext_data_same.
      * unfold GetException. congruence.
      * unfold GetVerifyError, GetException. simpl.
        rewrite bool_decide_eq_true_2 by reflexivity. reflexivity.
Qed.

(** What a call of SetStatus that returns has checked and done. *)
Lemma SetStatus_Ret d cfg (h h' : Heap) (new_status : Z) (self self' : Thread) :
  SetStatus d cfg h new_status self = Ret (h', self') ->
  (class_linker_initialized cfg = true ->
     Class.GetStatus (klass h) < new_status
     \/ new_status = kStatusErrorUnresolved d
     \/ new_status = kStatusErrorResolved d
     \/ new_status = kStatusRetired d)
  /\ exists h1,
       (if IsErroneous d new_status
        then mark_erroneous d cfg h self (Class.GetStatus (klass h)) new_status = Ret (h1, self')
        else (h1, self') = (h, self))
       /\ Class.status_ (klass h') = new_status
       /\ Class.ext_data_ (klass h') = Class.ext_data_ (klass h1)
       /\ exts h' = exts h1
       /\ notify_all h' =
          if class_linker_initialized cfg then
            if IsTemp d (klass h') then
              if (new_status =? kStatusRetired d) || (new_status =? kStatusErrorUnresolved d)
              then S (notify_all h1) else notify_all h1
            else
              if (Class.GetStatus (klass h) >=? kStatusResolved d)
                 || (new_status >=? kStatusResolved d)
              then S (notify_all h1) else notify_all h1
          else notify_all h1.
Proof.
  unfold SetStatus. intros H.
  set (old_status := Class.GetStatus (klass h)) in *.
  match type of H with bind ?g _ = _ => destruct g as [[]| |] eqn:Hguard end;
    simpl in H; try discriminate.
  split.
  { intros Hinit. rewrite Hinit in Hguard.
    destruct ((new_status <=? old_status)
              && negb (new_status =? kStatusErrorUnresolved d)
              && negb (new_status =? kStatusErrorResolved d)
              && negb (new_status =? kStatusRetired d)) eqn:Hback; simpl in Hguard;
      [discriminate|].
    destruct (Z.leb_spec new_status old_status) as [Hle|Hlt]; [|lia].
    destruct (Z.eqb_spec new_status (kStatusErrorUnresolved d)); [auto|].
    destruct (Z.eqb_spec new_status (kStatusErrorResolved d)); [auto|].
    destruct (Z.eqb_spec new_status (kStatusRetired d)); [auto|].
    discriminate. }
  match type of H with bind ?g _ = _ => destruct g as [[h1 self1]| |] eqn:Herr end;
    simpl in H; try discriminate.
  exists h1.
  set (h2 := set_klass (Class.set_status new_status (klass h1)) h1) in *.
  match type of H with bind ?g _ = _ => destruct g as [h3| |] eqn:Hfast end;
    simpl in H; try discriminate.
  assert (Hh3 : Class.status_ (klass h3) = new_status
                /\ Class.ext_data_ (klass h3) = Class.ext_data_ (klass h1)
                /\ exts h3 = exts h1 /\ notify_all h3 = notify_all h1).
  { repeat match type of Hfast with
           | (if ?b then _ else _) = _ => destruct b; simpl in Hfast
           | bind ?g _ = _ => destruct g; simpl in Hfast; try discriminate
           end;
      injection Hfast as <-; auto. }
  destruct Hh3 as (Hst & Hext & Hexts & Hnot).
  destruct (class_linker_initialized cfg) eqn:Hinit; simpl in H.
  - destruct (IsTemp d (klass h3)) eqn:Htemp.
    + destruct (CHECK (new_status <? kStatusResolved d) TempNotBelowResolved);
        simpl in H; try discriminate.
      destruct ((new_status =? kStatusRetired d) || (new_status =? kStatusErrorUnresolved d));
        injection H as <- <-; simpl; rewrite Htemp;
        (split; [destruct (IsErroneous d new_status); [exact Herr|congruence]|auto]).
    + destruct (CHECK (negb (new_status =? kStatusRetired d)) RegularRetired);
        simpl in H; try discriminate.
      destruct ((old_status >=? kStatusResolved d) || (new_status >=? kStatusResolved d));
        injection H as <- <-; simpl; rewrite Htemp;
        (split; [destruct (IsErroneous d new_status); [exact Herr|congruence]|auto]).
  - injection H as <- <-.
    split; [destruct (IsErroneous d new_status); [exact Herr|congruence]|auto].
Qed.

(** The erroneous block never ends in one of the two aborts of the checks
    that SetStatus makes under [class_linker_initialized]. *)
Lemma mark_erroneous_other_abort d cfg (h : Heap) (self : Thread) (old_status new_status : Z)
    (why : Abort) :
  mark_erroneous d cfg h self old_status new_status = Fatal why ->
  why <> UnexpectedChangeBack /\ why <> NotHoldingLock.
Proof.
  unfold mark_erroneous, CHECK. rewrite EnsureExtDataPresent_alone.
  unfold AssertPendingOOMException, AssertPendingException, CHECK.
  repeat match goal with
         | |- context [if ?b then _ else _] => destruct b; simpl; try discriminate
         | |- context [match ?o with Some _ => _ | None => _ end] =>
             destruct o; simpl; try discriminate
         | |- context [match ?n with O => _ | S _ => _ end] =>
             destruct n; simpl; try discriminate
         end;
    intros [= <-]; split; discriminate.
Qed.

(** C2, as amended: once the class linker is initialised, SetStatus rejects
    as fatal every transition that is not strictly forward and not into
    Retired, ErrorUnresolved or ErrorResolved; so a call that returns has
    stored the new status, and the status has not decreased except into one of
    those three.  While the class linker is not initialised the check is not
    made: no call ends in that abort (nor in the one of the lock check), and
    every status that is not an error status is stored, whatever the old
    status is. *)
Theorem SetStatus_forward_or_sanctioned d cfg (h : Heap) (new_status : Z) (self : Thread) :
  (class_linker_initialized cfg = true ->
   (new_status <= Class.GetStatus (klass h) ->
    new_status <> kStatusRetired d ->
    new_status <> kStatusErrorUnresolved d ->
    new_status <> kStatusErrorResolved d ->
    SetStatus d cfg h new_status self = Fatal UnexpectedChangeBack)
   /\ (forall h' self',
       SetStatus d cfg h new_status self = Ret (h', self') ->
       Class.GetStatus (klass h') = new_status
       /\ (Class.GetStatus (klass h) < new_status
           \/ new_status = kStatusRetired d
           \/ new_status = kStatusErrorUnresolved d
           \/ new_status = kStatusErrorResolved d)))
  /\ (class_linker_initialized cfg = false ->
      (forall why, SetStatus d cfg h new_status self = Fatal why ->
                   why <> UnexpectedChangeBack /\ why <> NotHoldingLock)
      /\ (IsErroneous d new_status = false ->
          kIsDebugBuild cfg = false \/ new_status <> kStatusInitialized d ->
          exists h',
            SetStatus d cfg h new_status self = Ret (h', self)
            /\ Class.GetStatus (klass h') = new_status
            /\ notify_all h' = notify_all h)).
Proof.
  split.
  - intros Hinit. split.
    + intros Hle H1 H2 H3. unfold SetStatus. rewrite Hinit.
      apply Z.leb_le in Hle. apply Z.eqb_neq in H1, H2, H3.
      rewrite Hle, H1, H2, H3. reflexivity.
    + intros h' self' H. apply SetStatus_Ret in H as (Hfwd & h1 & _ & Hst & _).
      split; [exact Hst|]. specialize (Hfwd Hinit). tauto.
  - intros Hinit. split.
    + intros why. unfold SetStatus. rewrite Hinit. simpl.
      destruct (IsErroneous d new_status).
      * destruct (mark_erroneous d cfg h self (Class.GetStatus (klass h)) new_status)
          as [[h1 self1]|w|] eqn:Em; simpl.
        -- unfold DCHECK.
           repeat match goal with
                  | |- context [if ?b then _ else _] => destruct b; simpl; try discriminate
                  end;
             intros [= <-]; split; discriminate.
        -- intros [= <-]. eapply mark_erroneous_other_abort, Em.
        -- discriminate.
      * simpl. unfold DCHECK.
        repeat match goal with
               | |- context [if ?b then _ else _] => destruct b; simpl; try discriminate
               end;
          intros [= <-]; split; discriminate.
    + intros Herr Hdbg. unfold SetStatus. rewrite Hinit, Herr. simpl.
      unfold DCHECK.
      destruct (Z.eqb_spec new_status (kStatusInitialized d)) as [Hi|Hi]; simpl.
      * destruct Hdbg as [Hdbg|Hdbg]; [|contradiction]. rewrite Hdbg. simpl.
        destruct (negb (Class.IsVariableSize (klass h))); simpl;
          [destruct (negb (Class.IsFinalizable (klass h))); simpl|];
          eexists; (split; [reflexivity|split; reflexivity]).
      * eexists. split; [reflexivity|split; reflexivity].
Qed.

Lemma SetStatus_forward_or_sanctioned_witness :
  SetStatus example_decls release_running
    (example_heap (example_class kStatusLoaded 0 None false) 1) kStatusIdx (example_thread None)
  = Fatal UnexpectedChangeBack
  /\ exists h',
       SetStatus example_decls release_starting
         (example_heap (example_class kStatusLoaded 0 None false) 1) kStatusIdx
         (example_thread None)
       = Ret (h', example_thread None)
       /\ Class.GetStatus (klass h') = kStatusIdx
       /\ notify_all h'
          = notify_all (example_heap (example_class kStatusLoaded 0 None false) 1).
Proof.
  destruct (SetStatus_forward_or_sanctioned example_decls release_running
              (example_heap (example_class kStatusLoaded 0 None false) 1) kStatusIdx
              (example_thread None)) as [Hrun _].
  destruct (SetStatus_forward_or_sanctioned example_decls release_starting
              (example_heap (example_class kStatusLoaded 0 None false) 1) kStatusIdx
              (example_thread None)) as [_ Hstart].
  split.
  - apply (Hrun eq_refl); vm_compute; congruence.
  - apply (Hstart eq_refl); [reflexivity|left; reflexivity].
Defined.

(** C2, as stated, fails while the class linker is not initialised yet: the
    check is skipped and the status goes back from Loaded to Idx. *)
Lemma SetStatus_goes_back_while_starting :
  SetStatus example_decls release_starting
    (example_heap (example_class kStatusLoaded 0 None false) 1) kStatusIdx (example_thread None)
  = Ret (example_heap (example_class kStatusIdx 0 None false) 1, example_thread None)
  /\ kStatusIdx < kStatusLoaded
  /\ kStatusIdx <> kStatusRetired example_decls
  /\ kStatusIdx <> kStatusErrorUnresolved example_decls
  /\ kStatusIdx <> kStatusErrorResolved example_decls.
Proof. repeat split; vm_compute; congruence. Qed.

(** C3, as amended: when SetStatus returns on a regular (non-temporary)
    instance, it has notified all waiters exactly once if the class linker is
    initialised and the old or the new status is at or above Resolved,
    whether or not the transition crosses that boundary, and not at all
    otherwise.  (Whether the instance is temporary is read once the new status
    is stored, as in the code.) *)
Theorem SetStatus_notifies_at_or_above_Resolved d cfg (h h' : Heap) (new_status : Z)
    (self self' : Thread) :
  SetStatus d cfg h new_status self = Ret (h', self') ->
  IsTemp d (klass h') = false ->
  notify_all h' =
    if class_linker_initialized cfg
       && ((Class.GetStatus (klass h) >=? kStatusResolved d)
           || (new_status >=? kStatusResolved d))
    then S (notify_all h)
    else notify_all h.
Proof.
  intros H Htemp. apply SetStatus_Ret in H as (_ & h1 & Herr & _ & _ & _ & Hn).
  assert (Hh1 : notify_all h1 = notify_all h).
  { destruct (IsErroneous d new_status).
    - apply mark_erroneous_Ret in Herr. tauto.
    - congruence. }
  rewrite Htemp, Hh1 in Hn. rewrite Hn.
  destruct (class_linker_initialized cfg); reflexivity.
Qed.

Lemma SetStatus_notifies_at_or_above_Resolved_witness :
  notify_all (NotifyAll (example_heap (example_class 4 1 None false) 1)) = 1%nat.
Proof.
  apply (SetStatus_notifies_at_or_above_Resolved example_decls release_running
           (example_heap (example_class 3 1 None false) 1)
           (NotifyAll (example_heap (example_class 4 1 None false) 1))
           4 (example_thread None) (example_thread None)); reflexivity.
Defined.

(** C3, as stated, fails on a transition that stays above the boundary: from
    Resolved to Verifying the waiters of a regular instance are notified. *)
Lemma SetStatus_notifies_without_crossing :
  SetStatus example_decls release_running
    (example_heap (example_class (kStatusResolved example_decls) 1 None false) 1)
    kStatusVerifying (example_thread None)
  = Ret (NotifyAll (example_heap (example_class kStatusVerifying 1 None false) 1),
         example_thread None)
  /\ IsTemp example_decls (example_class kStatusVerifying 1 None false) = false
  /\ kStatusResolved example_decls <= kStatusResolved example_decls
  /\ kStatusResolved example_decls <= kStatusVerifying
  /\ notify_all (NotifyAll (example_heap (example_class kStatusVerifying 1 None false) 1))
     = S (notify_all
            (example_heap (example_class (kStatusResolved example_decls) 1 None false) 1)).
Proof. repeat split; vm_compute; congruence. Qed.




(** ** FindVirtualMethodForInterfaceSuper *)

Lemma HasSame_sym a b : HasSameNameAndSignature a b = HasSameNameAndSignature b a.
Proof.
  unfold HasSameNameAndSignature, StringPiece.eqb.
  f_equal; apply bool_decide_ext; split; congruence.
Qed.

Lemma HasSame_trans a b c :
  HasSameNameAndSignature a b = true -> HasSameNameAndSignature b c = true ->
  HasSameNameAndSignature a c = true.
Proof.
  unfold HasSameNameAndSignature, StringPiece.eqb.
  intros [H1 H2]%andb_prop [H3 H4]%andb_prop.
  apply bool_decide_eq_true in H1, H2, H3, H4.
  apply andb_true_intro; split; apply bool_decide_eq_true; congruence.
Qed.

Lemma own_loop_find method methods :
  own_loop method methods = List.find (HasSameNameAndSignature method) methods.
Proof.
  induction methods as [|m l IH]; simpl; [reflexivity|].
  destruct (HasSameNameAndSignature method m); auto.
Qed.

Section InterfaceSuperFacts.
Context (rt : Runtime) (d : ClassDecls) (ad : AccessDecls) (kIsDebugBuild : bool).

Lemma overridden_loop_existsb iface current (method : ArtMethod.t) abstract_methods :
  HasSameNameAndSignature current method = true ->
  Forall (fun a => HasSameNameAndSignature a method = true) abstract_methods ->
  overridden_loop rt kIsDebugBuild iface current abstract_methods
  = Ret (existsb (fun a => IsAssignableFrom rt iface (ArtMethod.GetDeclaringClass a))
           abstract_methods).
Proof.
  intros Hc. induction 1 as [|a l Ha Hl IH]; simpl; [reflexivity|].
  assert (HasSameNameAndSignature a current = true) as ->.
  { eapply HasSame_trans; [exact Ha|]. now rewrite HasSame_sym. }
  unfold DCHECK. rewrite andb_false_r. simpl.
  destruct (IsAssignableFrom rt iface (ArtMethod.GetDeclaringClass a)); auto.
Qed.

Lemma declared_loop_flat iface (method : ArtMethod.t) methods : forall abstract_methods,
  Forall (fun a => HasSameNameAndSignature a method = true) abstract_methods ->
  declared_loop rt kIsDebugBuild iface method methods abstract_methods
  = Ret (flat_scan rt
           (map (pair iface) (List.filter (fun m => HasSameNameAndSignature m method) methods))
           abstract_methods)
  /\ forall abstract_methods',
       flat_scan rt
         (map (pair iface) (List.filter (fun m => HasSameNameAndSignature m method) methods))
         abstract_methods = inr abstract_methods' ->
       Forall (fun a => HasSameNameAndSignature a method = true) abstract_methods'.
Proof.
  induction methods as [|m l IH]; intros am Ham; simpl.
  - split; [reflexivity|]. now intros ? [= <-].
  - destruct (HasSameNameAndSignature m method) eqn:Hm; simpl; [|auto].
    destruct (ArtMethod.IsDefault m) eqn:Hd.
    + rewrite (overridden_loop_existsb iface m method am Hm Ham). simpl.
      destruct (existsb _ am); simpl; [auto|].
      split; [reflexivity|discriminate].
    + apply IH. apply Forall_app; split; [exact Ham|]. repeat constructor. exact Hm.
Qed.

Lemma flat_scan_app scan1 scan2 abstract_methods :
  flat_scan rt (scan1 ++ scan2) abstract_methods
  = match flat_scan rt scan1 abstract_methods with
    | inl m => inl m
    | inr abstract_methods' => flat_scan rt scan2 abstract_methods'
    end.
Proof.
  revert abstract_methods. induction scan1 as [|[iface m] l IH]; intros am; simpl; [reflexivity|].
  destruct (ArtMethod.IsDefault m); [|apply IH].
  destruct (existsb _ am); [apply IH|reflexivity].
Qed.

Lemma iftable_loop_flat iftable (method : ArtMethod.t) : forall k abstract_methods,
  (k <= length iftable)%nat ->
  Forall (fun a => HasSameNameAndSignature a method = true) abstract_methods ->
  iftable_loop rt kIsDebugBuild iftable method k abstract_methods
  = Ret (match flat_scan rt (flat_map (matches_in rt method) (rev (take k iftable)))
                 abstract_methods with
         | inl m => Some m
         | inr abstract_methods' => head abstract_methods'
         end).
Proof.
  induction k as [|k IH]; intros am Hk Ham.
  - reflexivity.
  - cbn [iftable_loop].
    assert (Hlt : (k <? length iftable)%nat = true) by (apply Nat.ltb_lt; lia).
    rewrite Hlt. unfold DCHECK. rewrite andb_false_r. simpl.
    destruct (iftable !! k) as [iface|] eqn:Hi.
    2:{ apply lookup_ge_None in Hi. lia. }
    rewrite (take_S_r _ _ _ Hi), rev_app_distr. simpl.
    rewrite flat_scan_app.
    destruct (declared_loop_flat iface method
                (Class.GetDeclaredVirtualMethods (heap rt iface)) am Ham) as [-> Hinv].
    simpl. unfold matches_in at 1.
    destruct (flat_scan rt _ am) as [m|am'] eqn:Hs; [reflexivity|].
    apply IH; [lia|]. apply Hinv. reflexivity.
Qed.

(** What a pass of [flat_scan] means, relative to the part of the scan that
    precedes it. *)
Lemma flat_scan_meaning scan : forall scanned,
  defaults_overridden rt scanned ->
  match flat_scan rt scan (collected scanned) with
  | inl m =>
      exists before iface rest,
        scan = before ++ (iface, m) :: rest
        /\ ArtMethod.IsDefault m = true
        /\ overridden rt iface (scanned ++ before) = false
        /\ defaults_overridden rt (scanned ++ before)
  | inr abstract_methods =>
      abstract_methods = collected (scanned ++ scan)
      /\ defaults_overridden rt (scanned ++ scan)
  end.
Proof.
  induction scan as [|[iface m] l IH]; intros scanned Hpre.
  - simpl. rewrite app_nil_r. auto.
  - simpl. destruct (ArtMethod.IsDefault m) eqn:Hd.
    + destruct (existsb _ (collected scanned)) eqn:Ho.
      * assert (Hpre' : defaults_overridden rt (scanned ++ [(iface, m)])).
        { intros s i x r E Hx.
          destruct r as [|y r _] using rev_ind.
          - apply app_inj_tail in E as [-> [= -> ->]]. exact Ho.
          - rewrite app_comm_cons, app_assoc in E. apply app_inj_tail in E as [E _].
            eapply Hpre; eauto. }
        assert (Hc : collected (scanned ++ [(iface, m)]) = collected scanned).
        { unfold collected. rewrite List.filter_app. simpl. rewrite Hd. simpl.
          now rewrite app_nil_r. }
        specialize (IH _ Hpre'). rewrite Hc in IH.
        destruct (flat_scan rt l (collected scanned)) as [x|am].
        -- destruct IH as (before & i & rest & -> & Hx & Hov & Hall).
           exists ((iface, m) :: before), i, rest.
           rewrite <- !app_assoc in *. simpl in *. auto.
        -- rewrite <- !app_assoc in IH. exact IH.
      * exists [], iface, l. rewrite app_nil_r. auto.
    + assert (Hpre' : defaults_overridden rt (scanned ++ [(iface, m)])).
      { intros s i x r E Hx.
        destruct r as [|y r _] using rev_ind.
        - apply app_inj_tail in E as [-> [= -> ->]]. congruence.
        - rewrite app_comm_cons, app_assoc in E. apply app_inj_tail in E as [E _].
          eapply Hpre; eauto. }
      assert (Hc : collected (scanned ++ [(iface, m)]) = collected scanned ++ [m]).
      { unfold collected. rewrite List.filter_app. simpl. rewrite Hd. simpl.
        now rewrite map_app. }
      specialize (IH _ Hpre'). rewrite Hc in IH.
      destruct (flat_scan rt l (collected scanned ++ [m])) as [x|am].
      * destruct IH as (before & i & rest & -> & Hx & Hov & Hall).
        exists ((iface, m) :: before), i, rest.
        rewrite <- !app_assoc in *. simpl in *. auto.
      * rewrite <- !app_assoc in IH. exact IH.
Qed.

(** The call, once the two assertions on entry are passed. *)
Lemma FindVirtualMethodForInterfaceSuper_body this method :
  FindVirtualMethodForInterfaceSuper rt d ad kIsDebugBuild this method
  = if kIsDebugBuild && negb (entry_ok rt d ad this method) then Fatal DebugCheck
    else Ret (match List.find (HasSameNameAndSignature method)
                      (Class.GetVirtualMethods (heap rt this)) with
              | Some own => Some own
              | None =>
                  match flat_scan rt (scan_order rt this method) [] with
                  | inl m => Some m
                  | inr abstract_methods => head abstract_methods
                  end
              end).
Proof.
  unfold FindVirtualMethodForInterfaceSuper, entry_ok, IsInterface, GetAccessFlagsDCheck,
    DCHECK.
  fold (flags_readable rt d ad (ArtMethod.GetDeclaringClass method)).
  fold (flags_readable rt d ad this).
  rewrite own_loop_find.
  assert (Hscan : iftable_loop rt kIsDebugBuild (Class.GetIfTable (heap rt this)) method
                    (Class.GetIfTableCount (heap rt this)) []
                  = Ret (match flat_scan rt (scan_order rt this method) [] with
                         | inl m => Some m
                         | inr abstract_methods => head abstract_methods
                         end)).
  { rewrite iftable_loop_flat; [|reflexivity|constructor].
    unfold scan_order, Class.GetIfTableCount, Class.GetIfTable.
    now rewrite firstn_all. }
  destruct kIsDebugBuild; simpl.
  - destruct (flags_readable rt d ad (ArtMethod.GetDeclaringClass method)); simpl;
      [|reflexivity].
    destruct (Class.IsInterface (heap rt (ArtMethod.GetDeclaringClass method))); simpl;
      [|reflexivity].
    destruct (flags_readable rt d ad this); simpl; [|reflexivity].
    destruct (Class.IsInterface (heap rt this)); simpl; [|reflexivity].
    destruct (List.find _ _); [reflexivity|exact Hscan].
  - destruct (List.find _ _); [reflexivity|exact Hscan].
Qed.

End InterfaceSuperFacts.

(** C1: on every type and every query method, a call of
    FindVirtualMethodForInterfaceSuper that passes the assertions on entry
    returns: the first of the type's own virtual methods (the declared
    ones, then the ones copied down) with the name and signature of the query;
    otherwise the first default match of the scan (interface table from index
    count-1 down to 0, declared virtual methods of each interface) that is not
    overridden by an abstract candidate collected before it; otherwise the
    first abstract candidate collected, or none.  The call always ends: it
    aborts only in a debug build, on a failed assertion on entry (that the
    declaring class of the query and the receiver are interfaces, and what
    reading their access flags asserts). *)
Theorem FindVirtualMethodForInterfaceSuper_resolves
    (rt : Runtime) (d : ClassDecls) (ad : AccessDecls) (kIsDebugBuild : bool)
    (this : ClassRef) (method : ArtMethod.t) :
  match FindVirtualMethodForInterfaceSuper rt d ad kIsDebugBuild this method with
  | Ret r => Resolves rt this method r
  | Fatal _ => kIsDebugBuild = true /\ entry_ok rt d ad this method = false
  | OutOfFuel => False
  end.
Proof.
  rewrite FindVirtualMethodForInterfaceSuper_body.
  destruct (kIsDebugBuild && negb (entry_ok rt d ad this method)) eqn:E.
  - apply andb_prop in E as [-> E]. apply negb_true_iff in E. auto.
  - unfold Resolves. destruct (List.find _ _) as [own|]; [reflexivity|].
    pose proof (flat_scan_meaning rt (scan_order rt this method) []) as H.
    simpl in H. unfold collected at 1 in H. simpl in H.
    assert (H0 : defaults_overridden rt []).
    { intros s i x r E0. destruct s; discriminate. }
    specialize (H H0).
    destruct (flat_scan rt (scan_order rt this method) []) as [m|am].
    + destruct H as (before & iface & rest & Hs & Hd & Ho & Hall).
      left. exists before, iface, m, rest. auto.
    + destruct H as [-> Hall]. right. auto.
Qed.

(** C9: in a debug build FindVirtualMethodForInterfaceSuper asserts on entry
    that the declaring class of the query method is an interface and that the
    receiver is an interface: a debug build aborts whenever one of the two is
    not an interface.  Reading the interface flag asserts in a debug build
    that the type is loaded (IdxLoaded, Retired, erroneous, or
    java.lang.String), so a debug build aborts exactly when one of the two is
    not an interface or cannot have its flags read, and returns otherwise; a
    build without DCHECKs makes no check and always returns; and what a debug
    build returns, the other build returns. *)
Theorem FindVirtualMethodForInterfaceSuper_entry_assertions
    (rt : Runtime) (d : ClassDecls) (ad : AccessDecls) (this : ClassRef)
    (method : ArtMethod.t) :
  (Class.IsInterface (heap rt (ArtMethod.GetDeclaringClass method)) = false
   \/ Class.IsInterface (heap rt this) = false ->
   FindVirtualMethodForInterfaceSuper rt d ad true this method = Fatal DebugCheck)
  /\ (forall kIsDebugBuild,
        (exists why,
            FindVirtualMethodForInterfaceSuper rt d ad kIsDebugBuild this method = Fatal why)
        <-> kIsDebugBuild = true
            /\ (flags_readable rt d ad (ArtMethod.GetDeclaringClass method) = false
                \/ Class.IsInterface (heap rt (ArtMethod.GetDeclaringClass method)) = false
                \/ flags_readable rt d ad this = false
                \/ Class.IsInterface (heap rt this) = false))
  /\ (forall kIsDebugBuild,
        (exists r,
            FindVirtualMethodForInterfaceSuper rt d ad kIsDebugBuild this method = Ret r)
        <-> kIsDebugBuild = false
            \/ (flags_readable rt d ad (ArtMethod.GetDeclaringClass method) = true
                /\ Class.IsInterface (heap rt (ArtMethod.GetDeclaringClass method)) = true
                /\ flags_readable rt d ad this = true
                /\ Class.IsInterface (heap rt this) = true))
  /\ (forall r,
        FindVirtualMethodForInterfaceSuper rt d ad true this method = Ret r ->
        FindVirtualMethodForInterfaceSuper rt d ad false this method = Ret r).
Proof.
  split; [|split; [|split]].
  - intros H. rewrite FindVirtualMethodForInterfaceSuper_body. unfold entry_ok.
    destruct H as [-> | ->]; rewrite ?andb_false_r; reflexivity.
  - intros dbg. rewrite FindVirtualMethodForInterfaceSuper_body. unfold entry_ok.
    destruct dbg,
      (flags_readable rt d ad (ArtMethod.GetDeclaringClass method)),
      (Class.IsInterface (heap rt (ArtMethod.GetDeclaringClass method))),
      (flags_readable rt d ad this),
      (Class.IsInterface (heap rt this)); simpl;
      (split;
       [intros [? H]; try discriminate H; auto 6
       |intros H; try (exfalso; intuition discriminate); eauto]).
  - intros dbg. rewrite FindVirtualMethodForInterfaceSuper_body. unfold entry_ok.
    destruct dbg,
      (flags_readable rt d ad (ArtMethod.GetDeclaringClass method)),
      (Class.IsInterface (heap rt (ArtMethod.GetDeclaringClass method))),
      (flags_readable rt d ad this),
      (Class.IsInterface (heap rt this)); simpl;
      (split;
       [intros [? H]; try discriminate H; auto 6
       |intros H; try (exfalso; intuition discriminate); eauto]).
  - intros r. rewrite !FindVirtualMethodForInterfaceSuper_body. simpl.
    destruct (negb (entry_ok rt d ad this method)); [discriminate|auto].
Qed.

Lemma FindVirtualMethodForInterfaceSuper_entry_assertions_witness :
  FindVirtualMethodForInterfaceSuper example_iface_rt example_decls example_access true
    5%nat (method_f true 0%nat) = Fatal DebugCheck
  /\ FindVirtualMethodForInterfaceSuper example_iface_rt example_decls example_access false
       3%nat (method_f true 0%nat) = Ret (Some (method_f false 1%nat)).
Proof.
  destruct (FindVirtualMethodForInterfaceSuper_entry_assertions example_iface_rt
              example_decls example_access 5%nat (method_f true 0%nat)) as (Hf & _).
  destruct (FindVirtualMethodForInterfaceSuper_entry_assertions example_iface_rt
              example_decls example_access 3%nat (method_f true 0%nat)) as (_ & _ & _ & Hr).
  split.
  - apply Hf. right. reflexivity.
  - apply Hr. reflexivity.
Defined.

(** The abstract redeclaration in [B] overrides the default of [A]; the
    default of the unrelated [C] is not overridden; a receiver that is not an
    interface stops a debug build on entry, and so does an interface that is
    not loaded yet. *)
Example FindVirtualMethodForInterfaceSuper_abstract_overrides :
  FindVirtualMethodForInterfaceSuper example_iface_rt example_decls example_access true
    3%nat (method_f true 0%nat)
  = Ret (Some (method_f false 1%nat)).
Proof. reflexivity. Qed.

Example FindVirtualMethodForInterfaceSuper_unrelated_default :
  FindVirtualMethodForInterfaceSuper example_iface_rt example_decls example_access true
    4%nat (method_f true 0%nat)
  = Ret (Some (method_f true 2%nat)).
Proof. reflexivity. Qed.

Example FindVirtualMethodForInterfaceSuper_class_receiver :
  FindVirtualMethodForInterfaceSuper example_iface_rt example_decls example_access true
    5%nat (method_f true 0%nat)
  = Fatal DebugCheck
  /\ FindVirtualMethodForInterfaceSuper example_iface_rt example_decls example_access false
       5%nat (method_f true 0%nat)
     = Ret (Some (method_f false 1%nat)).
Proof. split; reflexivity. Qed.

Example FindVirtualMethodForInterfaceSuper_unloaded_receiver :
  Class.IsInterface (heap example_unloaded_rt 0%nat) = true
  /\ FindVirtualMethodForInterfaceSuper example_unloaded_rt example_decls example_access true
       0%nat (method_f true 0%nat)
     = Fatal DebugCheck
  /\ FindVirtualMethodForInterfaceSuper example_unloaded_rt example_decls example_access false
       0%nat (method_f true 0%nat)
     = Ret (Some (method_f true 0%nat)).
Proof. repeat split. Qed.

(** ** IsInSamePackage *)

Lemma common_prefix_loop_lcp d1 d2 : forall fuel i,
  (fuel + i = Nat.min (length d1) (length d2))%nat ->
  common_prefix_loop fuel d1 d2 (Nat.min (length d1) (length d2)) i
  = (i + lcp (drop i d1) (drop i d2))%nat.
Proof.
  induction fuel as [|fuel IH]; intros i Hi; simpl.
  - assert (H : drop i d1 = [] \/ drop i d2 = []).
    { destruct (Nat.min_spec (length d1) (length d2)) as [[_ E]|[_ E]].
      - left. apply drop_ge. lia.
      - right. apply drop_ge. lia. }
    destruct H as [-> | ->]; [|destruct (drop i d1)]; simpl; lia.
  - assert (Hlt : (i <? Nat.min (length d1) (length d2))%nat = true)
      by (apply Nat.ltb_lt; lia).
    rewrite Hlt. simpl.
    destruct (lookup_lt_is_Some_2 d1 i) as [x Hx]; [lia|].
    destruct (lookup_lt_is_Some_2 d2 i) as [y Hy]; [lia|].
    rewrite (drop_S _ _ _ Hx), (drop_S _ _ _ Hy). cbn [lcp andb].
    change StringPiece.t with (list ascii) in *.
    repeat case_bool_decide; try congruence.
    + rewrite IH by lia. lia.
    + lia.
Qed.

Lemma find_at_None c s pos : forall idx,
  StringPiece.find_at c s pos idx = None <-> c ∉ drop (pos - idx) s.
Proof.
  induction s as [|x s IH]; intros idx; simpl.
  - rewrite drop_nil. split; [intros _; apply not_elem_of_nil|reflexivity].
  - destruct (Nat.leb_spec pos idx) as [Hle|Hgt]; simpl.
    + replace (pos - idx)%nat with 0%nat by lia. simpl.
      destruct (decide (x = c)) as [->|Hne].
      * rewrite bool_decide_eq_true_2 by reflexivity.
        split; [discriminate|]. intros H. exfalso. apply H. left.
      * rewrite bool_decide_eq_false_2 by assumption.
        rewrite IH. replace (pos - S idx)%nat with 0%nat by lia. simpl.
        rewrite not_elem_of_cons. intuition congruence.
    + rewrite IH. replace (pos - idx)%nat with (S (pos - S idx)) by lia. reflexivity.
Qed.

Lemma IsInSamePackage_descriptors_lcp d1 d2 :
  IsInSamePackage_descriptors d1 d2 = true
  <-> (slash ∉ drop (lcp d1 d2) d1) /\ (slash ∉ drop (lcp d1 d2) d2).
Proof.
  unfold IsInSamePackage_descriptors, StringPiece.find.
  rewrite common_prefix_loop_lcp by lia. rewrite !drop_0. cbn [Nat.add].
  pose proof (find_at_None slash d1 (lcp d1 d2) 0) as F1.
  pose proof (find_at_None slash d2 (lcp d1 d2) 0) as F2.
  rewrite Nat.sub_0_r in F1, F2. rewrite <- F1, <- F2. clear F1 F2.
  destruct (StringPiece.find_at slash d1 (lcp d1 d2) 0) as [i|],
           (StringPiece.find_at slash d2 (lcp d1 d2) 0) as [j|];
    repeat case_bool_decide; simpl; intuition congruence.
Qed.

Lemma last_index_None c s : last_index c s = None <-> c ∉ s.
Proof.
  induction s as [|x s IH]; simpl.
  - split; [intros _; apply not_elem_of_nil|reflexivity].
  - rewrite not_elem_of_cons. destruct (last_index c s) as [i|].
    + split; [discriminate|]. intros [_ H]. apply IH in H. discriminate.
    + destruct (decide (x = c)) as [->|Hne].
      * rewrite bool_decide_eq_true_2 by reflexivity. intuition congruence.
      * rewrite bool_decide_eq_false_2 by assumption. intuition.
Qed.

Lemma package_prefix_None d : package_prefix d = None <-> slash ∉ d.
Proof.
  unfold package_prefix. rewrite <- last_index_None.
  destruct (last_index slash d); intuition congruence.
Qed.

Lemma package_prefix_cons x d :
  package_prefix (x :: d)
  = match package_prefix d with
    | Some p => Some (x :: p)
    | None => if bool_decide (x = slash) then Some [] else None
    end.
Proof.
  unfold package_prefix. simpl. destruct (last_index slash d); [reflexivity|].
  destruct (bool_decide (x = slash)); reflexivity.
Qed.

(** On descriptors, IsInSamePackage compares the package prefixes. *)
Lemma IsInSamePackage_descriptors_prefix d1 d2 :
  IsInSamePackage_descriptors d1 d2 = true <-> package_prefix d1 = package_prefix d2.
Proof.
  rewrite IsInSamePackage_descriptors_lcp.
  revert d2. induction d1 as [|x a IH]; intros [|y b].
  - simpl. split; [reflexivity|]. intros _. split; apply not_elem_of_nil.
  - cbn [lcp drop]. rewrite <- !package_prefix_None.
    change (package_prefix []) with (@None StringPiece.t).
    split; [intros [_ ->]; reflexivity|]. intros <-. split; reflexivity.
  - cbn [lcp drop]. rewrite <- !package_prefix_None.
    change (package_prefix []) with (@None StringPiece.t).
    split; [intros [-> _]; reflexivity|]. intros ->. split; reflexivity.
  - cbn [lcp]. destruct (decide (x = y)) as [->|Hne].
    + rewrite bool_decide_eq_true_2 by reflexivity. cbn [drop]. rewrite IH.
      rewrite !package_prefix_cons.
      destruct (package_prefix a) as [p|], (package_prefix b) as [q|];
        destruct (bool_decide (y = slash)); intuition congruence.
    + rewrite bool_decide_eq_false_2 by assumption. cbn [drop].
      rewrite <- !package_prefix_None. rewrite !package_prefix_cons.
      destruct (package_prefix a) as [p|], (package_prefix b) as [q|];
        destruct (decide (x = slash)) as [Hx|Hx], (decide (y = slash)) as [Hy|Hy];
        repeat (rewrite bool_decide_eq_true_2 by assumption);
        repeat (rewrite bool_decide_eq_false_2 by assumption);
        intuition congruence.
Qed.

Example IsInSamePackage_descriptors_same :
  IsInSamePackage_descriptors (str "Ljava/lang/Object;") (str "Ljava/lang/String;") = true.
Proof. reflexivity. Qed.

Example IsInSamePackage_descriptors_subpackage :
  IsInSamePackage_descriptors (str "Ljava/lang/Object;") (str "Ljava/lang/ref/Reference;")
  = false.
Proof. reflexivity. Qed.

Example IsInSamePackage_descriptors_no_package :
  IsInSamePackage_descriptors (str "LTop;") (str "I") = true
  /\ IsInSamePackage_descriptors (str "LTop;") (str "Ljava/lang/Object;") = false.
Proof. split; reflexivity. Qed.

Section PackageFacts.
Context (rt : Runtime).

Lemma Strips_not_array k n e : Strips rt k n e -> Class.GetComponentType (heap rt e) = None.
Proof. induction 1; auto. Qed.

Lemma Strips_det k n e : Strips rt k n e -> forall n' e', Strips rt k n' e' -> n = n' /\ e = e'.
Proof.
  induction 1 as [k Hk|k c e n Hk Hs IH]; intros n' e' H'; inversion H'; subst; try congruence.
  - auto.
  - assert (c = component) as -> by congruence.
    destruct (IH _ _ H0) as [-> ->]. auto.
Qed.

Lemma strip_arrays_Strips k n e : Strips rt k n e ->
  forall fuel, (n <= fuel)%nat -> strip_arrays rt fuel k = Ret e.
Proof.
  induction 1 as [k Hk|k c e n Hk Hs IH]; intros fuel Hf.
  - destruct fuel; simpl; now rewrite Hk.
  - destruct fuel as [|fuel]; [lia|]. simpl. rewrite Hk. apply IH. lia.
Qed.

Lemma strip_arrays_Ret fuel : forall k e,
  strip_arrays rt fuel k = Ret e -> exists n, Strips rt k n e.
Proof.
  induction fuel as [|fuel IH]; intros k e; simpl;
    destruct (Class.GetComponentType (heap rt k)) as [c|] eqn:Hk; try discriminate.
  - intros [= <-]. exists 0%nat. now constructor.
  - intros H. apply IH in H as [n H]. exists (S n). econstructor; eauto.
  - intros [= <-]. exists 0%nat. now constructor.
Qed.

Lemma strip_arrays_no_abort fuel : forall k why, strip_arrays rt fuel k <> Fatal why.
Proof.
  induction fuel as [|fuel IH]; intros k why; simpl;
    destruct (Class.GetComponentType (heap rt k)); try discriminate. apply IH.
Qed.

Lemma GetDescriptor_element fuel e :
  Class.GetComponentType (heap rt e) = None ->
  GetDescriptor rt fuel e = Ret (element_descriptor rt e).
Proof.
  intros He. unfold element_descriptor.
  destruct fuel; simpl; rewrite He;
    destruct (Class.IsPrimitive (heap rt e)), (Class.IsProxyClass (heap rt e)); reflexivity.
Qed.

(** IsInSamePackage on two types whose element types are known. *)
Lemma IsInSamePackage_Strips fuel k1 k2 n1 n2 e1 e2 :
  Strips rt k1 n1 e1 -> Strips rt k2 n2 e2 -> (n1 <= fuel)%nat -> (n2 <= fuel)%nat ->
  IsInSamePackage rt fuel k1 k2
  = Ret (bool_decide (k1 = k2)
         || bool_decide (Class.GetClassLoader (heap rt k1) = Class.GetClassLoader (heap rt k2))
            && (bool_decide (e1 = e2)
                || IsInSamePackage_descriptors (element_descriptor rt e1)
                     (element_descriptor rt e2))).
Proof.
  intros H1 H2 Hf1 Hf2. unfold IsInSamePackage.
  destruct (bool_decide (k1 = k2)); [reflexivity|]. simpl.
  destruct (bool_decide (Class.GetClassLoader (heap rt k1) = Class.GetClassLoader (heap rt k2)));
    [|reflexivity]. simpl.
  rewrite (strip_arrays_Strips _ _ _ H1 fuel Hf1), (strip_arrays_Strips _ _ _ H2 fuel Hf2).
  simpl. destruct (bool_decide (e1 = e2)); [reflexivity|]. simpl.
  rewrite (GetDescriptor_element fuel e1 (Strips_not_array _ _ _ H1)).
  rewrite (GetDescriptor_element fuel e2 (Strips_not_array _ _ _ H2)).
  reflexivity.
Qed.

Lemma IsInSamePackage_descriptors_sym d1 d2 :
  IsInSamePackage_descriptors d1 d2 = IsInSamePackage_descriptors d2 d1.
Proof.
  apply eq_true_iff_eq. rewrite !IsInSamePackage_descriptors_prefix. split; congruence.
Qed.

Lemma IsInSamePackage_sym fuel k1 k2 :
  IsInSamePackage rt fuel k1 k2 = IsInSamePackage rt fuel k2 k1.
Proof.
  unfold IsInSamePackage.
  repeat case_bool_decide; try congruence; simpl; try reflexivity.
  destruct (strip_arrays rt fuel k1) as [e1|w1|] eqn:E1;
    destruct (strip_arrays rt fuel k2) as [e2|w2|] eqn:E2; simpl; try reflexivity;
    try (exfalso; eapply strip_arrays_no_abort; eassumption).
  repeat case_bool_decide; try congruence.
  - apply strip_arrays_Ret in E1 as [n1 S1], E2 as [n2 S2].
    rewrite !(GetDescriptor_element fuel _ (Strips_not_array _ _ _ S1)).
    rewrite !(GetDescriptor_element fuel _ (Strips_not_array _ _ _ S2)).
    simpl. now rewrite IsInSamePackage_descriptors_sym.
Qed.

End PackageFacts.

(** C8: IsInSamePackage is reflexive and symmetric on every pair of types; it
    holds only if the class loaders of the two types are the same and the
    descriptors of their innermost non-array element types have the same
    package prefix (the string up to the last '/'); and it ends with an
    answer once the fuel covers the array levels of both types. *)
Theorem IsInSamePackage_reflexive_symmetric (rt : Runtime) :
  (forall fuel k, IsInSamePackage rt fuel k k = Ret true)
  /\ (forall fuel k1 k2, IsInSamePackage rt fuel k1 k2 = IsInSamePackage rt fuel k2 k1)
  /\ (forall fuel k1 k2 n1 n2 e1 e2,
        Strips rt k1 n1 e1 -> Strips rt k2 n2 e2 ->
        IsInSamePackage rt fuel k1 k2 = Ret true ->
        Class.GetClassLoader (heap rt k1) = Class.GetClassLoader (heap rt k2)
        /\ package_prefix (element_descriptor rt e1) = package_prefix (element_descriptor rt e2))
  /\ (forall fuel k1 k2 n1 n2 e1 e2,
        Strips rt k1 n1 e1 -> Strips rt k2 n2 e2 -> (n1 <= fuel)%nat -> (n2 <= fuel)%nat ->
        exists b, IsInSamePackage rt fuel k1 k2 = Ret b).
Proof.
  split; [|split; [|split]].
  - intros fuel k. unfold IsInSamePackage. now rewrite bool_decide_eq_true_2.
  - intros. apply IsInSamePackage_sym.
  - intros fuel k1 k2 n1 n2 e1 e2 S1 S2 H.
    unfold IsInSamePackage in H.
    destruct (decide (k1 = k2)) as [->|Hne].
    { destruct (Strips_det _ _ _ _ S1 _ _ S2) as [_ ->]. auto. }
    rewrite bool_decide_eq_false_2 in H by assumption.
    destruct (decide (Class.GetClassLoader (heap rt k1) = Class.GetClassLoader (heap rt k2)))
      as [Hl|Hl].
    2:{ rewrite bool_decide_eq_false_2 in H by assumption. discriminate. }
    rewrite bool_decide_eq_true_2 in H by assumption. simpl in H.
    split; [exact Hl|].
    destruct (strip_arrays rt fuel k1) as [e1'| |] eqn:E1; simpl in H; try discriminate.
    destruct (strip_arrays rt fuel k2) as [e2'| |] eqn:E2; simpl in H; try discriminate.
    apply strip_arrays_Ret in E1 as [m1 S1'], E2 as [m2 S2'].
    destruct (Strips_det _ _ _ _ S1 _ _ S1') as [_ <-].
    destruct (Strips_det _ _ _ _ S2 _ _ S2') as [_ <-].
    destruct (decide (e1 = e2)) as [->|Hne']; [reflexivity|].
    rewrite bool_decide_eq_false_2 in H by assumption.
    rewrite (GetDescriptor_element rt fuel e1 (Strips_not_array _ _ _ _ S1)) in H.
    rewrite (GetDescriptor_element rt fuel e2 (Strips_not_array _ _ _ _ S2)) in H.
    simpl in H. injection H as H. now apply IsInSamePackage_descriptors_prefix.
  - intros fuel k1 k2 n1 n2 e1 e2 S1 S2 Hf1 Hf2.
    rewrite (IsInSamePackage_Strips rt fuel k1 k2 n1 n2 e1 e2); eauto.
Qed.

(** Types of different loaders are not in the same package; two types of one
    loader with the same package prefix are; fuel below the array levels of a
    type gives no answer. *)
Example IsInSamePackage_other_loader :
  IsInSamePackage example_package_rt 2 0%nat 6%nat = Ret false
  /\ IsInSamePackage example_package_rt 2 6%nat 7%nat = Ret true
  /\ IsInSamePackage example_package_rt 1 1%nat 3%nat = OutOfFuel.
Proof. repeat split. Qed.

Lemma IsInSamePackage_reflexive_symmetric_witness :
  IsInSamePackage example_package_rt 2 1%nat 3%nat = Ret true
  /\ IsInSamePackage example_package_rt 2 3%nat 1%nat = Ret true
  /\ package_prefix (element_descriptor example_package_rt 0%nat)
     = package_prefix (element_descriptor example_package_rt 5%nat).
Proof.
  destruct (IsInSamePackage_reflexive_symmetric example_package_rt) as (_ & Hsym & Honly & _).
  assert (S1 : Strips example_package_rt 1%nat 1 0%nat).
  { eapply Strips_array; [reflexivity|]. now apply Strips_base. }
  assert (S3 : Strips example_package_rt 3%nat 2 5%nat).
  { eapply Strips_array; [reflexivity|]. eapply Strips_array; [reflexivity|].
    now apply Strips_base. }
  split; [reflexivity|]. split; [rewrite Hsym; reflexivity|].
  apply (Honly 2%nat 1%nat 3%nat 1%nat 2%nat 0%nat 5%nat S1 S3). reflexivity.
Defined.

(** ** FindStaticField *)

Section StaticFieldFacts.
Context (rt : Runtime).


Lemma FindFieldByNameAndType_Ret dbg fields name type r :
  FindFieldByNameAndType dbg fields name type = Ret r ->
  r = match fields with Some l => binary_search l name type | None => None end.
Proof.
  unfold FindFieldByNameAndType. destruct fields as [l|]; [|congruence].
  destruct dbg; simpl; [|congruence].
  destruct (bool_decide _); simpl; congruence.
Qed.

Lemma FindDeclaredStaticField_Ret dbg k name type r :
  FindDeclaredStaticField rt dbg k name type = Ret r -> r = declared_static rt k name type.
Proof.
  unfold FindDeclaredStaticField, declared_static. intros H.
  destruct (DCHECK dbg _); simpl in H; try discriminate.
  destruct (FindFieldByNameAndType dbg _ name type) as [o| |] eqn:E; simpl in H;
    try discriminate.
  apply FindFieldByNameAndType_Ret in E. subst o. injection H as <-.
  destruct (Class.sfields_ (heap rt k)); reflexivity.
Qed.

Lemma FindDeclaredStaticField_release k name type :
  FindDeclaredStaticField rt false k name type = Ret (declared_static rt k name type).
Proof.
  unfold FindDeclaredStaticField, declared_static, FindFieldByNameAndType. simpl.
  destruct (Class.sfields_ (heap rt k)); reflexivity.
Qed.


(** Below the number of direct interfaces the build without DCHECKs
    returns. *)
Lemma GetDirectInterface_release k i :
  (i < NumDirectInterfaces (heap rt k))%nat ->
  GetDirectInterface rt false k i = Ret (direct_interface rt k i).
Proof.
  intros Hi.
  assert (H : exists o, GetDirectInterface rt false k i = Ret o).
  { revert Hi. unfold NumDirectInterfaces, GetDirectInterface, GetDirectInterfaceTypeIdx.
    simpl. destruct (Class.IsPrimitive (heap rt k)); [lia|].
    destruct (Class.IsArrayClass (heap rt k)); [destruct (i =? 0)%nat; eauto|].
    destruct (Class.IsProxyClass (heap rt k)).
    - destruct (Class.interfaces_ (heap rt k)); [eauto|lia].
    - destruct (Class.interface_type_list_ (heap rt k)) as [l|]; [|lia].
      intros Hl. destruct (lookup_lt_is_Some_2 l i Hl) as [t ->]. eauto. }
  destruct H as [o H]. unfold direct_interface. now rewrite H.
Qed.

(** What a debug build returns, the other build returns. *)
Lemma GetDirectInterface_debug k i o :
  GetDirectInterface rt true k i = Ret o -> GetDirectInterface rt false k i = Ret o.
Proof.
  unfold GetDirectInterface, GetDirectInterfaceTypeIdx, DCHECK. simpl.
  destruct (negb (negb (Class.IsPrimitive (heap rt k)))); simpl; [discriminate|].
  destruct (Class.IsArrayClass (heap rt k)); simpl.
  - destruct (i =? 0)%nat; simpl.
    + destruct (negb (bool_decide _)); simpl; [discriminate|congruence].
    + destruct (negb (i =? 1)%nat); simpl; [discriminate|].
      destruct (negb (bool_decide _)); simpl; [discriminate|congruence].
  - destruct (Class.IsProxyClass (heap rt k)); simpl.
    + destruct (negb (bool_decide _)); simpl; [discriminate|congruence].
    + congruence.
Qed.

Lemma GetDirectInterface_Ret dbg k i o :
  GetDirectInterface rt dbg k i = Ret o -> o = direct_interface rt k i.
Proof.
  intros H. assert (Hr : GetDirectInterface rt false k i = Ret o).
  { destruct dbg; [now apply GetDirectInterface_debug|exact H]. }
  unfold direct_interface. now rewrite Hr.
Qed.


Lemma first_hit_app l1 l2 name type :
  first_hit rt (l1 ++ l2) name type
  = match first_hit rt l1 name type with
    | Some f => Some f
    | None => first_hit rt l2 name type
    end.
Proof.
  induction l1 as [|k l IH]; simpl; [reflexivity|].
  destruct (declared_static rt k name type); auto.
Qed.

(** The loop over the direct interfaces, given what the recursive call
    returns. *)
Lemma interfaces_loop_Ret (rec : option ClassRef -> Res (option FieldPtr)) fuel dbg k
    name type :
  (forall o r, rec o = Ret r -> r = first_hit rt (search_order rt fuel o) name type) ->
  forall n i r,
  interfaces_loop rt rec dbg k i n = Ret r ->
  r = first_hit rt (flat_map (search_order rt fuel) (map (direct_interface rt k) (seq i n)))
        name type.
Proof.
  intros Hrec. induction n as [|n IH]; intros i r H; simpl in H.
  - injection H as <-. reflexivity.
  - destruct (GetDirectInterface rt dbg k i) as [o| |] eqn:Eg; simpl in H; try discriminate.
    apply GetDirectInterface_Ret in Eg. subst o.
    destruct (DCHECK dbg _); simpl in H; try discriminate.
    destruct (rec (direct_interface rt k i)) as [f| |] eqn:Er; simpl in H; try discriminate.
    apply Hrec in Er. simpl. rewrite first_hit_app, <- Er.
    destruct f as [f|]; [congruence|]. now apply IH.
Qed.

Lemma FindStaticField_Ret name type : forall fuel dbg klass r,
  FindStaticField rt fuel dbg klass name type = Ret r ->
  r = first_hit rt (search_order rt fuel klass) name type.
Proof.
  induction fuel as [|fuel IH]; intros dbg [k|] r H; simpl in H; try discriminate;
    try (injection H as <-; reflexivity).
  destruct (FindDeclaredStaticField rt dbg k name type) as [f| |] eqn:Ed; simpl in H;
    try discriminate.
  apply FindDeclaredStaticField_Ret in Ed. cbn [search_order first_hit]. rewrite <- Ed.
  destruct f as [f|]; [congruence|].
  rewrite first_hit_app.
  destruct (interfaces_loop rt _ dbg k 0 (NumDirectInterfaces (heap rt k))) as [f| |] eqn:Ei;
    simpl in H; try discriminate.
  apply (interfaces_loop_Ret _ fuel dbg k name type) in Ei; [|intros o r'; apply IH].
  unfold direct_interfaces. rewrite <- Ei.
  destruct f as [f|]; [congruence|]. now apply (IH dbg).
Qed.






End StaticFieldFacts.




(** ** EnsureExtDataPresent under a race *)

(** A step of a caller keeps an installed record in place and leaves the
    caller in a state that is in order. *)
Lemma ensure_step_ok dbg (h h' : Heap) (self0 self self' : Thread) (pc pc' : Pc) :
  caller_ok (Class.GetExtData (klass h)) self0 self pc ->
  ensure_step dbg h self pc = (h', self', pc') ->
  caller_ok (Class.GetExtData (klass h')) self0 self' pc'
  /\ (forall e, Class.GetExtData (klass h) = Some e -> Class.GetExtData (klass h') = Some e).
Proof.
  intros Hok Hstep. destruct pc as [|t|t n|t n|t n|ret|why]; simpl in Hstep, Hok.
  - destruct (Class.GetExtData (klass h)) as [e|] eqn:He; injection Hstep as <- <- <-.
    + subst self. simpl. rewrite He. auto.
    + subst self. simpl. rewrite He. split; [auto|discriminate].
  - destruct Hok as [-> Hn]. unfold ClassExt_Alloc in Hstep.
    destruct (room h) as [|r]; simpl in Hstep; injection Hstep as <- <- <-; simpl; auto.
  - destruct Hok as [-> Hn]. unfold CasExtData in Hstep.
    destruct (Class.GetExtData (klass h)) as [e|] eqn:He; simpl in Hstep.
    + injection Hstep as <- <- <-. simpl. rewrite He. split; [|auto].
      repeat split; auto.
    + destruct dbg.
      * injection Hstep as <- <- <-. simpl. split; [auto|discriminate].
      * unfold finish_pc, ensure_finish in Hstep. simpl in Hstep.
        injection Hstep as <- <- <-. simpl. split; [|discriminate].
        split; [reflexivity|].
        destruct (GetException self0) as [t|] eqn:E0; simpl; [reflexivity|exact Hn].
  - destruct Hok as (-> & Hn & He). rewrite He in Hstep.
    rewrite bool_decide_eq_true_2 in Hstep by reflexivity.
    unfold finish_pc, ensure_finish in Hstep. simpl in Hstep.
    injection Hstep as <- <- <-. simpl. split; [|auto].
    split; [exact He|].
    destruct (GetException self0) as [t|] eqn:E0; simpl; [reflexivity|exact Hn].
  - destruct Hok as (-> & Hn & He).
    destruct (Class.GetExtData (klass h)) as [e|] eqn:Hslot; [|congruence].
    unfold finish_pc, ensure_finish in Hstep. simpl in Hstep.
    injection Hstep as <- <- <-. simpl. rewrite Hslot. split; [|auto].
    split; [reflexivity|].
    destruct (GetException self0) as [t|] eqn:E0; simpl; [reflexivity|exact Hn].
  - injection Hstep as <- <- <-. auto.
  - destruct Hok.
Qed.

Lemma caller_ok_mono (installed installed' : option ExtRef) self0 self pc :
  (forall e, installed = Some e -> installed' = Some e) ->
  caller_ok installed self0 self pc -> caller_ok installed' self0 self pc.
Proof.
  intros Hm. destruct pc as [|t|t n|t n|t n|[ret|]|why]; simpl; auto.
  - intros (? & ? & ?). auto.
  - intros (? & ? & Hi). repeat split; auto.
    destruct installed as [e|]; [|congruence]. rewrite (Hm e eq_refl). discriminate.
  - intros [? ?]. auto.
Qed.

(** All callers are in order in every state the race reaches. *)
Lemma race_invariant dbg (h : Heap) (callers : list Thread) (s : Sys) :
  rtc (sys_step dbg) (sys_init h callers) s ->
  length (threads s) = length callers
  /\ forall i self0 self pc,
       callers !! i = Some self0 -> threads s !! i = Some (self, pc) ->
       caller_ok (slot s) self0 self pc.
Proof.
  intros Hr. pattern s. revert s Hr. apply rtc_ind_r; [|intros s s' Hr Hstep IH].
  - split; [apply length_map|].
    intros i self0 self pc H0 Hi. simpl in Hi. rewrite list_lookup_fmap, H0 in Hi.
    injection Hi as <- <-. reflexivity.
  - destruct IH as [Hlen IH].
    destruct Hstep as [s i self self' pc pc' h' Hi Hs]. simpl.
    split; [now rewrite length_insert|].
    intros j self0 selfj pcj H0 Hj. unfold slot. simpl.
    destruct (callers !! i) as [selfi0|] eqn:Hi0.
    2:{ apply lookup_ge_None in Hi0. apply lookup_lt_Some in Hi. lia. }
    destruct (ensure_step_ok dbg _ _ _ _ _ _ _ (IH i selfi0 self pc Hi0 Hi) Hs) as [Hok Hmono].
    destruct (decide (i = j)) as [<-|Hne].
    + rewrite list_lookup_insert_eq in Hj by (eapply lookup_lt_Some; eauto).
      injection Hj as <- <-. congruence.
    + rewrite list_lookup_insert_ne in Hj by assumption.
      eapply caller_ok_mono; [exact Hmono|]. now apply (IH j).
Qed.

Lemma run_schedule_reaches dbg schedule : forall s,
  rtc (sys_step dbg) s (run_schedule dbg schedule s).
Proof.
  induction schedule as [|i rest IH]; intros s; simpl; [reflexivity|].
  destruct (threads s !! i) as [[self pc]|] eqn:Hi; [|apply IH].
  destruct (ensure_step dbg (shared s) self pc) as [[h' self'] pc'] eqn:Hs.
  eapply rtc_l; [|apply IH]. econstructor; eauto.
Qed.

(** The function of one thread is the step machine run on its own. *)
Lemma run_alone_EnsureExtDataPresent dbg (h : Heap) (self : Thread) :
  exists h' self' ret,
    EnsureExtDataPresent dbg h self = Ret (h', self', ret)
    /\ run_alone dbg 4 h self AtEntry = (h', self', Returned ret).
Proof.
  rewrite EnsureExtDataPresent_alone. unfold run_alone. cbn [ensure_step].
  destruct (Class.GetExtData (klass h)) as [e|] eqn:He.
  - exists h, self, (Some e). split; reflexivity.
  - cbn [ensure_step]. unfold ClassExt_Alloc. destruct (room h) as [|r] eqn:Hr.
    + do 3 eexists. split; reflexivity.
    + do 3 eexists. split; [reflexivity|].
      cbn [ensure_step fst snd]. unfold CasExtData. cbn [klass]. rewrite He.
      destruct dbg; cbn [ensure_step set_klass klass Class.GetExtData Class.set_ext_data
                           Class.ext_data_].
      * rewrite bool_decide_eq_true_2 by reflexivity.
        unfold finish_pc, ensure_finish. simpl. rewrite Thread_restore. reflexivity.
      * unfold finish_pc, ensure_finish. simpl. rewrite Thread_restore. reflexivity.
Qed.

(** C7: EnsureExtDataPresent returns the ClassExt that is installed and
    changes nothing when there is one; otherwise it allocates a record and
    installs it by a compare-and-swap from empty, or returns none with an
    OutOfMemoryError pending when nothing can be allocated.  However the
    callers of a race are scheduled, an installed record is never replaced,
    each caller that returns a record returns the installed one with the
    failure it had pending on entry pending again, each caller that returns
    none has an OutOfMemoryError pending, and no caller aborts. *)
Theorem EnsureExtDataPresent_installs_once (kIsDebugBuild : bool) :
  (forall h self existing,
     Class.GetExtData (klass h) = Some existing ->
     EnsureExtDataPresent kIsDebugBuild h self = Ret (h, self, Some existing))
  /\ (forall h self,
        Class.GetExtData (klass h) = None -> room h <> O ->
        exists h',
          EnsureExtDataPresent kIsDebugBuild h self = Ret (h', self, Some (next_ext h))
          /\ Class.GetExtData (klass h') = Some (next_ext h))
  /\ (forall h self,
        Class.GetExtData (klass h) = None -> room h = O ->
        EnsureExtDataPresent kIsDebugBuild h self
        = Ret (h, SetException self OutOfMemoryError, None))
  /\ (forall h self,
        exists h' self' ret,
          EnsureExtDataPresent kIsDebugBuild h self = Ret (h', self', ret)
          /\ run_alone kIsDebugBuild 4 h self AtEntry = (h', self', Returned ret))
  /\ (forall h callers s,
        rtc (sys_step kIsDebugBuild) (sys_init h callers) s ->
        (forall s' e, sys_step kIsDebugBuild s s' -> slot s = Some e -> slot s' = Some e)
        /\ (forall i self0 self pc,
              callers !! i = Some self0 -> threads s !! i = Some (self, pc) ->
              caller_ok (slot s) self0 self pc)).
Proof.
  repeat split.
  - intros h self e He. rewrite EnsureExtDataPresent_alone, He. reflexivity.
  - intros h self He Hr. rewrite EnsureExtDataPresent_alone, He.
    destruct (room h); [congruence|]. eexists. split; reflexivity.
  - intros h self He Hr. rewrite EnsureExtDataPresent_alone, He, Hr. reflexivity.
  - apply run_alone_EnsureExtDataPresent.
  - intros s' e Hstep He.
    destruct (race_invariant _ _ _ _ H) as [Hlen Hinv].
    destruct Hstep as [s i self self' pc pc' h' Hi Hs]. unfold slot in *. simpl.
    destruct (callers !! i) as [selfi0|] eqn:Hi0.
    2:{ apply lookup_ge_None in Hi0. apply lookup_lt_Some in Hi. lia. }
    destruct (ensure_step_ok _ _ _ _ _ _ _ _ (Hinv i selfi0 self pc Hi0 Hi) Hs) as [_ Hmono].
    auto.
  - intros i self0 self pc. now apply (race_invariant kIsDebugBuild h callers s).
Qed.

Lemma EnsureExtDataPresent_installs_once_witness :
  threads (run_schedule false race_schedule race_init)
  = [(example_thread (Some (OtherThrowable 7)), Returned (Some 0%nat));
     (example_thread None, Returned (Some 0%nat))]
  /\ caller_ok (slot (run_schedule false race_schedule race_init))
       (example_thread None) (example_thread None) (Returned (Some 0%nat)).
Proof.
  split; [reflexivity|].
  destruct (EnsureExtDataPresent_installs_once false) as (_ & _ & _ & _ & Hrace).
  apply (proj2 (Hrace _ _ _ (run_schedule_reaches false race_schedule race_init)) 1%nat);
    reflexivity.
Defined.

(** * More properties *)

(** ** The binary search on any table *)

Lemma bsearch_loop_sound fields name type : forall fuel low high i,
  bsearch_loop fuel fields name type low high = Some i ->
  (low <= i < high)%nat
  /\ exists f, fields !! i = Some f /\ key_of f = (name, type).
Proof.
  induction fuel as [|fuel IH]; intros low high i H; [discriminate|].
  cbn [bsearch_loop] in H. destruct (low <? high)%nat eqn:Hlt; [|discriminate].
  apply Nat.ltb_lt in Hlt. cbv zeta in H.
  pose proof (mid_bounds low high Hlt) as Hmid.
  set (mid := ((low + high) / 2)%nat) in *. clearbody mid.
  destruct (fields !! mid) as [field|] eqn:Hf; [|discriminate].
  pose proof (loop_result_sign field name type) as Hsign. cbv zeta in Hsign.
  rewrite Hsign in H. clear Hsign.
  destruct (key_cmp (key_of field) (name, type)) eqn:Hc; simpl in H.
  - injection H as <-. split; [lia|]. exists field. split; [exact Hf|].
    now apply key_cmp_eq.
  - apply IH in H as [Hi Hx]. split; [lia|exact Hx].
  - apply IH in H as [Hi Hx]. split; [lia|exact Hx].
Qed.

(** X1: whatever the order of the table, a field that FindFieldByNameAndType
    returns has the name and the type of the query. *)
Theorem FindFieldByNameAndType_sound
    (kIsDebugBuild : bool) (fields : option (list ArtField.t)) (name type : StringPiece.t)
    (i : nat) :
  FindFieldByNameAndType kIsDebugBuild fields name type = Ret (Some i) ->
  exists l f,
    fields = Some l /\ l !! i = Some f
    /\ ArtField.GetName f = name /\ ArtField.GetTypeDescriptor f = type.
Proof.
  intros H. apply FindFieldByNameAndType_Ret in H.
  destruct fields as [l|]; [|discriminate].
  symmetry in H. apply bsearch_loop_sound in H as (_ & f & Hf & Hk).
  exists l, f. unfold key_of in Hk. injection Hk as -> ->. auto.
Qed.

Lemma FindFieldByNameAndType_sound_witness :
  exists l f,
    Some (rev three_fields) = Some l /\ l !! 1%nat = Some f
    /\ ArtField.GetName f = str "a" /\ ArtField.GetTypeDescriptor f = str "J".
Proof.
  apply (FindFieldByNameAndType_sound false (Some (rev three_fields)) (str "a") (str "J") 1).
  reflexivity.
Defined.

Lemma mid_double low high :
  (2 * ((low + high) / 2) <= low + high < 2 * ((low + high) / 2) + 2)%nat.
Proof.
  pose proof (Nat.div_mod_eq (low + high) 2) as E.
  pose proof (Nat.mod_upper_bound (low + high) 2). lia.
Qed.

Lemma bsearch_loop_log fields name type : forall fuel fuel' low high,
  (high - low < 2 ^ fuel)%nat -> (fuel <= fuel')%nat ->
  bsearch_loop fuel fields name type low high = bsearch_loop fuel' fields name type low high.
Proof.
  induction fuel as [|fuel IH]; intros fuel' low high Hsz Hf.
  - simpl in Hsz. destruct fuel'; simpl; [reflexivity|].
    assert ((low <? high)%nat = false) as -> by (apply Nat.ltb_ge; lia). reflexivity.
  - destruct fuel' as [|fuel']; [lia|].
    cbn [bsearch_loop]. destruct (low <? high)%nat eqn:Hlt; [|reflexivity].
    apply Nat.ltb_lt in Hlt. cbv zeta.
    pose proof (mid_double low high) as Hmid.
    rewrite Nat.pow_succ_r' in Hsz.
    set (mid := ((low + high) / 2)%nat) in *. clearbody mid.
    destruct (fields !! mid); [|reflexivity].
    repeat match goal with |- context [if ?b then _ else _] => destruct b end;
      try reflexivity; apply IH; lia.
Qed.

Lemma bsearch_loop_enough (fields : list ArtField.t) (name type : StringPiece.t)
    (fuel : nat) :
  (length fields < 2 ^ fuel)%nat ->
  bsearch_loop fuel fields name type 0 (length fields) = binary_search fields name type.
Proof.
  intros H. unfold binary_search.
  destruct (Nat.le_ge_cases fuel (length fields)) as [Hle|Hge].
  - apply bsearch_loop_log; [lia|exact Hle].
  - symmetry. apply bsearch_loop_log; [|exact Hge].
    pose proof (Nat.pow_gt_lin_r 2 (length fields)). lia.
Qed.

(** The counted loop ends within [fuel] iterations on a stretch of fewer than
    2 ^ [fuel] entries. *)
Lemma bsearch_loop_bounded_ends fields name type : forall fuel low high,
  (high <= length fields)%nat -> (high - low < 2 ^ fuel)%nat ->
  bsearch_loop_bounded fuel fields name type low high
  = Ret (bsearch_loop fuel fields name type low high).
Proof.
  induction fuel as [|fuel IH]; intros low high Hhigh Hsz.
  - simpl in Hsz. simpl.
    assert ((low <? high)%nat = false) as -> by (apply Nat.ltb_ge; lia). reflexivity.
  - cbn [bsearch_loop_bounded bsearch_loop].
    destruct (low <? high)%nat eqn:Hlt; [|reflexivity].
    apply Nat.ltb_lt in Hlt. cbv zeta.
    pose proof (mid_double low high) as Hmid.
    rewrite Nat.pow_succ_r' in Hsz.
    set (mid := ((low + high) / 2)%nat) in *. clearbody mid.
    destruct (fields !! mid) as [field|] eqn:Ef.
    2:{ apply lookup_ge_None in Ef. lia. }
    repeat match goal with |- context [if ?b then _ else _] => destruct b end;
      try reflexivity; apply IH; lia.
Qed.

(** The counted loop and the loop agree wherever the counted one returns. *)
Lemma bsearch_loop_bounded_Ret fields name type : forall fuel low high r,
  bsearch_loop_bounded fuel fields name type low high = Ret r ->
  bsearch_loop fuel fields name type low high = r.
Proof.
  induction fuel as [|fuel IH]; intros low high r.
  - simpl. destruct (low <? high)%nat; [discriminate|]. now intros [= <-].
  - cbn [bsearch_loop_bounded bsearch_loop].
    destruct (low <? high)%nat; [|now intros [= <-]]. cbv zeta.
    destruct (fields !! ((low + high) / 2)%nat) as [field|]; [|discriminate].
    repeat match goal with |- context [if ?b then _ else _] => destruct b end;
      try apply IH. now intros [= <-].
Qed.

(** X2: the loop of FindFieldByNameAndType ends within [fuel] iterations as
    soon as the table has fewer than 2 ^ [fuel] entries, sorted or not: the
    loop with its iterations counted returns within [fuel] iterations, and
    what it returns is the result of the search; and whenever the counted loop
    returns within some number of iterations, it returns the result of the
    search. *)
Theorem binary_search_logarithmic (fields : list ArtField.t) (name type : StringPiece.t)
    (fuel : nat) :
  ((length fields < 2 ^ fuel)%nat ->
   bsearch_loop_bounded fuel fields name type 0 (length fields)
   = Ret (binary_search fields name type))
  /\ (forall r,
        bsearch_loop_bounded fuel fields name type 0 (length fields) = Ret r ->
        r = binary_search fields name type).
Proof.
  assert (Hlog : (length fields < 2 ^ length fields)%nat)
    by (apply Nat.pow_gt_lin_r; lia).
  split.
  - intros H. rewrite bsearch_loop_bounded_ends by lia.
    now rewrite bsearch_loop_enough.
  - intros r H.
    destruct (Nat.le_ge_cases fuel (length fields)) as [Hle|Hge].
    + assert (Hmore : forall n low high r',
                bsearch_loop_bounded n fields name type low high = Ret r' ->
                forall m, (n <= m)%nat ->
                bsearch_loop_bounded m fields name type low high = Ret r').
      { induction n as [|n IHn]; intros low high r' Hn m Hm.
        - simpl in Hn. destruct (low <? high)%nat eqn:E; [discriminate|].
          destruct m; simpl; now rewrite E.
        - destruct m as [|m]; [lia|]. revert Hn. cbn [bsearch_loop_bounded].
          destruct (low <? high)%nat; [|auto]. cbv zeta.
          destruct (fields !! ((low + high) / 2)%nat) as [field|]; [|auto].
          repeat match goal with |- context [if ?b then _ else _] => destruct b end;
            auto; intros Hn; apply IHn; auto; lia. }
      apply (Hmore _ _ _ _ H (length fields)) in Hle.
      rewrite bsearch_loop_bounded_ends in Hle by lia.
      unfold binary_search. congruence.
    + apply bsearch_loop_bounded_Ret in H. rewrite <- H.
      unfold binary_search. symmetry. apply bsearch_loop_log; [lia|exact Hge].
Qed.

Lemma binary_search_logarithmic_witness :
  bsearch_loop_bounded 2 three_fields (str "zz") (str "I") 0 (length three_fields)
  = Ret (binary_search three_fields (str "zz") (str "I"))
  /\ bsearch_loop_bounded 2 three_fields (str "b") (str "I") 0 (length three_fields)
     = Ret (binary_search three_fields (str "b") (str "I")).
Proof.
  destruct (binary_search_logarithmic three_fields (str "zz") (str "I") 2) as [Ha _].
  destruct (binary_search_logarithmic three_fields (str "b") (str "I") 2) as [Hb _].
  split; [apply Ha|apply Hb]; simpl; lia.
Defined.

(** With too few iterations the counted loop does not end. *)
Example bsearch_loop_bounded_cut_short :
  bsearch_loop_bounded 1 three_fields (str "zz") (str "I") 0 (length three_fields)
  = OutOfFuel
  /\ bsearch_loop_bounded 2 three_fields (str "zz") (str "I") 0 (length three_fields)
     = Ret None.
Proof. split; reflexivity. Qed.

(** X3: in a table in strictly ascending order the binary search returns an
    index exactly when the field at that index has the name and the type of
    the query; no other index holds such a field. *)
Theorem binary_search_finds_the_key (fields : list ArtField.t) (name type : StringPiece.t) :
  strictly_ascending fields = true ->
  forall i,
    binary_search fields name type = Some i
    <-> exists f, fields !! i = Some f /\ key_of f = (name, type).
Proof.
  intros Hs i. split.
  - intros H. now apply bsearch_loop_sound in H as [_ H].
  - intros (f & Hf & Hk). unfold binary_search.
    rewrite bsearch_loop_correct; auto; try lia.
    + unfold linear_scan.
      rewrite (linear_scan_from_found fields name type 0 i f Hf Hk); [reflexivity|].
      intros j g Hj Hg Hk'.
      pose proof (strictly_ascending_lookup fields j i g f Hs Hj Hg Hf) as Hlt.
      rewrite Hk, Hk' in Hlt. rewrite (proj2 (key_cmp_eq _ _) eq_refl) in Hlt. discriminate.
    + intros j g Hj Hg. apply lookup_lt_Some in Hg. lia.
Qed.

Lemma binary_search_finds_the_key_witness :
  binary_search three_fields (str "a") (str "J") = Some 1%nat.
Proof.
  apply (binary_search_finds_the_key three_fields (str "a") (str "J") eq_refl 1%nat).
  eexists. split; reflexivity.
Defined.

(** ** The field walks *)

Section FieldWalkFacts.
Context (rt : Runtime).

Lemma FindDeclaredInstanceField_Ret dbg k name type r :
  FindDeclaredInstanceField rt dbg k name type = Ret r -> r = declared_instance rt k name type.
Proof.
  unfold FindDeclaredInstanceField, declared_instance. intros H.
  destruct (FindFieldByNameAndType dbg _ name type) as [o| |] eqn:E; simpl in H;
    try discriminate.
  apply FindFieldByNameAndType_Ret in E. subst o. injection H as <-.
  destruct (Class.ifields_ (heap rt k)); reflexivity.
Qed.

Lemma FindDeclaredInstanceField_release k name type :
  FindDeclaredInstanceField rt false k name type = Ret (declared_instance rt k name type).
Proof.
  unfold FindDeclaredInstanceField, declared_instance, FindFieldByNameAndType. simpl.
  destruct (Class.ifields_ (heap rt k)); reflexivity.
Qed.

Lemma first_some_In {A} (look : ClassRef -> option A) order a :
  first_some look order = Some a -> exists k, In k order /\ look k = Some a.
Proof.
  induction order as [|k l IH]; simpl; [discriminate|].
  destruct (look k) as [b|] eqn:E.
  - intros [= <-]. eauto.
  - intros H. destruct (IH H) as (k' & Hin & Hk). eauto.
Qed.

Lemma first_hit_In order name type p :
  first_hit rt order name type = Some p ->
  exists k, In k order /\ declared_static rt k name type = Some p.
Proof.
  induction order as [|k l IH]; simpl; [discriminate|].
  destruct (declared_static rt k name type) as [b|] eqn:E.
  - intros [= <-]. eauto.
  - intros H. destruct (IH H) as (k' & Hin & Hk). eauto.
Qed.

Lemma declared_static_sound k name type p :
  declared_static rt k name type = Some p ->
  fp_owner p = k /\ fp_static p = true
  /\ exists f, deref_field rt p = Some f
               /\ ArtField.GetName f = name /\ ArtField.GetTypeDescriptor f = type.
Proof.
  unfold declared_static, deref_field, GetSFields.
  destruct (Class.sfields_ (heap rt k)) as [l|] eqn:El; [|discriminate].
  destruct (binary_search l name type) as [i|] eqn:Eb; [|discriminate].
  intros [= <-]. simpl. rewrite El.
  apply bsearch_loop_sound in Eb as (_ & f & Hf & Hk).
  unfold key_of in Hk. injection Hk as Hn Ht.
  split; [reflexivity|]. split; [reflexivity|]. exists f. auto.
Qed.

Lemma declared_instance_sound k name type p :
  declared_instance rt k name type = Some p ->
  fp_owner p = k /\ fp_static p = false
  /\ exists f, deref_field rt p = Some f
               /\ ArtField.GetName f = name /\ ArtField.GetTypeDescriptor f = type.
Proof.
  unfold declared_instance, deref_field, GetIFields.
  destruct (Class.ifields_ (heap rt k)) as [l|] eqn:El; [|discriminate].
  destruct (binary_search l name type) as [i|] eqn:Eb; [|discriminate].
  intros [= <-]. simpl. rewrite El.
  apply bsearch_loop_sound in Eb as (_ & f & Hf & Hk).
  unfold key_of in Hk. injection Hk as Hn Ht.
  split; [reflexivity|]. split; [reflexivity|]. exists f. auto.
Qed.

Lemma FindInstanceField_Ret name type : forall fuel dbg c r,
  FindInstanceField rt fuel dbg c name type = Ret r ->
  r = first_some (fun k => declared_instance rt k name type) (super_chain rt fuel c).
Proof.
  induction fuel as [|fuel IH]; intros dbg [k|] r H; simpl in H; try discriminate;
    try (injection H as <-; reflexivity).
  destruct (FindDeclaredInstanceField rt dbg k name type) as [f| |] eqn:Ed; simpl in H;
    try discriminate.
  apply FindDeclaredInstanceField_Ret in Ed. cbn [super_chain first_some]. rewrite <- Ed.
  destruct f as [f|]; [congruence|]. now apply (IH dbg).
Qed.

Lemma FindInstanceField_release_returns name type : forall fuel c,
  (forall k, c = Some k -> (length (super_chain rt fuel c) < fuel)%nat) ->
  exists r, FindInstanceField rt fuel false c name type = Ret r.
Proof.
  induction fuel as [|fuel IH]; intros [k|] Hk; simpl; eauto.
  - specialize (Hk k eq_refl). lia.
  - specialize (Hk k eq_refl). simpl in Hk.
    rewrite FindDeclaredInstanceField_release. simpl.
    destruct (declared_instance rt k name type); [eauto|].
    apply IH. intros s Hs. lia.
Qed.

(** A result of the interface loop has every property that the results of
    the recursive call have. *)
Lemma interfaces_loop_Some (P : FieldPtr -> Prop)
    (rec : option ClassRef -> Res (option FieldPtr)) dbg k :
  (forall o p, rec o = Ret (Some p) -> P p) ->
  forall n i p, interfaces_loop rt rec dbg k i n = Ret (Some p) -> P p.
Proof.
  intros Hrec. induction n as [|n IH]; intros i p H; simpl in H; [discriminate|].
  destruct (GetDirectInterface rt dbg k i) as [o| |]; simpl in H; try discriminate.
  destruct (DCHECK dbg _); simpl in H; try discriminate.
  destruct (rec o) as [[f|]| |] eqn:Er; simpl in H; try discriminate.
  - injection H as <-. eauto.
  - eauto.
Qed.

(** What the debug build checks on the way does not change what the loop
    returns. *)
Lemma interfaces_loop_debug (rec_debug rec_release : option ClassRef -> Res (option FieldPtr))
    k :
  (forall o r, rec_debug o = Ret r -> rec_release o = Ret r) ->
  forall n i r,
  interfaces_loop rt rec_debug true k i n = Ret r ->
  interfaces_loop rt rec_release false k i n = Ret r.
Proof.
  intros Hrec. induction n as [|n IH]; intros i r H; simpl in H |- *; [exact H|].
  destruct (GetDirectInterface rt true k i) as [o| |] eqn:Eg; simpl in H; try discriminate.
  rewrite (GetDirectInterface_debug _ _ _ _ Eg). simpl.
  apply GetDirectInterface_Ret in Eg. subst o.
  destruct (DCHECK true _); simpl in H; try discriminate.
  destruct (rec_debug (direct_interface rt k i)) as [f| |] eqn:Er; simpl in H;
    try discriminate.
  rewrite (Hrec _ _ Er). simpl. destruct f as [f|]; [exact H|]. now apply IH.
Qed.

Lemma FindStaticField_debug name type : forall fuel klass r,
  FindStaticField rt fuel true klass name type = Ret r ->
  FindStaticField rt fuel false klass name type = Ret r.
Proof.
  induction fuel as [|fuel IH]; intros [k|] r H; simpl in H |- *; try discriminate;
    try exact H.
  destruct (FindDeclaredStaticField rt true k name type) as [f| |] eqn:Ed; simpl in H;
    try discriminate.
  apply FindDeclaredStaticField_Ret in Ed. subst f.
  rewrite FindDeclaredStaticField_release. simpl.
  destruct (declared_static rt k name type) as [f|]; [exact H|].
  destruct (interfaces_loop rt _ true k 0 (NumDirectInterfaces (heap rt k))) as [f| |] eqn:Ei;
    simpl in H; try discriminate.
  rewrite (interfaces_loop_debug _
             (fun interface => FindStaticField rt fuel false interface name type)
             k (fun o r' => IH o r') _ _ _ Ei).
  simpl. destruct f as [f|]; [exact H|]. now apply IH.
Qed.

Lemma FindField_debug name type : forall fuel klass r,
  FindField rt fuel true klass name type = Ret r ->
  FindField rt fuel false klass name type = Ret r.
Proof.
  induction fuel as [|fuel IH]; intros [k|] r H; simpl in H |- *; try discriminate;
    try exact H.
  destruct (FindDeclaredInstanceField rt true k name type) as [f| |] eqn:Ei0; simpl in H;
    try discriminate.
  apply FindDeclaredInstanceField_Ret in Ei0. subst f.
  rewrite FindDeclaredInstanceField_release. simpl.
  destruct (declared_instance rt k name type) as [f|]; [exact H|].
  destruct (FindDeclaredStaticField rt true k name type) as [f| |] eqn:Ed; simpl in H;
    try discriminate.
  apply FindDeclaredStaticField_Ret in Ed. subst f.
  rewrite FindDeclaredStaticField_release. simpl.
  destruct (declared_static rt k name type) as [f|]; [exact H|].
  destruct (interfaces_loop rt _ true k 0 (NumDirectInterfaces (heap rt k))) as [f| |] eqn:Ei;
    simpl in H; try discriminate.
  rewrite (interfaces_loop_debug _
             (fun interface => FindStaticField rt fuel false interface name type)
             k (fun o r' => FindStaticField_debug name type fuel o r') _ _ _ Ei).
  simpl. destruct f as [f|]; [exact H|]. now apply IH.
Qed.

Lemma FindInstanceField_debug name type : forall fuel c r,
  FindInstanceField rt fuel true c name type = Ret r ->
  FindInstanceField rt fuel false c name type = Ret r.
Proof.
  induction fuel as [|fuel IH]; intros [k|] r H; simpl in H |- *; try discriminate;
    try exact H.
  destruct (FindDeclaredInstanceField rt true k name type) as [f| |] eqn:Ei0; simpl in H;
    try discriminate.
  apply FindDeclaredInstanceField_Ret in Ei0. subst f.
  rewrite FindDeclaredInstanceField_release. simpl.
  destruct (declared_instance rt k name type) as [f|]; [exact H|]. now apply IH.
Qed.

Lemma FindStaticField_static name type fuel dbg klass p :
  FindStaticField rt fuel dbg klass name type = Ret (Some p) -> fp_static p = true.
Proof.
  intros H. apply FindStaticField_Ret in H. symmetry in H.
  apply first_hit_In in H as (k & _ & Hk). now apply declared_static_sound in Hk.
Qed.

Lemma FindField_instance name type : forall fuel dbg klass p,
  FindField rt fuel dbg klass name type = Ret (Some p) -> fp_static p = false ->
  FindInstanceField rt fuel dbg klass name type = Ret (Some p).
Proof.
  induction fuel as [|fuel IH]; intros dbg [k|] p H Hp; simpl in H |- *; try discriminate.
  destruct (FindDeclaredInstanceField rt dbg k name type) as [[f|]| |] eqn:Ei0; simpl in H;
    try discriminate; simpl; [exact H|].
  destruct (FindDeclaredStaticField rt dbg k name type) as [[f|]| |] eqn:Ed; simpl in H;
    try discriminate.
  { injection H as ->. apply FindDeclaredStaticField_Ret in Ed. symmetry in Ed.
    apply declared_static_sound in Ed. destruct Ed as (_ & Hs & _). congruence. }
  destruct (interfaces_loop rt _ dbg k 0 (NumDirectInterfaces (heap rt k))) as [[f|]| |] eqn:Ei;
    simpl in H; try discriminate.
  { injection H as ->. exfalso.
    assert (fp_static p = true); [|congruence].
    revert Ei. apply (interfaces_loop_Some (fun q => fp_static q = true)).
    intros o q. apply FindStaticField_static. }
  now apply IH.
Qed.

Lemma interfaces_loop_ext (rec1 rec2 : option ClassRef -> Res (option FieldPtr)) dbg k :
  (forall o, rec1 o = rec2 o) ->
  forall n i, interfaces_loop rt rec1 dbg k i n = interfaces_loop rt rec2 dbg k i n.
Proof.
  intros Hrec. induction n as [|n IH]; intros i; simpl; [reflexivity|].
  destruct (GetDirectInterface rt dbg k i); simpl; try reflexivity.
  destruct (DCHECK dbg _); simpl; try reflexivity.
  rewrite Hrec. destruct (rec2 a) as [[f|]| |]; simpl; auto.
Qed.

Lemma FindField_without_instance name type : forall fuel klass,
  (forall c, In c (super_chain rt fuel klass) -> declared_instance rt c name type = None) ->
  FindField rt fuel false klass name type = FindStaticField rt fuel false klass name type.
Proof.
  induction fuel as [|fuel IH]; intros [k|] Hc; simpl; try reflexivity.
  rewrite FindDeclaredInstanceField_release.
  rewrite (Hc k) by (simpl; auto). simpl.
  destruct (FindDeclaredStaticField rt false k name type) as [[f|]| |]; simpl; try reflexivity.
  destruct (interfaces_loop rt _ false k 0 (NumDirectInterfaces (heap rt k))) as [[f|]| |];
    simpl; try reflexivity.
  apply IH. intros c Hin. apply Hc. simpl. auto.
Qed.

Lemma FindField_without_static name type : forall fuel klass,
  FindStaticField rt fuel false klass name type = Ret None ->
  FindField rt fuel false klass name type = FindInstanceField rt fuel false klass name type.
Proof.
  induction fuel as [|fuel IH]; intros [k|] H; simpl in H |- *; try discriminate;
    try reflexivity.
  destruct (FindDeclaredInstanceField rt false k name type) as [[f|]| |]; simpl;
    try reflexivity.
  destruct (FindDeclaredStaticField rt false k name type) as [[f|]| |]; simpl in H |- *;
    try discriminate.
  destruct (interfaces_loop rt _ false k 0 (NumDirectInterfaces (heap rt k))) as [[f|]| |];
    simpl in H |- *; try discriminate.
  now apply IH.
Qed.

End FieldWalkFacts.

(** X4: FindInstanceField returns the declared instance field of the first
    class on the superclass chain that has one with the name and type of the
    query, and nothing else: what it returns is an instance field with that
    name and type, declared on the chain.  When the chain ends within the
    fuel, the walk ends with a result outside debug builds. *)
Theorem FindInstanceField_first_on_chain (rt : Runtime) (name type : StringPiece.t)
    (fuel : nat) (this : ClassRef) :
  (forall kIsDebugBuild r,
     FindInstanceField rt fuel kIsDebugBuild (Some this) name type = Ret r ->
     r = first_some (fun k => declared_instance rt k name type)
           (super_chain rt fuel (Some this)))
  /\ (forall kIsDebugBuild p,
        FindInstanceField rt fuel kIsDebugBuild (Some this) name type = Ret (Some p) ->
        In (fp_owner p) (super_chain rt fuel (Some this)) /\ fp_static p = false
        /\ exists f, deref_field rt p = Some f
                     /\ ArtField.GetName f = name /\ ArtField.GetTypeDescriptor f = type)
  /\ ((length (super_chain rt fuel (Some this)) < fuel)%nat ->
      exists r, FindInstanceField rt fuel false (Some this) name type = Ret r).
Proof.
  split; [|split].
  - intros dbg r. apply FindInstanceField_Ret.
  - intros dbg p H. apply FindInstanceField_Ret in H. symmetry in H.
    apply first_some_In in H as (k & Hin & Hk).
    apply declared_instance_sound in Hk as (<- & Hs & Hf). auto.
  - intros H. apply FindInstanceField_release_returns. now intros k _.
Qed.

(** X5: FindStaticField returns only static fields that have the name and the
    type of the query and are declared by a type of its walk. *)
Theorem FindStaticField_sound (rt : Runtime) (name type : StringPiece.t)
    (fuel : nat) (kIsDebugBuild : bool) (klass : ClassRef) (p : FieldPtr) :
  FindStaticField rt fuel kIsDebugBuild (Some klass) name type = Ret (Some p) ->
  In (fp_owner p) (search_order rt fuel (Some klass)) /\ fp_static p = true
  /\ exists f, deref_field rt p = Some f
               /\ ArtField.GetName f = name /\ ArtField.GetTypeDescriptor f = type.
Proof.
  intros H. apply FindStaticField_Ret in H. symmetry in H.
  apply first_hit_In in H as (k & Hin & Hk).
  apply declared_static_sound in Hk as (<- & Hs & Hf). auto.
Qed.

Lemma FindStaticField_sound_witness :
  In 2%nat (search_order example_field_rt 2 (Some 0%nat))
  /\ true = true
  /\ exists f, deref_field example_field_rt
                 {| fp_owner := 2%nat; fp_static := true; fp_index := 0%nat |} = Some f
               /\ ArtField.GetName f = str "x" /\ ArtField.GetTypeDescriptor f = str "I".
Proof.
  apply (FindStaticField_sound example_field_rt (str "x") (str "I") 2 true 0%nat
           {| fp_owner := 2%nat; fp_static := true; fp_index := 0%nat |}).
  reflexivity.
Defined.

(** X6: how FindField is made of the two other walks.  An instance field that
    FindField returns is the one FindInstanceField returns; when no class of
    the superclass chain declares an instance field of that name and type,
    FindField is FindStaticField; when FindStaticField finds nothing,
    FindField is FindInstanceField. *)
Theorem FindField_composes (rt : Runtime) (name type : StringPiece.t)
    (fuel : nat) (klass : ClassRef) :
  (forall kIsDebugBuild p,
     FindField rt fuel kIsDebugBuild (Some klass) name type = Ret (Some p) ->
     fp_static p = false ->
     FindInstanceField rt fuel kIsDebugBuild (Some klass) name type = Ret (Some p))
  /\ ((forall c, In c (super_chain rt fuel (Some klass)) ->
                 declared_instance rt c name type = None) ->
      FindField rt fuel false (Some klass) name type
      = FindStaticField rt fuel false (Some klass) name type)
  /\ (FindStaticField rt fuel false (Some klass) name type = Ret None ->
      FindField rt fuel false (Some klass) name type
      = FindInstanceField rt fuel false (Some klass) name type).
Proof.
  split; [|split].
  - intros dbg p. apply FindField_instance.
  - apply FindField_without_instance.
  - apply FindField_without_static.
Qed.

Lemma FindField_composes_witness :
  FindField example_field_rt 2 false (Some 0%nat) (str "x") (str "I")
  = FindStaticField example_field_rt 2 false (Some 0%nat) (str "x") (str "I")
  /\ FindField example_field_rt 2 false (Some 0%nat) (str "y") (str "I")
     = FindInstanceField example_field_rt 2 false (Some 0%nat) (str "y") (str "I").
Proof.
  destruct (FindField_composes example_field_rt (str "x") (str "I") 2 0%nat) as (_ & H1 & _).
  destruct (FindField_composes example_field_rt (str "y") (str "I") 2 0%nat) as (_ & _ & H2).
  split.
  - apply H1. intros c Hc. unfold declared_instance.
    destruct c as [|c]; reflexivity.
  - apply H2. reflexivity.
Defined.

(** X7: the assertions of a debug build do not change what the field walks
    return: a result of FindStaticField, FindField or FindInstanceField in a
    debug build is the result of the other build. *)
Theorem field_walks_debug_agree (rt : Runtime) (name type : StringPiece.t)
    (fuel : nat) (klass : option ClassRef) (r : option FieldPtr) :
  (FindStaticField rt fuel true klass name type = Ret r ->
   FindStaticField rt fuel false klass name type = Ret r)
  /\ (FindField rt fuel true klass name type = Ret r ->
      FindField rt fuel false klass name type = Ret r)
  /\ (FindInstanceField rt fuel true klass name type = Ret r ->
      FindInstanceField rt fuel false klass name type = Ret r).
Proof.
  split; [|split].
  - apply FindStaticField_debug.
  - apply FindField_debug.
  - apply FindInstanceField_debug.
Qed.

Lemma field_walks_debug_agree_witness :
  FindStaticField example_field_rt 2 false (Some 0%nat) (str "x") (str "I")
  = Ret (Some {| fp_owner := 2%nat; fp_static := true; fp_index := 0%nat |})
  /\ FindField example_field_rt 2 false (Some 0%nat) (str "x") (str "I")
     = Ret (Some {| fp_owner := 2%nat; fp_static := true; fp_index := 0%nat |}).
Proof.
  destruct (field_walks_debug_agree example_field_rt (str "x") (str "I") 2 (Some 0%nat)
              (Some {| fp_owner := 2%nat; fp_static := true; fp_index := 0%nat |}))
    as (H1 & H2 & _).
  split; [apply H1|apply H2]; reflexivity.
Defined.

Lemma FindInstanceField_first_on_chain_witness :
  FindInstanceField example_instance_rt 3 true (Some 0%nat) (str "x") (str "I")
  = Ret (Some {| fp_owner := 1%nat; fp_static := false; fp_index := 0%nat |})
  /\ In 1%nat (super_chain example_instance_rt 3 (Some 0%nat))
  /\ exists r, FindInstanceField example_instance_rt 3 false (Some 0%nat) (str "y") (str "I")
               = Ret r.
Proof.
  destruct (FindInstanceField_first_on_chain example_instance_rt (str "x") (str "I") 3 0%nat)
    as (_ & Hs & _).
  destruct (FindInstanceField_first_on_chain example_instance_rt (str "y") (str "I") 3 0%nat)
    as (_ & _ & Hr).
  split; [reflexivity|].
  split.
  - apply (Hs true {| fp_owner := 1%nat; fp_static := false; fp_index := 0%nat |}).
    reflexivity.
  - apply Hr. simpl. lia.
Defined.

(** ** Fields by dex index *)

Lemma dex_field_loop_sound dex_field_idx : forall fields k i,
  dex_field_loop k fields dex_field_idx = Some i ->
  (k <= i)%nat
  /\ exists f, fields !! (i - k)%nat = Some f /\ ArtField.GetDexFieldIndex f = dex_field_idx.
Proof.
  induction fields as [|x l IH]; intros k i H; simpl in H; [discriminate|].
  destruct (Z.eqb_spec (ArtField.GetDexFieldIndex x) dex_field_idx) as [E|E].
  - injection H as <-. split; [lia|]. exists x. rewrite Nat.sub_diag. auto.
  - apply IH in H as (Hk & f & Hf & Hi). split; [lia|]. exists f. split; [|exact Hi].
    replace (i - k)%nat with (S (i - S k)) by lia. exact Hf.
Qed.

Section DexFieldFacts.
Context (rt : Runtime).

Lemma FindDeclaredStaticField_dex_sound k dex_cache dex_field_idx p :
  FindDeclaredStaticField_dex rt k dex_cache dex_field_idx = Some p ->
  fp_owner p = k /\ fp_static p = true
  /\ Class.dex_cache_ (heap rt (fp_owner p)) = dex_cache
  /\ exists f, deref_field rt p = Some f /\ ArtField.GetDexFieldIndex f = dex_field_idx.
Proof.
  unfold FindDeclaredStaticField_dex, deref_field. case_bool_decide; [|discriminate].
  destruct (dex_field_loop 0 (GetSFields (heap rt k)) dex_field_idx) as [i|] eqn:E;
    [|discriminate].
  intros [= <-]. simpl. apply dex_field_loop_sound in E as (_ & f & Hf & Hi).
  rewrite Nat.sub_0_r in Hf. eauto 7.
Qed.

Lemma FindDeclaredInstanceField_dex_sound k dex_cache dex_field_idx p :
  FindDeclaredInstanceField_dex rt k dex_cache dex_field_idx = Some p ->
  fp_owner p = k /\ fp_static p = false
  /\ Class.dex_cache_ (heap rt (fp_owner p)) = dex_cache
  /\ exists f, deref_field rt p = Some f /\ ArtField.GetDexFieldIndex f = dex_field_idx.
Proof.
  unfold FindDeclaredInstanceField_dex, deref_field. case_bool_decide; [|discriminate].
  destruct (dex_field_loop 0 (GetIFields (heap rt k)) dex_field_idx) as [i|] eqn:E;
    [|discriminate].
  intros [= <-]. simpl. apply dex_field_loop_sound in E as (_ & f & Hf & Hi).
  rewrite Nat.sub_0_r in Hf. eauto 7.
Qed.

Lemma FindStaticField_dex_sound dex_cache dex_field_idx : forall fuel dbg klass p,
  FindStaticField_dex rt fuel dbg klass dex_cache dex_field_idx = Ret (Some p) ->
  fp_static p = true
  /\ Class.dex_cache_ (heap rt (fp_owner p)) = dex_cache
  /\ exists f, deref_field rt p = Some f /\ ArtField.GetDexFieldIndex f = dex_field_idx.
Proof.
  induction fuel as [|fuel IH]; intros dbg [k|] p H; simpl in H; try discriminate.
  destruct (FindDeclaredStaticField_dex rt k dex_cache dex_field_idx) as [f|] eqn:Ed.
  { injection H as ->. now apply FindDeclaredStaticField_dex_sound in Ed as (_ & ?). }
  destruct (interfaces_loop rt _ dbg k 0 (NumDirectInterfaces (heap rt k))) as [[f|]| |] eqn:Ei;
    simpl in H; try discriminate.
  - injection H as ->. revert Ei.
    apply (interfaces_loop_Some rt
             (fun q => fp_static q = true
                       /\ Class.dex_cache_ (heap rt (fp_owner q)) = dex_cache
                       /\ exists f, deref_field rt q = Some f
                                    /\ ArtField.GetDexFieldIndex f = dex_field_idx)).
    intros o q. apply IH.
  - now apply IH in H.
Qed.

Lemma FindInstanceField_dex_sound dex_cache dex_field_idx : forall fuel c p,
  FindInstanceField_dex rt fuel c dex_cache dex_field_idx = Ret (Some p) ->
  In (fp_owner p) (super_chain rt fuel c) /\ fp_static p = false
  /\ Class.dex_cache_ (heap rt (fp_owner p)) = dex_cache
  /\ exists f, deref_field rt p = Some f /\ ArtField.GetDexFieldIndex f = dex_field_idx.
Proof.
  induction fuel as [|fuel IH]; intros [k|] p H; simpl in H; try discriminate.
  destruct (FindDeclaredInstanceField_dex rt k dex_cache dex_field_idx) as [f|] eqn:Ed.
  - injection H as ->. apply FindDeclaredInstanceField_dex_sound in Ed as (<- & ?).
    split; [simpl; auto|assumption].
  - apply IH in H as (Hin & ?). split; [simpl; auto|assumption].
Qed.

End DexFieldFacts.

(** X8: the lookups by (dex cache, dex field index) only ever return a field
    of a class whose dex cache is the very dex cache of the query, and the
    field has the dex index of the query; FindStaticField returns static
    fields, FindInstanceField instance fields of the superclass chain. *)
Theorem fields_by_dex_index_sound (rt : Runtime) (dex_cache : option DexCacheRef)
    (dex_field_idx : Z) (fuel : nat) (klass : ClassRef) (p : FieldPtr) :
  (forall kIsDebugBuild,
     FindStaticField_dex rt fuel kIsDebugBuild (Some klass) dex_cache dex_field_idx
     = Ret (Some p) ->
     fp_static p = true
     /\ Class.dex_cache_ (heap rt (fp_owner p)) = dex_cache
     /\ exists f, deref_field rt p = Some f /\ ArtField.GetDexFieldIndex f = dex_field_idx)
  /\ (FindInstanceField_dex rt fuel (Some klass) dex_cache dex_field_idx = Ret (Some p) ->
      In (fp_owner p) (super_chain rt fuel (Some klass)) /\ fp_static p = false
      /\ Class.dex_cache_ (heap rt (fp_owner p)) = dex_cache
      /\ exists f, deref_field rt p = Some f /\ ArtField.GetDexFieldIndex f = dex_field_idx).
Proof.
  split.
  - intros dbg. apply FindStaticField_dex_sound.
  - apply FindInstanceField_dex_sound.
Qed.

Lemma fields_by_dex_index_sound_witness :
  FindInstanceField_dex example_instance_rt 3 (Some 0%nat) (Some 4%nat) 0
  = Ret (Some {| fp_owner := 1%nat; fp_static := false; fp_index := 0%nat |})
  /\ Class.dex_cache_ (heap example_instance_rt 1%nat) = Some 4%nat
  /\ FindInstanceField_dex example_instance_rt 3 (Some 0%nat) (Some 3%nat) 0 = Ret None.
Proof.
  destruct (fields_by_dex_index_sound example_instance_rt (Some 4%nat) 0 3 0%nat
              {| fp_owner := 1%nat; fp_static := false; fp_index := 0%nat |}) as [_ H].
  split; [reflexivity|]. split; [|reflexivity].
  apply H. reflexivity.
Defined.

(** * The method lookups *)

Lemma first_some_split {A} (look : ClassRef -> option A) order a :
  first_some look order = Some a ->
  exists before k after,
    order = before ++ k :: after /\ look k = Some a
    /\ forall k', In k' before -> look k' = None.
Proof.
  induction order as [|k l IH]; simpl; [discriminate|].
  destruct (look k) as [b|] eqn:E.
  - intros [= <-]. exists [], k, l. simpl. split; [reflexivity|]. split; [exact E|]. tauto.
  - intros H. destruct (IH H) as (before & k' & after & -> & Hk & Hb).
    exists (k :: before), k', after. split; [reflexivity|]. split; [exact Hk|].
    intros k'' [<-|Hin]; auto.
Qed.

Lemma first_some_None {A} (look : ClassRef -> option A) order :
  first_some look order = None <-> forall k, In k order -> look k = None.
Proof.
  induction order as [|k l IH]; simpl.
  - split; [tauto|reflexivity].
  - destruct (look k) as [b|] eqn:E.
    + split; [discriminate|]. intros H. rewrite <- E. apply H. auto.
    + rewrite IH. split.
      * intros H k' [<-|Hin]; auto.
      * intros H k' Hin. apply H. auto.
Qed.

Section MethodFacts.
Context (rt : Runtime).
Context (GetInterfaceMethodIfProxy : ArtMethod.t -> ArtMethod.t).
Context (GetDexMethodIndex : ArtMethod.t -> Z).
Context (GetDirectMethods : ClassRef -> list ArtMethod.t).

Lemma virtual_loop_Some name signature : forall methods m,
  virtual_loop GetInterfaceMethodIfProxy name signature methods = Some m ->
  In m methods
  /\ name = ArtMethod.GetName (GetInterfaceMethodIfProxy m)
  /\ ArtMethod.GetSignature (GetInterfaceMethodIfProxy m) = signature.
Proof.
  induction methods as [|x l IH]; intros m; simpl; [discriminate|].
  unfold StringPiece.eqb. repeat case_bool_decide; simpl.
  - intros [= <-]. auto.
  - intros Hl. apply IH in Hl as (? & ? & ?). auto.
  - intros Hl. apply IH in Hl as (? & ? & ?). auto.
  - intros Hl. apply IH in Hl as (? & ? & ?). auto.
Qed.

Lemma virtual_loop_None name signature : forall methods,
  virtual_loop GetInterfaceMethodIfProxy name signature methods = None <->
  forall m, In m methods ->
    ~ (name = ArtMethod.GetName (GetInterfaceMethodIfProxy m)
       /\ ArtMethod.GetSignature (GetInterfaceMethodIfProxy m) = signature).
Proof.
  induction methods as [|x l IH]; simpl.
  - split; [intros _ m []|reflexivity].
  - unfold StringPiece.eqb. repeat case_bool_decide; simpl.
    + split; [discriminate|]. intros Hall. exfalso. apply (Hall x); auto.
    + rewrite IH. split; [intros Hall m [<-|Hin]; [intros [? ?]; congruence|auto]|auto].
    + rewrite IH. split; [intros Hall m [<-|Hin]; [intros [? ?]; congruence|auto]|auto].
    + rewrite IH. split; [intros Hall m [<-|Hin]; [intros [? ?]; congruence|auto]|auto].
Qed.

Lemma direct_loop_Some name signature : forall methods m,
  direct_loop name signature methods = Some m ->
  In m methods /\ name = ArtMethod.GetName m /\ ArtMethod.GetSignature m = signature.
Proof.
  induction methods as [|x l IH]; intros m; simpl; [discriminate|].
  unfold StringPiece.eqb. repeat case_bool_decide; simpl.
  - intros [= <-]. auto.
  - intros Hl. apply IH in Hl as (? & ? & ?). auto.
  - intros Hl. apply IH in Hl as (? & ? & ?). auto.
  - intros Hl. apply IH in Hl as (? & ? & ?). auto.
Qed.

Lemma direct_loop_None name signature : forall methods,
  direct_loop name signature methods = None <->
  forall m, In m methods ->
    ~ (name = ArtMethod.GetName m /\ ArtMethod.GetSignature m = signature).
Proof.
  induction methods as [|x l IH]; simpl.
  - split; [intros _ m []|reflexivity].
  - unfold StringPiece.eqb. repeat case_bool_decide; simpl.
    + split; [discriminate|]. intros Hall. exfalso. apply (Hall x); auto.
    + rewrite IH. split; [intros Hall m [<-|Hin]; [intros [? ?]; congruence|auto]|auto].
    + rewrite IH. split; [intros Hall m [<-|Hin]; [intros [? ?]; congruence|auto]|auto].
    + rewrite IH. split; [intros Hall m [<-|Hin]; [intros [? ?]; congruence|auto]|auto].
Qed.

Lemma dex_method_loop_Some dex_method_idx : forall methods m,
  dex_method_loop GetDexMethodIndex dex_method_idx methods = Some m ->
  In m methods /\ GetDexMethodIndex m = dex_method_idx.
Proof.
  induction methods as [|x l IH]; intros m; simpl; [discriminate|].
  destruct (Z.eqb_spec (GetDexMethodIndex x) dex_method_idx) as [E|E].
  - intros [= <-]. auto.
  - intros H. apply IH in H as [? ?]. auto.
Qed.

(** The walks up the superclass chain. *)
Lemma FindVirtualMethod_chain name signature : forall fuel c r,
  FindVirtualMethod rt GetInterfaceMethodIfProxy fuel c name signature = Ret r ->
  r = first_some (fun k => FindDeclaredVirtualMethod rt GetInterfaceMethodIfProxy k
                             name signature)
        (super_chain rt fuel c).
Proof.
  induction fuel as [|fuel IH]; intros [k|] r H; simpl in *; try congruence.
  destruct (FindDeclaredVirtualMethod rt GetInterfaceMethodIfProxy k name signature);
    [congruence|auto].
Qed.

Lemma FindVirtualMethod_returns name signature : forall fuel c,
  (length (super_chain rt fuel c) < fuel)%nat ->
  exists r, FindVirtualMethod rt GetInterfaceMethodIfProxy fuel c name signature = Ret r.
Proof.
  induction fuel as [|fuel IH]; intros [k|] H; simpl in *; eauto; try lia.
  destruct (FindDeclaredVirtualMethod rt GetInterfaceMethodIfProxy k name signature);
    [eauto|]. apply IH. lia.
Qed.

Lemma FindDirectMethod_chain name signature : forall fuel c r,
  FindDirectMethod rt GetDirectMethods fuel c name signature = Ret r ->
  r = first_some (fun k => FindDeclaredDirectMethod GetDirectMethods k name signature)
        (super_chain rt fuel c).
Proof.
  induction fuel as [|fuel IH]; intros [k|] r H; simpl in *; try congruence.
  destruct (FindDeclaredDirectMethod GetDirectMethods k name signature);
    [congruence|auto].
Qed.

Lemma FindDirectMethod_returns name signature : forall fuel c,
  (length (super_chain rt fuel c) < fuel)%nat ->
  exists r, FindDirectMethod rt GetDirectMethods fuel c name signature = Ret r.
Proof.
  induction fuel as [|fuel IH]; intros [k|] H; simpl in *; eauto; try lia.
  destruct (FindDeclaredDirectMethod GetDirectMethods k name signature);
    [eauto|]. apply IH. lia.
Qed.

Lemma FindVirtualMethod_dex_chain dex_cache dex_method_idx : forall fuel c r,
  FindVirtualMethod_dex rt GetDexMethodIndex fuel c dex_cache dex_method_idx = Ret r ->
  r = first_some (fun k => FindDeclaredVirtualMethod_dex rt GetDexMethodIndex k
                             dex_cache dex_method_idx)
        (super_chain rt fuel c).
Proof.
  induction fuel as [|fuel IH]; intros [k|] r H; simpl in *; try congruence.
  destruct (FindDeclaredVirtualMethod_dex rt GetDexMethodIndex k dex_cache dex_method_idx);
    [congruence|auto].
Qed.

Lemma FindDirectMethod_dex_chain dex_cache dex_method_idx : forall fuel c r,
  FindDirectMethod_dex rt GetDexMethodIndex GetDirectMethods fuel c dex_cache dex_method_idx
  = Ret r ->
  r = first_some (fun k => FindDeclaredDirectMethod_dex rt GetDexMethodIndex GetDirectMethods
                             k dex_cache dex_method_idx)
        (super_chain rt fuel c).
Proof.
  induction fuel as [|fuel IH]; intros [k|] r H; simpl in *; try congruence.
  destruct (FindDeclaredDirectMethod_dex rt GetDexMethodIndex GetDirectMethods k
              dex_cache dex_method_idx);
    [congruence|auto].
Qed.

(** The loop over the interface table visits its entries in their order. *)
Lemma interface_method_loop_first (look : ClassRef -> option ArtMethod.t) iftable :
  forall n i, (i + n = length iftable)%nat ->
  interface_method_loop look iftable i n = first_some look (drop i iftable).
Proof.
  induction n as [|n IH]; intros i Hi; simpl.
  - rewrite drop_ge by lia. reflexivity.
  - destruct (iftable !! i) as [iface|] eqn:E.
    + rewrite (drop_S _ _ _ E). simpl. destruct (look iface); [reflexivity|].
      apply IH. lia.
    + apply lookup_ge_None in E. lia.
Qed.

Lemma FindInterfaceMethod_first this name signature :
  FindInterfaceMethod rt GetInterfaceMethodIfProxy this name signature
  = first_some (fun k => FindDeclaredVirtualMethod rt GetInterfaceMethodIfProxy k
                           name signature)
      (this :: Class.GetIfTable (heap rt this)).
Proof.
  unfold FindInterfaceMethod. simpl.
  destruct (FindDeclaredVirtualMethod rt GetInterfaceMethodIfProxy this name signature);
    [reflexivity|].
  rewrite interface_method_loop_first by reflexivity. now rewrite drop_0.
Qed.

Lemma FindInterfaceMethod_dex_first this dex_cache dex_method_idx :
  FindInterfaceMethod_dex rt GetDexMethodIndex this dex_cache dex_method_idx
  = first_some (fun k => FindDeclaredVirtualMethod_dex rt GetDexMethodIndex k
                           dex_cache dex_method_idx)
      (this :: Class.GetIfTable (heap rt this)).
Proof.
  unfold FindInterfaceMethod_dex. simpl.
  destruct (FindDeclaredVirtualMethod_dex rt GetDexMethodIndex this dex_cache dex_method_idx);
    [reflexivity|].
  rewrite interface_method_loop_first by reflexivity. now rewrite drop_0.
Qed.

Lemma FindDeclaredVirtualMethod_dex_sound k dex_cache dex_method_idx m :
  FindDeclaredVirtualMethod_dex rt GetDexMethodIndex k dex_cache dex_method_idx = Some m ->
  Class.dex_cache_ (heap rt k) = dex_cache
  /\ In m (Class.GetDeclaredVirtualMethods (heap rt k))
  /\ GetDexMethodIndex m = dex_method_idx.
Proof.
  unfold FindDeclaredVirtualMethod_dex. case_bool_decide; [|discriminate].
  intros Hl. apply dex_method_loop_Some in Hl as [? ?]. auto.
Qed.

Lemma FindDeclaredDirectMethod_dex_sound k dex_cache dex_method_idx m :
  FindDeclaredDirectMethod_dex rt GetDexMethodIndex GetDirectMethods k dex_cache dex_method_idx
  = Some m ->
  Class.dex_cache_ (heap rt k) = dex_cache
  /\ In m (GetDirectMethods k)
  /\ GetDexMethodIndex m = dex_method_idx.
Proof.
  unfold FindDeclaredDirectMethod_dex. case_bool_decide; [|discriminate].
  intros Hl. apply dex_method_loop_Some in Hl as [? ?]. auto.
Qed.

End MethodFacts.

(** X9: FindVirtualMethod returns the first hit of FindDeclaredVirtualMethod
    on the superclass chain, the receiver first; a method it returns is a
    virtual method (declared or copied) of a class of the chain, and the
    method it stands for (itself, unless it is a proxy method) has the name
    and the signature asked for; it returns none only if no virtual method of
    any class of the chain matches; it returns once the fuel covers the
    chain. *)
Theorem FindVirtualMethod_first_on_chain (rt : Runtime)
    (GetInterfaceMethodIfProxy : ArtMethod.t -> ArtMethod.t)
    (fuel : nat) (klass : ClassRef) (name signature : StringPiece.t) :
  (forall r,
     FindVirtualMethod rt GetInterfaceMethodIfProxy fuel (Some klass) name signature = Ret r ->
     r = first_some (fun k => FindDeclaredVirtualMethod rt GetInterfaceMethodIfProxy k
                                name signature)
           (super_chain rt fuel (Some klass)))
  /\ (forall m,
        FindVirtualMethod rt GetInterfaceMethodIfProxy fuel (Some klass) name signature
        = Ret (Some m) ->
        exists k, In k (super_chain rt fuel (Some klass))
                  /\ In m (Class.GetVirtualMethods (heap rt k))
                  /\ name = ArtMethod.GetName (GetInterfaceMethodIfProxy m)
                  /\ ArtMethod.GetSignature (GetInterfaceMethodIfProxy m) = signature)
  /\ (FindVirtualMethod rt GetInterfaceMethodIfProxy fuel (Some klass) name signature
      = Ret None ->
      forall k m, In k (super_chain rt fuel (Some klass)) ->
                  In m (Class.GetVirtualMethods (heap rt k)) ->
                  ~ (name = ArtMethod.GetName (GetInterfaceMethodIfProxy m)
                     /\ ArtMethod.GetSignature (GetInterfaceMethodIfProxy m) = signature))
  /\ ((length (super_chain rt fuel (Some klass)) < fuel)%nat ->
      exists r,
        FindVirtualMethod rt GetInterfaceMethodIfProxy fuel (Some klass) name signature
        = Ret r).
Proof.
  split; [|split; [|split]].
  - intros r. apply FindVirtualMethod_chain.
  - intros m H. apply FindVirtualMethod_chain in H. symmetry in H.
    apply first_some_In in H as (k & Hin & Hk). exists k. split; [exact Hin|].
    unfold FindDeclaredVirtualMethod in Hk. now apply virtual_loop_Some in Hk.
  - intros H k m Hin Hm. apply FindVirtualMethod_chain in H. symmetry in H.
    rewrite first_some_None in H. specialize (H k Hin).
    unfold FindDeclaredVirtualMethod in H. rewrite virtual_loop_None in H. auto.
  - apply FindVirtualMethod_returns.
Qed.

Lemma FindVirtualMethod_first_on_chain_witness :
  FindVirtualMethod example_method_rt id 3 (Some 0%nat) (str "f") (str "()V")
  = Ret (Some (method_named "f" 1%nat))
  /\ (exists k, In k (super_chain example_method_rt 3 (Some 0%nat))
                /\ In (method_named "f" 1%nat)
                     (Class.GetVirtualMethods (heap example_method_rt k)))
  /\ exists r, FindVirtualMethod example_method_rt id 3 (Some 0%nat) (str "h") (str "()V")
               = Ret r.
Proof.
  destruct (FindVirtualMethod_first_on_chain example_method_rt id 3 0%nat (str "f") (str "()V"))
    as (_ & Hs & _).
  destruct (FindVirtualMethod_first_on_chain example_method_rt id 3 0%nat (str "h") (str "()V"))
    as (_ & _ & _ & Hr).
  split; [reflexivity|]. split.
  - destruct (Hs (method_named "f" 1%nat) eq_refl) as (k & Hin & Hm & _). eauto.
  - apply Hr. simpl. lia.
Defined.

(** X10: FindDirectMethod returns the first hit of FindDeclaredDirectMethod
    on the superclass chain; a method it returns is a direct method of a class
    of the chain and has itself the name and the signature asked for (a proxy
    method is not replaced by the method it stands for); it returns none only
    if no direct method of the chain matches; it returns once the fuel covers
    the chain. *)
Theorem FindDirectMethod_first_on_chain (rt : Runtime)
    (GetDirectMethods : ClassRef -> list ArtMethod.t)
    (fuel : nat) (klass : ClassRef) (name signature : StringPiece.t) :
  (forall r,
     FindDirectMethod rt GetDirectMethods fuel (Some klass) name signature = Ret r ->
     r = first_some (fun k => FindDeclaredDirectMethod GetDirectMethods k name signature)
           (super_chain rt fuel (Some klass)))
  /\ (forall m,
        FindDirectMethod rt GetDirectMethods fuel (Some klass) name signature = Ret (Some m) ->
        exists k, In k (super_chain rt fuel (Some klass))
                  /\ In m (GetDirectMethods k)
                  /\ name = ArtMethod.GetName m
                  /\ ArtMethod.GetSignature m = signature)
  /\ (FindDirectMethod rt GetDirectMethods fuel (Some klass) name signature = Ret None ->
      forall k m, In k (super_chain rt fuel (Some klass)) ->
                  In m (GetDirectMethods k) ->
                  ~ (name = ArtMethod.GetName m /\ ArtMethod.GetSignature m = signature))
  /\ ((length (super_chain rt fuel (Some klass)) < fuel)%nat ->
      exists r, FindDirectMethod rt GetDirectMethods fuel (Some klass) name signature = Ret r).
Proof.
  split; [|split; [|split]].
  - intros r. apply FindDirectMethod_chain.
  - intros m H. apply FindDirectMethod_chain in H. symmetry in H.
    apply first_some_In in H as (k & Hin & Hk). exists k. split; [exact Hin|].
    unfold FindDeclaredDirectMethod in Hk. now apply direct_loop_Some in Hk.
  - intros H k m Hin Hm. apply FindDirectMethod_chain in H. symmetry in H.
    rewrite first_some_None in H. specialize (H k Hin).
    unfold FindDeclaredDirectMethod in H. rewrite direct_loop_None in H. auto.
  - apply FindDirectMethod_returns.
Qed.

Lemma FindDirectMethod_first_on_chain_witness :
  FindDirectMethod example_method_rt example_direct_methods 3 (Some 0%nat)
    (str "<init>") (str "()V")
  = Ret (Some (method_named "<init>" 1%nat))
  /\ (exists k, In k (super_chain example_method_rt 3 (Some 0%nat))
                /\ In (method_named "<init>" 1%nat) (example_direct_methods k))
  /\ exists r, FindDirectMethod example_method_rt example_direct_methods 3 (Some 0%nat)
                 (str "f") (str "()V") = Ret r.
Proof.
  destruct (FindDirectMethod_first_on_chain example_method_rt example_direct_methods 3 0%nat
              (str "<init>") (str "()V")) as (_ & Hs & _).
  destruct (FindDirectMethod_first_on_chain example_method_rt example_direct_methods 3 0%nat
              (str "f") (str "()V")) as (_ & _ & _ & Hr).
  split; [reflexivity|]. split.
  - destruct (Hs (method_named "<init>" 1%nat) eq_refl) as (k & Hin & Hm & _). eauto.
  - apply Hr. simpl. lia.
Defined.

(** X11: the method lookups by (dex cache, dex method index) only ever return
    a method of a class whose dex cache is the dex cache of the query, with
    the dex method index of the query; FindVirtualMethod and
    FindInterfaceMethod return declared virtual methods, never copied ones,
    FindVirtualMethod and FindDirectMethod from the superclass chain,
    FindInterfaceMethod from the receiver or its interface table. *)
Theorem methods_by_dex_index_sound (rt : Runtime) (GetDexMethodIndex : ArtMethod.t -> Z)
    (GetDirectMethods : ClassRef -> list ArtMethod.t)
    (dex_cache : option DexCacheRef) (dex_method_idx : Z) (fuel : nat) (klass : ClassRef)
    (m : ArtMethod.t) :
  (FindVirtualMethod_dex rt GetDexMethodIndex fuel (Some klass) dex_cache dex_method_idx
   = Ret (Some m) ->
   exists k, In k (super_chain rt fuel (Some klass))
             /\ Class.dex_cache_ (heap rt k) = dex_cache
             /\ In m (Class.GetDeclaredVirtualMethods (heap rt k))
             /\ GetDexMethodIndex m = dex_method_idx)
  /\ (FindDirectMethod_dex rt GetDexMethodIndex GetDirectMethods fuel (Some klass)
        dex_cache dex_method_idx = Ret (Some m) ->
      exists k, In k (super_chain rt fuel (Some klass))
                /\ Class.dex_cache_ (heap rt k) = dex_cache
                /\ In m (GetDirectMethods k)
                /\ GetDexMethodIndex m = dex_method_idx)
  /\ (FindInterfaceMethod_dex rt GetDexMethodIndex klass dex_cache dex_method_idx = Some m ->
      exists k, In k (klass :: Class.GetIfTable (heap rt klass))
                /\ Class.dex_cache_ (heap rt k) = dex_cache
                /\ In m (Class.GetDeclaredVirtualMethods (heap rt k))
                /\ GetDexMethodIndex m = dex_method_idx).
Proof.
  split; [|split].
  - intros H. apply FindVirtualMethod_dex_chain in H. symmetry in H.
    apply first_some_In in H as (k & Hin & Hk). exists k. split; [exact Hin|].
    now apply FindDeclaredVirtualMethod_dex_sound in Hk.
  - intros H. apply FindDirectMethod_dex_chain in H. symmetry in H.
    apply first_some_In in H as (k & Hin & Hk). exists k. split; [exact Hin|].
    now apply FindDeclaredDirectMethod_dex_sound in Hk.
  - intros H. rewrite FindInterfaceMethod_dex_first in H.
    apply first_some_In in H as (k & Hin & Hk). exists k. split; [exact Hin|].
    now apply FindDeclaredVirtualMethod_dex_sound in Hk.
Qed.

Lemma methods_by_dex_index_sound_witness :
  FindVirtualMethod_dex example_method_rt example_dex_method_index 3 (Some 0%nat)
    (Some 4%nat) 1
  = Ret (Some (method_named "f" 1%nat))
  /\ (exists k, Class.dex_cache_ (heap example_method_rt k) = Some 4%nat
                /\ In (method_named "f" 1%nat)
                     (Class.GetDeclaredVirtualMethods (heap example_method_rt k)))
  /\ FindVirtualMethod_dex example_method_rt example_dex_method_index 3 (Some 0%nat)
       (Some 3%nat) 1
     = Ret None.
Proof.
  destruct (methods_by_dex_index_sound example_method_rt example_dex_method_index
              example_direct_methods (Some 4%nat) 1 3 0%nat (method_named "f" 1%nat))
    as (Hv & _ & _).
  split; [reflexivity|]. split; [|reflexivity].
  destruct (Hv eq_refl) as (k & _ & Hc & Hm & _). eauto.
Defined.

(** X12: FindInterfaceMethod looks in the receiver first and then in the
    interfaces of its table, from index 0 upwards, and returns the first hit
    of FindDeclaredVirtualMethod; what it returns is a virtual method of the
    receiver or of an interface of the table, with the name and the signature
    asked for; it returns none exactly when none of them has such a method. *)
Theorem FindInterfaceMethod_own_then_iftable (rt : Runtime)
    (GetInterfaceMethodIfProxy : ArtMethod.t -> ArtMethod.t)
    (this : ClassRef) (name signature : StringPiece.t) :
  FindInterfaceMethod rt GetInterfaceMethodIfProxy this name signature
  = first_some (fun k => FindDeclaredVirtualMethod rt GetInterfaceMethodIfProxy k
                           name signature)
      (this :: Class.GetIfTable (heap rt this))
  /\ (forall m,
        FindInterfaceMethod rt GetInterfaceMethodIfProxy this name signature = Some m ->
        exists k, In k (this :: Class.GetIfTable (heap rt this))
                  /\ In m (Class.GetVirtualMethods (heap rt k))
                  /\ name = ArtMethod.GetName (GetInterfaceMethodIfProxy m)
                  /\ ArtMethod.GetSignature (GetInterfaceMethodIfProxy m) = signature)
  /\ (FindInterfaceMethod rt GetInterfaceMethodIfProxy this name signature = None <->
      forall k m, In k (this :: Class.GetIfTable (heap rt this)) ->
                  In m (Class.GetVirtualMethods (heap rt k)) ->
                  ~ (name = ArtMethod.GetName (GetInterfaceMethodIfProxy m)
                     /\ ArtMethod.GetSignature (GetInterfaceMethodIfProxy m) = signature)).
Proof.
  split; [apply FindInterfaceMethod_first|]. split.
  - intros m H. rewrite FindInterfaceMethod_first in H.
    apply first_some_In in H as (k & Hin & Hk). exists k. split; [exact Hin|].
    unfold FindDeclaredVirtualMethod in Hk. now apply virtual_loop_Some in Hk.
  - rewrite FindInterfaceMethod_first, first_some_None. split.
    + intros H k m Hin. specialize (H k Hin). unfold FindDeclaredVirtualMethod in H.
      rewrite virtual_loop_None in H. auto.
    + intros H k Hin. unfold FindDeclaredVirtualMethod. rewrite virtual_loop_None.
      intros m. now apply H.
Qed.

Lemma FindInterfaceMethod_own_then_iftable_witness :
  FindInterfaceMethod example_iface_rt id 4%nat (str "f") (str "()V")
  = Some (method_f true 0%nat)
  /\ exists k, In k (4%nat :: Class.GetIfTable (heap example_iface_rt 4%nat))
               /\ In (method_f true 0%nat) (Class.GetVirtualMethods (heap example_iface_rt k)).
Proof.
  destruct (FindInterfaceMethod_own_then_iftable example_iface_rt id 4%nat (str "f") (str "()V"))
    as (_ & Hs & _).
  split; [reflexivity|].
  destruct (Hs (method_f true 0%nat) eq_refl) as (k & Hin & Hm & _). eauto.
Defined.

(** ** What the interface-super lookup sees *)

Section VisibleFacts.
Context (rt : Runtime) (d : ClassDecls) (ad : AccessDecls).

Lemma flat_scan_inl : forall scan abstract_methods m,
  flat_scan rt scan abstract_methods = inl m -> In m (map snd scan).
Proof.
  induction scan as [|[iface x] scan IH]; intros am m; simpl; [discriminate|].
  destruct (ArtMethod.IsDefault x).
  - destruct (existsb _ am).
    + intros H. right. eapply IH, H.
    + intros [= <-]. now left.
  - intros H. right. eapply IH, H.
Qed.

Lemma flat_scan_inr_In : forall scan abstract_methods abstract_methods',
  flat_scan rt scan abstract_methods = inr abstract_methods' ->
  forall a, In a abstract_methods' -> In a abstract_methods \/ In a (map snd scan).
Proof.
  induction scan as [|[iface x] scan IH]; intros am am'; simpl.
  - intros [= <-] a Ha. now left.
  - destruct (ArtMethod.IsDefault x).
    + destruct (existsb _ am); [|discriminate].
      intros H a Ha. destruct (IH _ _ H a Ha); auto.
    + intros H a Ha. destruct (IH _ _ H a Ha) as [Hin|Hin]; auto.
      apply in_app_or in Hin as [Hin|[<-|[]]]; auto.
Qed.

Lemma flat_scan_inr_nil : forall scan abstract_methods,
  flat_scan rt scan abstract_methods = inr [] -> scan = [] /\ abstract_methods = [].
Proof.
  induction scan as [|[iface x] scan IH]; intros am; simpl.
  - intros [= ->]. auto.
  - destruct (ArtMethod.IsDefault x).
    + destruct (existsb _ am) eqn:E; [|discriminate].
      intros H. apply IH in H as [_ ->]. discriminate.
    + intros H. apply IH in H as [_ H]. now destruct am.
Qed.

Lemma scan_order_In this method iface m :
  In (iface, m) (scan_order rt this method) <->
  In iface (Class.GetIfTable (heap rt this))
  /\ In m (Class.GetDeclaredVirtualMethods (heap rt iface))
  /\ HasSameNameAndSignature m method = true.
Proof.
  unfold scan_order, matches_in. rewrite in_flat_map. split.
  - intros (i & Hi & Hm). apply in_map_iff in Hm as (x & [= <- <-] & Hx).
    apply List.filter_In in Hx. rewrite <- in_rev in Hi. tauto.
  - intros (Hi & Hm & Hs). exists iface. rewrite <- in_rev. split; [exact Hi|].
    apply in_map, List.filter_In. auto.
Qed.

Lemma In_map_snd {A B} (b : B) (l : list (A * B)) :
  In b (map snd l) -> exists a, In (a, b) l.
Proof.
  intros H. apply in_map_iff in H as ([a b'] & Hb & Hin). simpl in Hb. subst. eauto.
Qed.

Lemma found_is_visible kIsDebugBuild this method m :
  FindVirtualMethodForInterfaceSuper rt d ad kIsDebugBuild this method = Ret (Some m) ->
  visible_match rt this method m.
Proof.
  rewrite FindVirtualMethodForInterfaceSuper_body.
  destruct (kIsDebugBuild && negb (entry_ok rt d ad this method)); [discriminate|].
  intros [= H]. unfold visible_match.
  destruct (List.find _ _) as [own|] eqn:Eo.
  - injection H as ->. apply List.find_some in Eo as [Hin Hs].
    rewrite HasSame_sym. auto.
  - assert (Hscan : In m (map snd (scan_order rt this method))).
    { destruct (flat_scan rt (scan_order rt this method) []) as [x|am] eqn:Ef.
      - injection H as ->. eapply flat_scan_inl, Ef.
      - destruct am as [|a am]; [discriminate|]. injection H as ->.
        destruct (flat_scan_inr_In _ _ _ Ef m) as [[]|Hin]; [now left|exact Hin]. }
    apply In_map_snd in Hscan as [iface Hin]. apply scan_order_In in Hin as (? & ? & ?).
    eauto.
Qed.

Lemma none_is_invisible kIsDebugBuild this method :
  FindVirtualMethodForInterfaceSuper rt d ad kIsDebugBuild this method = Ret None ->
  forall m, ~ visible_match rt this method m.
Proof.
  rewrite FindVirtualMethodForInterfaceSuper_body.
  destruct (kIsDebugBuild && negb (entry_ok rt d ad this method)); [discriminate|].
  intros [= H] m [Hs [Hin|(iface & Hi & Hin)]].
  - destruct (List.find _ _) as [own|] eqn:Eo; [discriminate|].
    apply (List.find_none _ _ Eo) in Hin. rewrite HasSame_sym in Hin. congruence.
  - destruct (List.find _ _) as [own|] eqn:Eo; [discriminate|].
    destruct (flat_scan rt (scan_order rt this method) []) as [x|am] eqn:Ef; [discriminate|].
    destruct am as [|a am]; [|discriminate].
    apply flat_scan_inr_nil in Ef as [Ef _].
    assert (Hm : In (iface, m) (scan_order rt this method)) by (apply scan_order_In; auto).
    rewrite Ef in Hm. destruct Hm.
Qed.

Lemma invisible_is_none this method :
  (forall m, ~ visible_match rt this method m) ->
  FindVirtualMethodForInterfaceSuper rt d ad false this method = Ret None.
Proof.
  intros Hno. rewrite FindVirtualMethodForInterfaceSuper_body. simpl. f_equal.
  destruct (List.find _ _) as [own|] eqn:Eo.
  - exfalso. apply List.find_some in Eo as [Hin Hs]. apply (Hno own).
    split; [now rewrite HasSame_sym|auto].
  - destruct (scan_order rt this method) as [|[iface m] scan] eqn:Es; [reflexivity|].
    exfalso. apply (Hno m).
    assert (Hm : In (iface, m) (scan_order rt this method)) by (rewrite Es; now left).
    apply scan_order_In in Hm as (? & ? & ?). split; eauto.
Qed.

Lemma virtual_loop_own (GetInterfaceMethodIfProxy : ArtMethod.t -> ArtMethod.t) method :
  (forall m, GetInterfaceMethodIfProxy m = m) ->
  forall methods,
    virtual_loop GetInterfaceMethodIfProxy (ArtMethod.GetName method)
      (ArtMethod.GetSignature method) methods
    = own_loop method methods.
Proof.
  intros Hnp. induction methods as [|x l IH]; simpl; [reflexivity|].
  rewrite Hnp, IH. unfold HasSameNameAndSignature, StringPiece.eqb.
  repeat case_bool_decide; simpl; congruence.
Qed.

End VisibleFacts.

(** X13: FindVirtualMethodForInterfaceSuper finds a method exactly when one
    is there to find: what it returns has the name and the signature of the
    method asked for and is a virtual method of the receiver or a declared
    virtual method of an interface of its table; it returns none only if
    there is no such method, and in a build without DCHECKs it returns none
    whenever there is none. *)
Theorem FindVirtualMethodForInterfaceSuper_finds_what_is_there (rt : Runtime)
    (d : ClassDecls) (ad : AccessDecls) (this : ClassRef) (method : ArtMethod.t) :
  (forall kIsDebugBuild m,
     FindVirtualMethodForInterfaceSuper rt d ad kIsDebugBuild this method = Ret (Some m) ->
     visible_match rt this method m)
  /\ (forall kIsDebugBuild,
        FindVirtualMethodForInterfaceSuper rt d ad kIsDebugBuild this method = Ret None ->
        forall m, ~ visible_match rt this method m)
  /\ ((forall m, ~ visible_match rt this method m) ->
      FindVirtualMethodForInterfaceSuper rt d ad false this method = Ret None).
Proof.
  split; [|split].
  - intros dbg m. apply found_is_visible.
  - intros dbg. apply none_is_invisible.
  - apply invisible_is_none.
Qed.

Lemma FindVirtualMethodForInterfaceSuper_finds_what_is_there_witness :
  visible_match example_iface_rt 3%nat (method_f true 0%nat) (method_f false 1%nat)
  /\ FindVirtualMethodForInterfaceSuper example_iface_rt example_decls example_access false 2%nat
       (method_named "g" 0%nat) = Ret None.
Proof.
  destruct (FindVirtualMethodForInterfaceSuper_finds_what_is_there example_iface_rt
              example_decls example_access 3%nat
              (method_f true 0%nat)) as (Hs & _).
  destruct (FindVirtualMethodForInterfaceSuper_finds_what_is_there example_iface_rt
              example_decls example_access 2%nat
              (method_named "g" 0%nat)) as (_ & _ & Hn).
  split.
  - apply (Hs true). reflexivity.
  - apply Hn. intros m [Hs' [Hin|(iface & [] & _)]].
    destruct Hin as [<-|[]]. vm_compute in Hs'. discriminate.
Defined.

(** X14: on methods that are not proxy methods, the first loop of
    FindVirtualMethodForInterfaceSuper is FindDeclaredVirtualMethod; whenever
    the interface-super lookup finds a method, FindInterfaceMethod with the
    name and the signature of the method asked for finds one too, of that name
    and signature; if FindInterfaceMethod finds none, the interface-super
    lookup finds none; and a method of the receiver itself is the answer of
    both. *)
Theorem interface_super_agrees_with_FindInterfaceMethod (rt : Runtime)
    (d : ClassDecls) (ad : AccessDecls)
    (GetInterfaceMethodIfProxy : ArtMethod.t -> ArtMethod.t)
    (this : ClassRef) (method : ArtMethod.t) :
  (forall m, GetInterfaceMethodIfProxy m = m) ->
  FindDeclaredVirtualMethod rt GetInterfaceMethodIfProxy this
    (ArtMethod.GetName method) (ArtMethod.GetSignature method)
  = own_loop method (Class.GetVirtualMethods (heap rt this))
  /\ (forall kIsDebugBuild m,
        FindVirtualMethodForInterfaceSuper rt d ad kIsDebugBuild this method = Ret (Some m) ->
        exists m',
          FindInterfaceMethod rt GetInterfaceMethodIfProxy this
            (ArtMethod.GetName method) (ArtMethod.GetSignature method) = Some m'
          /\ HasSameNameAndSignature m' method = true)
  /\ (FindInterfaceMethod rt GetInterfaceMethodIfProxy this
        (ArtMethod.GetName method) (ArtMethod.GetSignature method) = None ->
      FindVirtualMethodForInterfaceSuper rt d ad false this method = Ret None)
  /\ (forall own,
        FindDeclaredVirtualMethod rt GetInterfaceMethodIfProxy this
          (ArtMethod.GetName method) (ArtMethod.GetSignature method) = Some own ->
        FindVirtualMethodForInterfaceSuper rt d ad false this method = Ret (Some own)
        /\ FindInterfaceMethod rt GetInterfaceMethodIfProxy this
             (ArtMethod.GetName method) (ArtMethod.GetSignature method) = Some own).
Proof.
  intros Hnp.
  assert (Hown : FindDeclaredVirtualMethod rt GetInterfaceMethodIfProxy this
                   (ArtMethod.GetName method) (ArtMethod.GetSignature method)
                 = own_loop method (Class.GetVirtualMethods (heap rt this))).
  { apply virtual_loop_own, Hnp. }
  assert (Hcomplete : forall m, visible_match rt this method m ->
            FindInterfaceMethod rt GetInterfaceMethodIfProxy this
              (ArtMethod.GetName method) (ArtMethod.GetSignature method) <> None).
  { intros m [Hs Hin] Hnone. rewrite FindInterfaceMethod_first, first_some_None in Hnone.
    unfold HasSameNameAndSignature, StringPiece.eqb in Hs.
    apply andb_prop in Hs as [Hn Hg]. apply bool_decide_eq_true in Hn, Hg.
    assert (Hk : exists k, In k (this :: Class.GetIfTable (heap rt this))
                           /\ In m (Class.GetVirtualMethods (heap rt k))).
    { destruct Hin as [Hin|(iface & Hi & Hin)].
      - exists this. split; [now left|exact Hin].
      - exists iface. split; [now right|].
        unfold Class.GetVirtualMethods, Class.GetDeclaredVirtualMethods in *.
        apply in_or_app. now left. }
    destruct Hk as (k & Hk & Hm). specialize (Hnone k Hk).
    unfold FindDeclaredVirtualMethod in Hnone.
    eapply virtual_loop_None in Hnone; [|exact Hm]. apply Hnone.
    rewrite Hnp. auto. }
  split; [exact Hown|]. split; [|split].
  - intros dbg m H. apply found_is_visible in H. apply Hcomplete in H.
    destruct (FindInterfaceMethod rt GetInterfaceMethodIfProxy this
                (ArtMethod.GetName method) (ArtMethod.GetSignature method)) as [m'|] eqn:E;
      [|congruence].
    exists m'. split; [reflexivity|].
    rewrite FindInterfaceMethod_first in E. apply first_some_In in E as (k & _ & Hk).
    unfold FindDeclaredVirtualMethod in Hk. apply virtual_loop_Some in Hk as (_ & Hn & Hg).
    rewrite Hnp in Hn, Hg. unfold HasSameNameAndSignature, StringPiece.eqb.
    apply andb_true_intro. split; apply bool_decide_eq_true; congruence.
  - intros Hnone. apply invisible_is_none. intros m Hv. now apply Hcomplete in Hv.
  - intros own Ho. split.
    + rewrite FindVirtualMethodForInterfaceSuper_body. simpl.
      rewrite <- own_loop_find, <- Hown, Ho. reflexivity.
    + unfold FindInterfaceMethod. now rewrite Ho.
Qed.

Lemma interface_super_agrees_with_FindInterfaceMethod_witness :
  (exists m',
      FindInterfaceMethod example_iface_rt id 3%nat (str "f") (str "()V") = Some m'
      /\ HasSameNameAndSignature m' (method_f true 0%nat) = true)
  /\ FindVirtualMethodForInterfaceSuper example_iface_rt example_decls example_access false 0%nat (method_f true 2%nat)
     = Ret (Some (method_f true 0%nat)).
Proof.
  destruct (interface_super_agrees_with_FindInterfaceMethod example_iface_rt
              example_decls example_access id 3%nat
              (method_f true 0%nat) (fun m => eq_refl)) as (_ & Hf & _).
  destruct (interface_super_agrees_with_FindInterfaceMethod example_iface_rt
              example_decls example_access id 0%nat
              (method_f true 2%nat) (fun m => eq_refl)) as (_ & _ & _ & Ho).
  split.
  - apply (Hf true (method_f false 1%nat)). reflexivity.
  - apply (Ho (method_f true 0%nat)). reflexivity.
Defined.

(** * More on SetStatus *)

(** The checks a call of SetStatus that returns has passed, and the fields
    it has left alone. *)
Lemma SetStatus_Ret_checks d cfg (h h' : Heap) (new_status : Z) (self self' : Thread) :
  SetStatus d cfg h new_status self = Ret (h', self') ->
  (class_linker_initialized cfg = true ->
     ((new_status >=? kStatusResolved d) || (Class.GetStatus (klass h) >=? kStatusResolved d)
      = true ->
      Class.monitor_owner_ (klass h) = GetThreadId self)
     /\ (if IsTemp d (klass h') then new_status < kStatusResolved d
         else new_status <> kStatusRetired d))
  /\ Class.set_status (Class.status_ (klass h))
       (Class.set_ext_data (Class.ext_data_ (klass h))
          (Class.set_object_size_alloc_fast_path
             (Class.object_size_alloc_fast_path_ (klass h)) (klass h')))
     = klass h
  /\ Class.object_size_alloc_fast_path_ (klass h')
     = (if (new_status =? kStatusInitialized d)
           && negb (Class.IsVariableSize (klass h))
           && negb (Class.IsFinalizable (klass h))
        then RoundUp d (Class.object_size_ (klass h)) (kObjectAlignment d)
        else Class.object_size_alloc_fast_path_ (klass h))
  /\ (kIsDebugBuild cfg = true ->
      (new_status =? kStatusInitialized d) && negb (Class.IsVariableSize (klass h)) = true ->
      Class.object_size_alloc_fast_path_ (klass h) = uint32_max)
  /\ (IsErroneous d new_status = false ->
      self' = self /\ exts h' = exts h /\ next_ext h' = next_ext h /\ room h' = room h
      /\ Class.ext_data_ (klass h') = Class.ext_data_ (klass h)).
Proof.
  unfold SetStatus. intros H.
  set (old_status := Class.GetStatus (klass h)) in *.
  match type of H with bind ?g _ = _ => destruct g as [[]| |] eqn:Hguard end;
    simpl in H; try discriminate.
  match type of H with bind ?g _ = _ => destruct g as [[h1 self1]| |] eqn:Herr end;
    simpl in H; try discriminate.
  assert (Hk1 : Class.set_ext_data (Class.ext_data_ (klass h)) (klass h1) = klass h
                /\ (IsErroneous d new_status = false -> h1 = h /\ self1 = self)).
  { destruct (IsErroneous d new_status).
    - apply mark_erroneous_Ret in Herr as (_ & _ & _ & _ & Hk & _). split; [exact Hk|].
      discriminate.
    - injection Herr as <- <-. split; [apply set_ext_data_same|auto]. }
  destruct Hk1 as [Hk1 Hsame].
  set (h2 := set_klass (Class.set_status new_status (klass h1)) h1) in *.
  match type of H with bind ?g _ = _ => destruct g as [h3| |] eqn:Hfast end;
    simpl in H; try discriminate.
  assert (Hh3 : exts h3 = exts h1 /\ next_ext h3 = next_ext h1 /\ room h3 = room h1
                /\ klass h3
                   = (if (new_status =? kStatusInitialized d)
                         && negb (Class.IsVariableSize (klass h1))
                         && negb (Class.IsFinalizable (klass h1))
                      then Class.set_object_size_alloc_fast_path
                             (RoundUp d (Class.object_size_ (klass h1)) (kObjectAlignment d))
                             (Class.set_status new_status (klass h1))
                      else Class.set_status new_status (klass h1))
                /\ (kIsDebugBuild cfg = true ->
                    (new_status =? kStatusInitialized d)
                    && negb (Class.IsVariableSize (klass h1)) = true ->
                    Class.object_size_alloc_fast_path_ (klass h1) = uint32_max)).
  { destruct ((new_status =? kStatusInitialized d)
              && negb (Class.IsVariableSize (klass h1))) eqn:Hc; simpl in Hfast.
    - unfold DCHECK in Hfast.
      destruct (kIsDebugBuild cfg) eqn:Hdbg;
        destruct (Class.object_size_alloc_fast_path_ (klass h1) =? uint32_max) eqn:Hf;
        simpl in Hfast; try discriminate;
        destruct (Class.IsFinalizable (klass h1)); simpl in Hfast;
        injection Hfast as <-; simpl; repeat split; auto;
        intros; try (apply Z.eqb_eq; assumption); congruence.
    - injection Hfast as <-. simpl. repeat split; auto. discriminate. }
  destruct Hh3 as (Hexts & Hnext & Hroom & Hk3 & Hdbg).
  assert (Hh' : klass h' = klass h3 /\ exts h' = exts h3 /\ next_ext h' = next_ext h3
                /\ room h' = room h3 /\ self' = self1
                /\ (class_linker_initialized cfg = true ->
                    if IsTemp d (klass h3) then new_status < kStatusResolved d
                    else new_status <> kStatusRetired d)).
  { destruct (class_linker_initialized cfg); simpl in H.
    - destruct (IsTemp d (klass h3)).
      + destruct (Z.ltb_spec new_status (kStatusResolved d)); simpl in H; [|discriminate].
        destruct ((new_status =? kStatusRetired d) || (new_status =? kStatusErrorUnresolved d));
          injection H as <- <-; simpl; auto 10.
      + destruct (Z.eqb_spec new_status (kStatusRetired d)); simpl in H; [discriminate|].
        destruct ((old_status >=? kStatusResolved d) || (new_status >=? kStatusResolved d));
          injection H as <- <-; simpl; auto 10.
    - injection H as <- <-. repeat split; auto. discriminate. }
  destruct Hh' as (Hk' & Hexts' & Hnext' & Hroom' & Hself' & Hinst).
  assert (Hvar : Class.IsVariableSize (klass h1) = Class.IsVariableSize (klass h))
    by (rewrite <- Hk1; reflexivity).
  assert (Hfin : Class.IsFinalizable (klass h1) = Class.IsFinalizable (klass h))
    by (rewrite <- Hk1; reflexivity).
  assert (Hos : Class.object_size_ (klass h1) = Class.object_size_ (klass h))
    by (rewrite <- Hk1; reflexivity).
  assert (Hfp : Class.object_size_alloc_fast_path_ (klass h1)
                = Class.object_size_alloc_fast_path_ (klass h))
    by (rewrite <- Hk1; reflexivity).
  rewrite Hvar, Hfin, Hos in Hk3. rewrite Hvar, Hfp in Hdbg.
  split; [|split; [|split; [|split]]].
  - intros Hinit. rewrite Hinit in Hguard. split.
    + intros Hres. 
      destruct ((new_status <=? old_status)
                && negb (new_status =? kStatusErrorUnresolved d)
                && negb (new_status =? kStatusErrorResolved d)
                && negb (new_status =? kStatusRetired d)); simpl in Hguard; [discriminate|].
      fold old_status in Hres. rewrite Hres in Hguard.
      destruct (Z.eqb_spec (Class.monitor_owner_ (klass h)) (GetThreadId self));
        [assumption|discriminate].
    + rewrite Hk'. apply Hinst, Hinit.
  - rewrite Hk', Hk3.
    clear -Hk1. revert Hk1.
    match goal with |- context [if ?c then _ else _] => generalize c end.
    generalize (RoundUp d (Class.object_size_ (klass h)) (kObjectAlignment d)).
    generalize (klass h1) (klass h). intros k1 k v c Hk1.
    destruct k1, k, c; simpl in *; injection Hk1; intros; subst; reflexivity.
  - rewrite Hk', Hk3.
    destruct ((new_status =? kStatusInitialized d) && _ && _); simpl; auto.
  - exact Hdbg.
  - intros Hne. destruct (Hsame Hne) as [-> ->]. rewrite Hexts', Hnext', Hroom', Hk', Hk3.
    repeat split; auto.
    destruct ((new_status =? kStatusInitialized d) && _ && _); reflexivity.
Qed.

(** X15: once the class linker is initialised, a call of SetStatus with the
    old or the new status at or above Resolved by a thread that does not own
    the lock of the class is fatal.  So a call that returns was made under
    the lock whenever one of the two is at or above Resolved; on a temporary
    instance the new status is below Resolved and the waiters are notified
    exactly on Retired and ErrorUnresolved; a regular instance is never
    retired, and whenever its waiters are notified the caller owns the
    lock. *)
Theorem SetStatus_lock_and_instance_checks d cfg (h : Heap) (new_status : Z) (self : Thread) :
  class_linker_initialized cfg = true ->
  (Class.monitor_owner_ (klass h) <> GetThreadId self ->
   kStatusResolved d <= new_status \/ kStatusResolved d <= Class.GetStatus (klass h) ->
   exists why, SetStatus d cfg h new_status self = Fatal why)
  /\ (forall h' self',
        SetStatus d cfg h new_status self = Ret (h', self') ->
        (kStatusResolved d <= new_status \/ kStatusResolved d <= Class.GetStatus (klass h) ->
         Class.monitor_owner_ (klass h) = GetThreadId self)
        /\ (IsTemp d (klass h') = true ->
            new_status < kStatusResolved d
            /\ notify_all h' =
               if (new_status =? kStatusRetired d) || (new_status =? kStatusErrorUnresolved d)
               then S (notify_all h) else notify_all h)
        /\ (IsTemp d (klass h') = false ->
            new_status <> kStatusRetired d
            /\ (notify_all h' <> notify_all h ->
                Class.monitor_owner_ (klass h) = GetThreadId self))).
Proof.
  intros Hinit.
  assert (Hor : forall a b : Z,
            kStatusResolved d <= a \/ kStatusResolved d <= b ->
            (a >=? kStatusResolved d) || (b >=? kStatusResolved d) = true).
  { intros a b Hab. apply orb_true_iff. rewrite !Z.geb_leb, !Z.leb_le. exact Hab. }
  split.
  - intros Hlock Hres. apply Hor in Hres. unfold SetStatus. rewrite Hinit.
    destruct ((new_status <=? Class.GetStatus (klass h))
              && negb (new_status =? kStatusErrorUnresolved d)
              && negb (new_status =? kStatusErrorResolved d)
              && negb (new_status =? kStatusRetired d)); simpl; [eauto|].
    rewrite Hres. apply Z.eqb_neq in Hlock. rewrite Hlock. simpl. eauto.
  - intros h' self' H.
    pose proof (SetStatus_Ret_checks _ _ _ _ _ _ _ H) as (Hchk & _).
    destruct (Hchk Hinit) as [Hlock Hinst].
    apply SetStatus_Ret in H as (_ & h1 & Herr & _ & _ & _ & Hn).
    assert (Hh1 : notify_all h1 = notify_all h).
    { destruct (IsErroneous d new_status).
      - apply mark_erroneous_Ret in Herr. tauto.
      - congruence. }
    rewrite Hinit, Hh1 in Hn.
    split; [|split].
    + intros Hres. apply Hlock, Hor, Hres.
    + intros Htemp. rewrite Htemp in Hinst, Hn. auto.
    + intros Htemp. rewrite Htemp in Hinst, Hn. split; [exact Hinst|].
      intros Hne. apply Hlock. rewrite orb_comm.
      destruct ((Class.GetStatus (klass h) >=? kStatusResolved d)
                || (new_status >=? kStatusResolved d)); [reflexivity|congruence].
Qed.

Lemma SetStatus_lock_and_instance_checks_witness :
  (exists why,
      SetStatus example_decls release_running
        (example_heap (example_class 3 0 None false) 1) 4 (example_thread None) = Fatal why)
  /\ Class.monitor_owner_ (klass (example_heap (example_class 3 1 None false) 1))
     = GetThreadId (example_thread None).
Proof.
  destruct (SetStatus_lock_and_instance_checks example_decls release_running
              (example_heap (example_class 3 0 None false) 1) 4 (example_thread None) eq_refl)
    as [Hf _].
  destruct (SetStatus_lock_and_instance_checks example_decls release_running
              (example_heap (example_class 3 1 None false) 1) 4 (example_thread None) eq_refl)
    as [_ Hr].
  split.
  - apply Hf; [simpl; lia|left; simpl; lia].
  - destruct (Hr (NotifyAll (example_heap (example_class 4 1 None false) 1))
                (example_thread None) eq_refl) as (Hl & _).
    apply Hl. left. simpl. lia.
Defined.

(** X16: a call of SetStatus that returns has changed nothing of the class
    but its status, its ClassExt slot and its allocation fast-path size; the
    fast-path size is set, to the object size rounded up to the object
    alignment, exactly on the transition to Initialized of a type that is
    neither variable-size nor finalizable, and in a debug build it held the
    maximal 32-bit value before; a transition that is not into an erroneous
    status leaves the thread, the ClassExt objects, the allocator and the
    ClassExt slot alone; and before the class linker is initialised nobody is
    notified. *)
Theorem SetStatus_frame_and_fast_path d cfg (h h' : Heap) (new_status : Z)
    (self self' : Thread) :
  SetStatus d cfg h new_status self = Ret (h', self') ->
  Class.set_status (Class.status_ (klass h))
    (Class.set_ext_data (Class.ext_data_ (klass h))
       (Class.set_object_size_alloc_fast_path
          (Class.object_size_alloc_fast_path_ (klass h)) (klass h')))
  = klass h
  /\ Class.object_size_alloc_fast_path_ (klass h')
     = (if (new_status =? kStatusInitialized d)
           && negb (Class.IsVariableSize (klass h))
           && negb (Class.IsFinalizable (klass h))
        then RoundUp d (Class.object_size_ (klass h)) (kObjectAlignment d)
        else Class.object_size_alloc_fast_path_ (klass h))
  /\ (kIsDebugBuild cfg = true ->
      new_status = kStatusInitialized d -> Class.IsVariableSize (klass h) = false ->
      Class.object_size_alloc_fast_path_ (klass h) = uint32_max)
  /\ (IsErroneous d new_status = false ->
      self' = self /\ exts h' = exts h /\ next_ext h' = next_ext h /\ room h' = room h
      /\ Class.ext_data_ (klass h') = Class.ext_data_ (klass h))
  /\ (class_linker_initialized cfg = false -> notify_all h' = notify_all h).
Proof.
  intros H.
  pose proof (SetStatus_Ret_checks _ _ _ _ _ _ _ H) as (_ & Hframe & Hfast & Hdbg & Hne).
  split; [exact Hframe|]. split; [exact Hfast|]. split; [|split; [exact Hne|]].
  - intros Hd -> Hv. apply Hdbg; [exact Hd|]. rewrite Z.eqb_refl, Hv. reflexivity.
  - intros Hinit. apply SetStatus_Ret in H as (_ & h1 & Herr & _ & _ & _ & Hn).
    rewrite Hinit in Hn. rewrite Hn.
    destruct (IsErroneous d new_status).
    + apply mark_erroneous_Ret in Herr. tauto.
    + congruence.
Qed.

Lemma SetStatus_frame_and_fast_path_witness :
  Class.object_size_alloc_fast_path_
    (klass (NotifyAll (example_heap
                         (Class.set_object_size_alloc_fast_path 16
                            (example_class 9 1 None false)) 1)))
  = 16
  /\ Class.object_size_alloc_fast_path_ (klass (example_heap (example_class 8 1 None false) 1))
     = uint32_max.
Proof.
  destruct (SetStatus_frame_and_fast_path example_decls debug_running
              (example_heap (example_class 8 1 None false) 1)
              (NotifyAll (example_heap
                            (Class.set_object_size_alloc_fast_path 16
                               (example_class 9 1 None false)) 1))
              9 (example_thread None) (example_thread None) eq_refl)
    as (_ & Hfast & Hdbg & _).
  split; [exact Hfast|]. apply Hdbg; reflexivity.
Defined.

(** * Progress of the racing installers *)

Lemma finish_pc_rank self throwable ret :
  pc_rank (finish_pc self throwable ret).2 = 0%nat.
Proof. unfold finish_pc. destruct (ensure_finish self throwable ret); reflexivity. Qed.

(** Every step of a caller that has not left the function brings it
    closer to leaving. *)
Lemma ensure_step_rank dbg (h h' : Heap) (self self' : Thread) (pc pc' : Pc) :
  ensure_step dbg h self pc = (h', self', pc') ->
  (pc_rank pc' < pc_rank pc)%nat \/ (pc_rank pc = 0%nat /\ pc_rank pc' = 0%nat).
Proof.
  destruct pc as [|t|t n|t n|t n|ret|why]; simpl.
  - destruct (Class.GetExtData (klass h)); intros [= <- <- <-]; simpl; lia.
  - unfold ClassExt_Alloc. destruct (room h); simpl.
    + destruct (AssertPendingOOMException (SetException self OutOfMemoryError));
        intros [= <- <- <-]; simpl; lia.
    + intros [= <- <- <-]; simpl; lia.
  - unfold CasExtData. destruct (Class.GetExtData (klass h)); simpl.
    + intros [= <- <- <-]; simpl; lia.
    + destruct dbg; [intros [= <- <- <-]; simpl; lia|].
      pose proof (finish_pc_rank self t (Some n)) as Hf.
      destruct (finish_pc self t (Some n)) as [s p]. intros [= <- <- <-]. simpl in *. lia.
  - destruct (bool_decide _).
    + pose proof (finish_pc_rank self t (Some n)) as Hf.
      destruct (finish_pc self t (Some n)) as [s p]. intros [= <- <- <-]. simpl in *. lia.
    + intros [= <- <- <-]; simpl; lia.
  - pose proof (finish_pc_rank self t (Class.GetExtData (klass h))) as Hf.
    destruct (finish_pc self t (Class.GetExtData (klass h))) as [s p].
    intros [= <- <- <-]. simpl in *. lia.
  - intros [= <- <- <-]; simpl; lia.
  - intros [= <- <- <-]; simpl; lia.
Qed.

Lemma run_schedule_rank dbg (i : nat) : forall schedule s self pc,
  threads s !! i = Some (self, pc) ->
  exists self' pc',
    threads (run_schedule dbg schedule s) !! i = Some (self', pc')
    /\ (pc_rank pc' <= pc_rank pc - turns i schedule)%nat.
Proof.
  induction schedule as [|j rest IH]; intros s self pc Hi.
  - exists self, pc. unfold turns. simpl. split; [exact Hi|lia].
  - unfold turns in *. simpl.
    destruct (threads s !! j) as [[selfj pcj]|] eqn:Hj.
    + destruct (ensure_step dbg (shared s) selfj pcj) as [[h' selfj'] pcj'] eqn:Hs.
      destruct (Nat.eqb_spec i j) as [<-|Hne].
      * assert (selfj = self /\ pcj = pc) as [-> ->] by (split; congruence).
        apply ensure_step_rank in Hs.
        edestruct (IH {| shared := h'; threads := <[i := (selfj', pcj')]> (threads s) |}
                      selfj' pcj') as (self' & pc' & Hf & Hr).
        { simpl. apply list_lookup_insert_eq. eapply lookup_lt_Some, Hi. }
        exists self', pc'. split; [exact Hf|]. simpl. lia.
      * edestruct (IH {| shared := h'; threads := <[j := (selfj', pcj')]> (threads s) |}
                      self pc) as (self' & pc' & Hf & Hr).
        { simpl. rewrite list_lookup_insert_ne by congruence. exact Hi. }
        exists self', pc'. split; [exact Hf|]. lia.
    + destruct (Nat.eqb_spec i j) as [<-|Hne]; [congruence|].
      apply (IH s self pc Hi).
Qed.

(** X17: EnsureExtDataPresent is wait-free.  However the callers of a race
    are scheduled, a caller that has taken four steps has returned, whatever
    the others did in between: with the installed record and the failure it
    had pending on entry pending again, or with none and an OutOfMemoryError
    pending.  Any two callers that return a record return the same one. *)
Theorem EnsureExtDataPresent_wait_free (kIsDebugBuild : bool) (h : Heap)
    (callers : list Thread) :
  (forall schedule i self0,
     callers !! i = Some self0 -> (4 <= turns i schedule)%nat ->
     exists self ret,
       threads (run_schedule kIsDebugBuild schedule (sys_init h callers)) !! i
       = Some (self, Returned ret)
       /\ match ret with
          | Some e =>
              slot (run_schedule kIsDebugBuild schedule (sys_init h callers)) = Some e
              /\ GetException self = GetException self0
          | None => GetException self = Some OutOfMemoryError
          end)
  /\ (forall s i j selfi selfj ei ej,
        rtc (sys_step kIsDebugBuild) (sys_init h callers) s ->
        threads s !! i = Some (selfi, Returned (Some ei)) ->
        threads s !! j = Some (selfj, Returned (Some ej)) ->
        ei = ej).
Proof.
  split.
  - intros schedule i self0 Hc Hturns.
    destruct (run_schedule_rank kIsDebugBuild i schedule (sys_init h callers) self0 AtEntry)
      as (self & pc & Hf & Hr).
    { simpl. rewrite list_lookup_fmap, Hc. reflexivity. }
    pose proof (race_invariant kIsDebugBuild h callers _
                  (run_schedule_reaches kIsDebugBuild schedule (sys_init h callers)))
      as [_ Hok].
    specialize (Hok i self0 self pc Hc Hf).
    destruct pc as [|t|t n|t n|t n|ret|why]; simpl in Hr; try lia.
    + exists self, ret. split; [exact Hf|]. destruct ret; exact Hok.
    + destruct Hok.
  - intros s i j selfi selfj ei ej Hreach Hi Hj.
    destruct (race_invariant kIsDebugBuild h callers s Hreach) as [Hlen Hok].
    destruct (callers !! i) as [si0|] eqn:Hci.
    2:{ apply lookup_ge_None in Hci. apply lookup_lt_Some in Hi. lia. }
    destruct (callers !! j) as [sj0|] eqn:Hcj.
    2:{ apply lookup_ge_None in Hcj. apply lookup_lt_Some in Hj. lia. }
    destruct (Hok i si0 selfi _ Hci Hi) as [Hei _].
    destruct (Hok j sj0 selfj _ Hcj Hj) as [Hej _].
    congruence.
Qed.

Lemma EnsureExtDataPresent_wait_free_witness :
  exists self ret,
    threads (run_schedule false race_schedule race_init) !! 1%nat = Some (self, Returned ret).
Proof.
  destruct (EnsureExtDataPresent_wait_free false
              (example_heap (example_class kStatusLoaded 0 None false) 2)
              [example_thread (Some (OtherThrowable 7)); example_thread None])
    as [Hw _].
  destruct (Hw race_schedule 1%nat (example_thread None) eq_refl) as (self & ret & Hf & _).
  - vm_compute. lia.
  - exists self, ret. exact Hf.
Defined.

(** * More on packages and descriptors *)

(** X18: on descriptors, IsInSamePackage is an equivalence relation: it is
    reflexive, symmetric and transitive, and it holds exactly when the two
    descriptors have the same package prefix (the string up to the last
    '/', none for a descriptor without '/'). *)
Theorem IsInSamePackage_descriptors_equivalence :
  (forall d, IsInSamePackage_descriptors d d = true)
  /\ (forall d1 d2, IsInSamePackage_descriptors d1 d2 = IsInSamePackage_descriptors d2 d1)
  /\ (forall d1 d2 d3,
        IsInSamePackage_descriptors d1 d2 = true ->
        IsInSamePackage_descriptors d2 d3 = true ->
        IsInSamePackage_descriptors d1 d3 = true)
  /\ (forall d1 d2,
        IsInSamePackage_descriptors d1 d2 = true <-> package_prefix d1 = package_prefix d2).
Proof.
  split; [|split; [|split]].
  - intros d. now apply IsInSamePackage_descriptors_prefix.
  - apply IsInSamePackage_descriptors_sym.
  - intros d1 d2 d3. rewrite !IsInSamePackage_descriptors_prefix. congruence.
  - apply IsInSamePackage_descriptors_prefix.
Qed.

Lemma IsInSamePackage_descriptors_equivalence_witness :
  IsInSamePackage_descriptors (str "Ljava/lang/Object;") (str "Ljava/lang/Thread;") = true.
Proof.
  destruct IsInSamePackage_descriptors_equivalence as (_ & _ & Ht & _).
  apply (Ht _ (str "Ljava/lang/String;")); reflexivity.
Defined.

Section PackageMore.
Context (rt : Runtime).

(** What an answer [true] of IsInSamePackage rests on. *)
Lemma IsInSamePackage_true fuel k1 k2 :
  IsInSamePackage rt fuel k1 k2 = Ret true <->
  k1 = k2
  \/ (Class.GetClassLoader (heap rt k1) = Class.GetClassLoader (heap rt k2)
      /\ exists e1 e2,
           strip_arrays rt fuel k1 = Ret e1 /\ strip_arrays rt fuel k2 = Ret e2
           /\ (e1 = e2
               \/ package_prefix (element_descriptor rt e1)
                  = package_prefix (element_descriptor rt e2))).
Proof.
  unfold IsInSamePackage.
  destruct (decide (k1 = k2)) as [->|Hne].
  { rewrite bool_decide_eq_true_2 by reflexivity. split; auto. }
  rewrite bool_decide_eq_false_2 by assumption.
  destruct (decide (Class.GetClassLoader (heap rt k1) = Class.GetClassLoader (heap rt k2)))
    as [Hl|Hl].
  2:{ rewrite bool_decide_eq_false_2 by assumption. simpl.
      split; [discriminate|]. intros [?|[? _]]; congruence. }
  rewrite bool_decide_eq_true_2 by assumption. simpl.
  destruct (strip_arrays rt fuel k1) as [e1|w1|] eqn:E1; simpl.
  2,3: split; [discriminate|]; intros [?|(_ & e1 & e2 & ? & _)]; congruence.
  destruct (strip_arrays rt fuel k2) as [e2|w2|] eqn:E2; simpl.
  2,3: split; [discriminate|]; intros [?|(_ & e1' & e2 & _ & ? & _)]; congruence.
  destruct (decide (e1 = e2)) as [->|Hne'].
  { rewrite bool_decide_eq_true_2 by reflexivity. split; [|reflexivity].
    intros _. right. split; [exact Hl|]. exists e2, e2. auto. }
  rewrite bool_decide_eq_false_2 by assumption.
  destruct (strip_arrays_Ret _ _ _ _ E1) as [n1 S1].
  destruct (strip_arrays_Ret _ _ _ _ E2) as [n2 S2].
  rewrite (GetDescriptor_element rt fuel e1 (Strips_not_array _ _ _ _ S1)).
  rewrite (GetDescriptor_element rt fuel e2 (Strips_not_array _ _ _ _ S2)).
  simpl. split.
  - intros [= H]. apply IsInSamePackage_descriptors_prefix in H.
    right. split; [exact Hl|]. exists e1, e2. auto.
  - intros [?|(_ & e1' & e2' & [= <-] & [= <-] & [?|H])]; try congruence.
    f_equal. now apply IsInSamePackage_descriptors_prefix.
Qed.

(** The descriptor of an array type. *)
Lemma GetDescriptor_array :
  (forall k, Class.GetComponentType (heap rt k) <> None ->
             Class.IsPrimitive (heap rt k) = false) ->
  forall k n e, Strips rt k n e ->
  forall fuel, (n <= fuel)%nat ->
  GetDescriptor rt fuel k = Ret (replicate n "["%char ++ element_descriptor rt e).
Proof.
  intros Hprim k n e HS.
  induction HS as [k Hk|k c e n Hk HS IH]; intros fuel Hf.
  - simpl. now apply GetDescriptor_element.
  - destruct fuel as [|fuel]; [lia|]. simpl.
    rewrite Hprim by congruence. rewrite Hk. rewrite IH by lia. reflexivity.
Qed.

End PackageMore.

(** X19: on types, IsInSamePackage is transitive (it is reflexive and
    symmetric as well, so an equivalence relation on the types it answers
    for), and an array type is in the package of its element type whenever
    the two have the same class loader. *)
Theorem IsInSamePackage_transitive (rt : Runtime) (fuel : nat) :
  (forall k1 k2 k3,
     IsInSamePackage rt fuel k1 k2 = Ret true ->
     IsInSamePackage rt fuel k2 k3 = Ret true ->
     IsInSamePackage rt fuel k1 k3 = Ret true)
  /\ (forall k n e,
        Strips rt k n e -> (n <= fuel)%nat ->
        Class.GetClassLoader (heap rt k) = Class.GetClassLoader (heap rt e) ->
        IsInSamePackage rt fuel k e = Ret true).
Proof.
  split.
  - intros k1 k2 k3 H12 H23.
    apply IsInSamePackage_true in H12 as [->|(Hl12 & e1 & e2 & E1 & E2 & H12)];
      [exact H23|].
    apply IsInSamePackage_true in H23 as [<-|(Hl23 & e2' & e3 & E2' & E3 & H23)].
    { apply IsInSamePackage_true. right. split; [exact Hl12|]. exists e1, e2. auto. }
    assert (e2' = e2) as -> by congruence.
    apply IsInSamePackage_true. right. split; [congruence|]. exists e1, e3.
    split; [exact E1|]. split; [exact E3|].
    right. destruct H12 as [->|H12], H23 as [<-|H23]; congruence.
  - intros k n e HS Hf Hl. apply IsInSamePackage_true. right. split; [exact Hl|].
    exists e, e. split; [now apply (strip_arrays_Strips rt k n e)|].
    split; [|now left].
    apply (strip_arrays_Strips rt e 0 e); [|lia].
    constructor. eapply Strips_not_array, HS.
Qed.

Lemma IsInSamePackage_transitive_witness :
  IsInSamePackage example_package_rt 2 1%nat 3%nat = Ret true
  /\ IsInSamePackage example_package_rt 2 3%nat 5%nat = Ret true.
Proof.
  destruct (IsInSamePackage_transitive example_package_rt 2) as [Ht Ha].
  split.
  - apply (Ht 1%nat 2%nat 3%nat); reflexivity.
  - apply (Ha 3%nat 2%nat 5%nat); [|lia|reflexivity].
    eapply Strips_array; [reflexivity|]. eapply Strips_array; [reflexivity|].
    now apply Strips_base.
Defined.

(** X20: the descriptor of an array type of [n] levels is [n] times '['
    followed by the descriptor of its element type, provided no array type
    is marked primitive; a type that is marked primitive has the descriptor
    of its primitive type, whatever else it is. *)
Theorem GetDescriptor_of_array (rt : Runtime) :
  (forall fuel k, Class.IsPrimitive (heap rt k) = true ->
                  GetDescriptor rt fuel k = Ret (PrimitiveDescriptor rt k))
  /\ ((forall k, Class.GetComponentType (heap rt k) <> None ->
                 Class.IsPrimitive (heap rt k) = false) ->
      forall k n e fuel,
        Strips rt k n e -> (n <= fuel)%nat ->
        GetDescriptor rt fuel k = Ret (replicate n "["%char ++ element_descriptor rt e)).
Proof.
  split.
  - intros fuel k Hp. destruct fuel; simpl; now rewrite Hp.
  - intros Hprim k n e fuel HS Hf. now apply GetDescriptor_array.
Qed.

Lemma GetDescriptor_of_array_witness :
  GetDescriptor example_package_rt 2 3%nat = Ret (str "[[Ljava/lang/Thread;").
Proof.
  destruct (GetDescriptor_of_array example_package_rt) as [_ Ha].
  assert (Hp : forall k, Class.GetComponentType (heap example_package_rt k) <> None ->
                         Class.IsPrimitive (heap example_package_rt k) = false).
  { intros k _. do 6 (destruct k as [|k]; [reflexivity|]). reflexivity. }
  apply (Ha Hp 3%nat 2%nat 5%nat 2%nat); [|lia].
  eapply Strips_array; [reflexivity|]. eapply Strips_array; [reflexivity|].
  now apply Strips_base.
Defined.

(** * The common superclass and the depth *)

Section CommonFacts.
Context (rt : Runtime).

Lemma common_loop_Ret dbg klass : forall fuel c r,
  common_loop rt dbg fuel klass c = Ret (CommonSuper r) ->
  exists before after,
    super_chain rt (S fuel) (Some c) = before ++ r :: after
    /\ IsAssignableFrom rt r klass = true
    /\ forall k, In k before -> IsAssignableFrom rt k klass = false.
Proof.
  induction fuel as [|fuel IH]; intros c r; cbn [common_loop];
    destruct (IsAssignableFrom rt c klass) eqn:Ea; try discriminate.
  - intros [= <-]. exists [], (super_chain rt 0 (Class.GetSuperClass (heap rt c))).
    split; [reflexivity|]. split; [exact Ea|]. intros k [].
  - intros [= <-]. exists [], (super_chain rt (S fuel) (Class.GetSuperClass (heap rt c))).
    split; [reflexivity|]. split; [exact Ea|]. intros k [].
  - destruct (Class.GetSuperClass (heap rt c)) as [c'|] eqn:Es.
    + intros H. apply IH in H as (before & after & Hc & Hr & Hb).
      exists (c :: before), after. split.
      * change (super_chain rt (S (S fuel)) (Some c))
          with (c :: super_chain rt (S fuel) (Class.GetSuperClass (heap rt c))).
        rewrite Es, Hc. reflexivity.
      * split; [exact Hr|]. intros k [<-|Hin]; auto.
    + unfold DCHECK. destruct dbg; discriminate.
Qed.

Lemma common_loop_finds dbg klass : forall fuel c k,
  In k (super_chain rt (S fuel) (Some c)) -> IsAssignableFrom rt k klass = true ->
  exists r, common_loop rt dbg fuel klass c = Ret (CommonSuper r).
Proof.
  induction fuel as [|fuel IH]; intros c k Hin Hk; cbn [common_loop];
    destruct (IsAssignableFrom rt c klass) eqn:Ea; eauto.
  - simpl in Hin. destruct Hin as [<-|Hin]; [congruence|].
    destruct (Class.GetSuperClass (heap rt c)); destruct Hin.
  - change (super_chain rt (S (S fuel)) (Some c))
      with (c :: super_chain rt (S fuel) (Class.GetSuperClass (heap rt c))) in Hin.
    destruct Hin as [<-|Hin]; [congruence|].
    destruct (Class.GetSuperClass (heap rt c)) as [c'|]; [|destruct Hin].
    eapply IH; eauto.
Qed.

Lemma common_loop_debug klass : forall fuel c,
  common_loop rt true fuel klass c <> Ret NullDereference.
Proof.
  induction fuel as [|fuel IH]; intros c; cbn [common_loop];
    destruct (IsAssignableFrom rt c klass); try discriminate.
  destruct (Class.GetSuperClass (heap rt c)); [apply IH|discriminate].
Qed.

Lemma depth_loop_counts : forall fuel klass depth n,
  0 <= depth < 2 ^ 32 ->
  depth_loop rt fuel klass depth = Ret n ->
  n = (depth + Z.of_nat (length (super_chain rt (S fuel) (Some klass))) - 1) mod 2 ^ 32.
Proof.
  induction fuel as [|fuel IH]; intros klass depth n Hd; cbn [depth_loop].
  - destruct (Class.GetSuperClass (heap rt klass)) eqn:Es; [discriminate|].
    intros [= <-]. cbn [super_chain]. rewrite Es. cbn [super_chain length].
    change (Z.of_nat 1) with 1.
    replace (depth + 1 - 1) with depth by lia. now rewrite Z.mod_small.
  - change (super_chain rt (S (S fuel)) (Some klass))
      with (klass :: super_chain rt (S fuel) (Class.GetSuperClass (heap rt klass))).
    destruct (Class.GetSuperClass (heap rt klass)) as [s|] eqn:Es.
    + intros H. apply IH in H; [|apply Z.mod_pos_bound; lia].
      rewrite H. cbn [length].
      rewrite Nat2Z.inj_succ.
      set (len := Z.of_nat (length (super_chain rt (S fuel) (Some s)))).
      replace ((depth + 1) mod 2 ^ 32 + len - 1) with ((depth + 1) mod 2 ^ 32 + (len - 1))
        by lia.
      rewrite Z.add_mod_idemp_l by lia. f_equal. lia.
    + intros [= <-]. cbn [super_chain length]. change (Z.of_nat 1) with 1.
      replace (depth + 1 - 1) with depth by lia.
      now rewrite Z.mod_small.
Qed.

Lemma depth_loop_returns : forall fuel klass depth,
  (length (super_chain rt (S fuel) (Some klass)) <= fuel)%nat ->
  exists n, depth_loop rt fuel klass depth = Ret n.
Proof.
  induction fuel as [|fuel IH]; intros klass depth.
  - simpl. lia.
  - change (super_chain rt (S (S fuel)) (Some klass))
      with (klass :: super_chain rt (S fuel) (Class.GetSuperClass (heap rt klass))).
    cbn [depth_loop length].
    destruct (Class.GetSuperClass (heap rt klass)) as [s|]; [|eauto].
    intros H. apply IH. lia.
Qed.

End CommonFacts.

(** X21: GetCommonSuperClass returns the first class on the superclass
    chain of the receiver, the receiver first, that is assignable from
    [klass].  A build without DCHECKs returns one whenever the chain has one
    within the fuel; a debug build does so when, besides, neither type is an
    interface and the access flags of both can be read (the types are
    loaded), and it aborts when one of the two is an interface or cannot have
    its flags read; a debug build never goes on past the root of the chain.
    Where the classes assignable from [klass] are those of its own superclass
    chain, the result is on both chains, and every class on both chains is
    the result or one of its superclasses. *)
Theorem GetCommonSuperClass_first_assignable (rt : Runtime) (d : ClassDecls)
    (ad : AccessDecls) (fuel : nat) (this klass : ClassRef) :
  (forall kIsDebugBuild r,
     GetCommonSuperClass rt d ad kIsDebugBuild fuel this klass = Ret (CommonSuper r) ->
     exists before after,
       super_chain rt (S fuel) (Some this) = before ++ r :: after
       /\ IsAssignableFrom rt r klass = true
       /\ forall k, In k before -> IsAssignableFrom rt k klass = false)
  /\ (forall kIsDebugBuild k,
        In k (super_chain rt (S fuel) (Some this)) -> IsAssignableFrom rt k klass = true ->
        kIsDebugBuild = false
        \/ (flags_readable rt d ad klass = true
            /\ Class.IsInterface (heap rt klass) = false
            /\ flags_readable rt d ad this = true
            /\ Class.IsInterface (heap rt this) = false) ->
        exists r,
          GetCommonSuperClass rt d ad kIsDebugBuild fuel this klass = Ret (CommonSuper r))
  /\ (flags_readable rt d ad klass = false \/ Class.IsInterface (heap rt klass) = true
      \/ flags_readable rt d ad this = false \/ Class.IsInterface (heap rt this) = true ->
      GetCommonSuperClass rt d ad true fuel this klass = Fatal DebugCheck)
  /\ GetCommonSuperClass rt d ad true fuel this klass <> Ret NullDereference
  /\ (forall kIsDebugBuild r n,
        (forall a, IsAssignableFrom rt a klass = true <->
                   In a (super_chain rt n (Some klass))) ->
        GetCommonSuperClass rt d ad kIsDebugBuild fuel this klass = Ret (CommonSuper r) ->
        In r (super_chain rt (S fuel) (Some this))
        /\ In r (super_chain rt n (Some klass))
        /\ exists before after,
             super_chain rt (S fuel) (Some this) = before ++ r :: after
             /\ forall c, In c (super_chain rt (S fuel) (Some this)) ->
                          In c (super_chain rt n (Some klass)) ->
                          In c (r :: after)).
Proof.
  assert (Hentry : forall dbg,
            GetCommonSuperClass rt d ad dbg fuel this klass
            = if dbg && negb (flags_readable rt d ad klass
                              && negb (Class.IsInterface (heap rt klass))
                              && flags_readable rt d ad this
                              && negb (Class.IsInterface (heap rt this)))
              then Fatal DebugCheck
              else common_loop rt dbg fuel klass this).
  { intros dbg. unfold GetCommonSuperClass, IsInterface, GetAccessFlagsDCheck, DCHECK.
    fold (flags_readable rt d ad klass). fold (flags_readable rt d ad this).
    destruct dbg; simpl; [|reflexivity].
    destruct (flags_readable rt d ad klass); simpl; [|reflexivity].
    destruct (Class.IsInterface (heap rt klass)); simpl; [reflexivity|].
    destruct (flags_readable rt d ad this); simpl; [|reflexivity].
    destruct (Class.IsInterface (heap rt this)); reflexivity. }
  assert (Hbody : forall dbg r,
            GetCommonSuperClass rt d ad dbg fuel this klass = Ret r ->
            common_loop rt dbg fuel klass this = Ret r).
  { intros dbg r. rewrite Hentry. destruct (dbg && _); [discriminate|auto]. }
  split; [|split; [|split; [|split]]].
  - intros dbg r H. eapply common_loop_Ret, Hbody, H.
  - intros dbg k Hin Hk Hok. rewrite Hentry.
    assert (dbg && negb (flags_readable rt d ad klass
                         && negb (Class.IsInterface (heap rt klass))
                         && flags_readable rt d ad this
                         && negb (Class.IsInterface (heap rt this))) = false) as ->.
    { destruct Hok as [->|(-> & -> & -> & ->)]; [reflexivity|apply andb_false_r]. }
    eapply common_loop_finds; eauto.
  - intros Hbad. rewrite Hentry. simpl.
    destruct Hbad as [-> | [-> | [-> | ->]]]; simpl;
      rewrite ?andb_false_r; simpl; reflexivity.
  - intros H. apply Hbody in H. eapply common_loop_debug, H.
  - intros dbg r n Hassign H. apply Hbody, common_loop_Ret in H
      as (before & after & Hc & Hr & Hb).
    split; [rewrite Hc; apply in_or_app; right; now left|].
    split; [now apply Hassign|].
    exists before, after. split; [exact Hc|].
    intros c Hin Hk. rewrite Hc in Hin. apply in_app_or in Hin as [Hin|Hin]; [|exact Hin].
    apply Hassign in Hk. rewrite (Hb c Hin) in Hk. discriminate.
Qed.

Lemma GetCommonSuperClass_first_assignable_witness :
  GetCommonSuperClass example_instance_rt example_decls example_access true 2 0%nat 2%nat
  = Ret (CommonSuper 1%nat)
  /\ (exists before after,
         super_chain example_instance_rt 3 (Some 0%nat) = before ++ 1%nat :: after
         /\ IsAssignableFrom example_instance_rt 1%nat 2%nat = true)
  /\ (exists r, GetCommonSuperClass example_instance_rt example_decls example_access true
                  2 0%nat 2%nat = Ret (CommonSuper r))
  /\ GetCommonSuperClass example_unloaded_rt example_decls example_access true 2 1%nat 0%nat
     = Fatal DebugCheck.
Proof.
  destruct (GetCommonSuperClass_first_assignable example_instance_rt example_decls
              example_access 2 0%nat 2%nat) as (Hs & Hf & _).
  destruct (GetCommonSuperClass_first_assignable example_unloaded_rt example_decls
              example_access 2 1%nat 0%nat) as (_ & _ & Hb & _).
  split; [reflexivity|]. split; [|split].
  - destruct (Hs true 1%nat eq_refl) as (before & after & Hc & Hr & _). eauto.
  - apply (Hf true 1%nat); [simpl; auto|reflexivity|].
    right. repeat split.
  - apply Hb. left. reflexivity.
Defined.

(** X22: Depth counts the superclasses of the receiver: it returns the
    length of the superclass chain less one (as a 32-bit value), and it
    returns once the fuel covers the chain. *)
Theorem Depth_counts_superclasses (rt : Runtime) (fuel : nat) (this : ClassRef) :
  (forall n, Depth rt fuel this = Ret n ->
             n = (Z.of_nat (length (super_chain rt (S fuel) (Some this))) - 1) mod 2 ^ 32)
  /\ ((length (super_chain rt (S fuel) (Some this)) <= fuel)%nat ->
      exists n, Depth rt fuel this = Ret n).
Proof.
  split.
  - intros n H. apply depth_loop_counts in H; [|lia]. exact H.
  - apply depth_loop_returns.
Qed.

Lemma Depth_counts_superclasses_witness :
  Depth example_instance_rt 2 0%nat = Ret 1.
Proof.
  destruct (Depth_counts_superclasses example_instance_rt 2 0%nat) as [Hn Hr].
  destruct Hr as [n Hd]; [simpl; lia|].
  rewrite Hd. f_equal. apply (Hn n Hd).
Defined.

(** * Direct interfaces, class initializers, lookups by name *)

(** X23: GetDirectInterface in a debug build refines the build without
    DCHECKs: what it returns, the other build returns too.  The build
    without DCHECKs returns for every index below the number of direct
    interfaces.  On an array type it answers index 0 with the class linker's
    Cloneable and every other index with its Serializable, while the debug
    build returns only for the indices 0 and 1, and only a class that was
    found.  On a type that is neither an array nor a proxy no build returns
    when the interface type list is null or the index is past its end: the
    list is read through the null pointer, or past its end; on a proxy
    without an interface array no build returns either. *)
Theorem GetDirectInterface_debug_refines_release (rt : Runtime) (klass : ClassRef)
    (idx : nat) :
  (forall o, GetDirectInterface rt true klass idx = Ret o ->
             GetDirectInterface rt false klass idx = Ret o)
  /\ ((idx < NumDirectInterfaces (heap rt klass))%nat ->
      exists o, GetDirectInterface rt false klass idx = Ret o)
  /\ (Class.IsArrayClass (heap rt klass) = true ->
      GetDirectInterface rt false klass idx
      = Ret (LookupClass rt (if (idx =? 0)%nat then Cloneable else Serializable))
      /\ forall o, GetDirectInterface rt true klass idx = Ret o ->
                   (idx < 2)%nat /\ o <> None
                   /\ Class.IsPrimitive (heap rt klass) = false)
  /\ (Class.IsArrayClass (heap rt klass) = false ->
      Class.IsProxyClass (heap rt klass) = false ->
      (Class.interface_type_list_ (heap rt klass) = None ->
       GetDirectInterface rt false klass idx = Fatal NullPointer)
      /\ (forall l, Class.interface_type_list_ (heap rt klass) = Some l ->
                    (length l <= idx)%nat ->
                    GetDirectInterface rt false klass idx = Fatal OutOfBounds)
      /\ (forall kIsDebugBuild o,
            GetDirectInterface rt kIsDebugBuild klass idx = Ret o ->
            exists l type_idx,
              Class.interface_type_list_ (heap rt klass) = Some l
              /\ l !! idx = Some type_idx
              /\ o = LookupResolvedType rt type_idx (Class.dex_cache_ (heap rt klass))
                       (Class.class_loader_ (heap rt klass))))
  /\ (Class.IsArrayClass (heap rt klass) = false ->
      Class.IsProxyClass (heap rt klass) = true ->
      Class.interfaces_ (heap rt klass) = None ->
      forall kIsDebugBuild, exists why,
        GetDirectInterface rt kIsDebugBuild klass idx = Fatal why).
Proof.
  split; [|split; [|split; [|split]]].
  - apply GetDirectInterface_debug.
  - intros Hi. rewrite GetDirectInterface_release by exact Hi. eauto.
  - intros Harr. split.
    + unfold GetDirectInterface, DCHECK. simpl. rewrite Harr.
      destruct (idx =? 0)%nat; reflexivity.
    + intros o. unfold GetDirectInterface, DCHECK. simpl. rewrite Harr.
      destruct (Class.IsPrimitive (heap rt klass)); simpl; [discriminate|].
      destruct (Nat.eqb_spec idx 0) as [->|H0]; simpl.
      * destruct (LookupClass rt Cloneable) as [c|] eqn:El; simpl.
        -- intros [= <-]. repeat split; [lia|discriminate].
        -- discriminate.
      * destruct (Nat.eqb_spec idx 1) as [->|H1]; simpl; [|discriminate].
        destruct (LookupClass rt Serializable) as [c|] eqn:El; simpl.
        -- intros [= <-]. repeat split; [lia|discriminate].
        -- discriminate.
  - intros Harr Hproxy. split; [|split].
    + intros Hl. unfold GetDirectInterface, GetDirectInterfaceTypeIdx, DCHECK. simpl.
      rewrite Harr, Hproxy, Hl. reflexivity.
    + intros l Hl Hidx. unfold GetDirectInterface, GetDirectInterfaceTypeIdx, DCHECK. simpl.
      rewrite Harr, Hproxy, Hl. apply lookup_ge_None_2 in Hidx. rewrite Hidx. reflexivity.
    + intros dbg o H.
      assert (Hr : GetDirectInterface rt false klass idx = Ret o).
      { destruct dbg; [now apply GetDirectInterface_debug|exact H]. }
      revert Hr. unfold GetDirectInterface, GetDirectInterfaceTypeIdx, DCHECK. simpl.
      rewrite Harr, Hproxy.
      destruct (Class.interface_type_list_ (heap rt klass)) as [l|]; simpl; [|discriminate].
      destruct (l !! idx) as [t|] eqn:Et; simpl; [|discriminate].
      intros [= <-]. eauto.
  - intros Harr Hproxy Hnull dbg.
    unfold GetDirectInterface, DCHECK. rewrite Harr, Hproxy, Hnull.
    destruct (dbg && negb (negb (Class.IsPrimitive (heap rt klass)))); simpl; [eauto|].
    destruct (dbg && _); simpl; eauto.
Qed.

Lemma GetDirectInterface_debug_refines_release_witness :
  GetDirectInterface example_package_rt false 1%nat 5
  = Ret (LookupClass example_package_rt Serializable)
  /\ GetDirectInterface example_package_rt false 0%nat 0 = Fatal NullPointer
  /\ exists o, GetDirectInterface example_field_rt false 0%nat 0 = Ret o.
Proof.
  destruct (GetDirectInterface_debug_refines_release example_package_rt 1%nat 5)
    as (_ & _ & Ha & _).
  destruct (GetDirectInterface_debug_refines_release example_package_rt 0%nat 0)
    as (_ & _ & _ & Hn & _).
  destruct (GetDirectInterface_debug_refines_release example_field_rt 0%nat 0)
    as (_ & Hr & _).
  split; [|split].
  - destruct (Ha eq_refl) as [H _]. exact H.
  - destruct (Hn eq_refl eq_refl) as [H _]. apply H. reflexivity.
  - apply Hr. vm_compute. lia.
Defined.

Section InitializerFacts.
Context (IsClassInitializer : ArtMethod.t -> bool).

Lemma class_initializer_loop_release : forall methods,
  class_initializer_loop IsClassInitializer false methods
  = Ret (List.find IsClassInitializer methods).
Proof.
  induction methods as [|x l IH]; simpl; [reflexivity|].
  destruct (IsClassInitializer x); [reflexivity|exact IH].
Qed.

Lemma class_initializer_loop_debug : forall methods r,
  class_initializer_loop IsClassInitializer true methods = Ret r ->
  r = List.find IsClassInitializer methods
  /\ forall m, r = Some m ->
       ArtMethod.GetName m = str "<clinit>" /\ ArtMethod.GetSignature m = str "()V".
Proof.
  induction methods as [|x l IH]; intros r; simpl.
  - intros [= <-]. split; [reflexivity|discriminate].
  - destruct (IsClassInitializer x); [|apply IH].
    unfold DCHECK, StringPiece.eqb. simpl.
    destruct (decide (ArtMethod.GetName x = str "<clinit>")) as [Hn|Hn].
    2:{ rewrite bool_decide_eq_false_2 by assumption. discriminate. }
    rewrite bool_decide_eq_true_2 by assumption. simpl.
    destruct (decide (ArtMethod.GetSignature x = str "()V")) as [Hs|Hs].
    2:{ rewrite bool_decide_eq_false_2 by assumption. discriminate. }
    rewrite bool_decide_eq_true_2 by assumption. simpl.
    intros [= <-]. split; [reflexivity|]. intros m [= <-]. auto.
Qed.

End InitializerFacts.

(** X24: FindClassInitializer returns the first direct method that is a class
    initializer, and none exactly when no direct method is one; a method it
    returns in a debug build is named "<clinit>" and has the signature
    "()V". *)
Theorem FindClassInitializer_first_initializer
    (IsClassInitializer : ArtMethod.t -> bool)
    (GetDirectMethods : ClassRef -> list ArtMethod.t) (this : ClassRef) :
  FindClassInitializer IsClassInitializer GetDirectMethods false this
  = Ret (List.find IsClassInitializer (GetDirectMethods this))
  /\ (forall kIsDebugBuild r,
        FindClassInitializer IsClassInitializer GetDirectMethods kIsDebugBuild this = Ret r ->
        r = List.find IsClassInitializer (GetDirectMethods this)
        /\ (r = None <->
            forall m, In m (GetDirectMethods this) -> IsClassInitializer m = false))
  /\ (forall m,
        FindClassInitializer IsClassInitializer GetDirectMethods true this = Ret (Some m) ->
        In m (GetDirectMethods this) /\ IsClassInitializer m = true
        /\ ArtMethod.GetName m = str "<clinit>" /\ ArtMethod.GetSignature m = str "()V").
Proof.
  unfold FindClassInitializer.
  assert (Hfind : forall dbg r,
            class_initializer_loop IsClassInitializer dbg (GetDirectMethods this) = Ret r ->
            r = List.find IsClassInitializer (GetDirectMethods this)).
  { intros [|] r H.
    - now apply class_initializer_loop_debug in H.
    - rewrite class_initializer_loop_release in H. congruence. }
  split; [apply class_initializer_loop_release|]. split.
  - intros dbg r H. apply Hfind in H. split; [exact H|]. subst r. split.
    + intros Hn m Hin. apply (List.find_none _ _ Hn m Hin).
    + intros Hall. destruct (List.find _ _) as [m|] eqn:E; [|reflexivity].
      apply List.find_some in E as [Hin Hm]. rewrite (Hall m Hin) in Hm. discriminate.
  - intros m H. pose proof (Hfind _ _ H) as Hf. symmetry in Hf.
    apply List.find_some in Hf as [Hin Hm].
    apply class_initializer_loop_debug in H as [_ Hd].
    destruct (Hd m eq_refl). auto.
Qed.

Lemma FindClassInitializer_first_initializer_witness :
  In (method_named "<clinit>" 0%nat)
    [method_named "<init>" 0%nat; method_named "<clinit>" 0%nat]
  /\ ArtMethod.GetName (method_named "<clinit>" 0%nat) = str "<clinit>".
Proof.
  destruct (FindClassInitializer_first_initializer
              (fun m => StringPiece.eqb (ArtMethod.GetName m) (str "<clinit>"))
              (fun _ => [method_named "<init>" 0%nat; method_named "<clinit>" 0%nat])
              0%nat) as (_ & _ & Hd).
  destruct (Hd (method_named "<clinit>" 0%nat) eq_refl) as (Hin & _ & Hn & _).
  split; [exact Hin|exact Hn].
Defined.

Section ByNameFacts.
Context (GetInterfaceMethodIfProxy : ArtMethod.t -> ArtMethod.t).

Lemma by_name_loop_Some name : forall methods m,
  by_name_loop GetInterfaceMethodIfProxy name methods = Some m ->
  In m methods /\ name = ArtMethod.GetName (GetInterfaceMethodIfProxy m).
Proof.
  induction methods as [|x l IH]; intros m; simpl; [discriminate|].
  unfold StringPiece.eqb. case_bool_decide.
  - intros [= <-]. auto.
  - intros Hl. apply IH in Hl as [? ?]. auto.
Qed.

Lemma by_name_loop_None name : forall methods,
  by_name_loop GetInterfaceMethodIfProxy name methods = None <->
  forall m, In m methods -> name <> ArtMethod.GetName (GetInterfaceMethodIfProxy m).
Proof.
  induction methods as [|x l IH]; simpl.
  - split; [intros _ m []|reflexivity].
  - unfold StringPiece.eqb. case_bool_decide.
    + split; [discriminate|]. intros Hall. exfalso. apply (Hall x); auto.
    + rewrite IH. split; [intros Hall m [<-|Hin]; auto|auto].
Qed.

End ByNameFacts.

(** X25: the lookups by name alone are the lookups by name and signature
    with the signature left out: what FindDeclaredVirtualMethodByName returns
    is a virtual method of the receiver whose method (itself, unless it is a
    proxy method) has the name; it returns none exactly when no virtual
    method has the name; so it finds a method whenever
    FindDeclaredVirtualMethod finds one for some signature.  For direct
    methods the same holds where no direct method is a proxy method, since
    FindDeclaredDirectMethod compares the name of the method itself. *)
Theorem by_name_lookups_find_more (rt : Runtime)
    (GetInterfaceMethodIfProxy : ArtMethod.t -> ArtMethod.t)
    (GetDirectMethods : ClassRef -> list ArtMethod.t)
    (this : ClassRef) (name : StringPiece.t) :
  (forall m,
     FindDeclaredVirtualMethodByName rt GetInterfaceMethodIfProxy this name = Some m ->
     In m (Class.GetVirtualMethods (heap rt this))
     /\ name = ArtMethod.GetName (GetInterfaceMethodIfProxy m))
  /\ (FindDeclaredVirtualMethodByName rt GetInterfaceMethodIfProxy this name = None <->
      forall m, In m (Class.GetVirtualMethods (heap rt this)) ->
                name <> ArtMethod.GetName (GetInterfaceMethodIfProxy m))
  /\ (forall signature m,
        FindDeclaredVirtualMethod rt GetInterfaceMethodIfProxy this name signature = Some m ->
        exists m',
          FindDeclaredVirtualMethodByName rt GetInterfaceMethodIfProxy this name = Some m')
  /\ (forall signature m,
        (forall m', In m' (GetDirectMethods this) -> GetInterfaceMethodIfProxy m' = m') ->
        FindDeclaredDirectMethod GetDirectMethods this name signature = Some m ->
        exists m',
          FindDeclaredDirectMethodByName GetInterfaceMethodIfProxy GetDirectMethods this name
          = Some m').
Proof.
  split; [|split; [|split]].
  - intros m. apply by_name_loop_Some.
  - apply by_name_loop_None.
  - intros signature m H. unfold FindDeclaredVirtualMethod in H.
    apply virtual_loop_Some in H as (Hin & Hn & _).
    destruct (FindDeclaredVirtualMethodByName rt GetInterfaceMethodIfProxy this name)
      as [m'|] eqn:E; [eauto|].
    exfalso. unfold FindDeclaredVirtualMethodByName in E.
    rewrite by_name_loop_None in E. exact (E m Hin Hn).
  - intros signature m Hnp H. unfold FindDeclaredDirectMethod in H.
    apply direct_loop_Some in H as (Hin & Hn & _).
    destruct (FindDeclaredDirectMethodByName GetInterfaceMethodIfProxy GetDirectMethods
                this name) as [m'|] eqn:E; [eauto|].
    exfalso. unfold FindDeclaredDirectMethodByName in E.
    rewrite by_name_loop_None in E. apply (E m Hin). rewrite (Hnp m Hin). exact Hn.
Qed.

Lemma by_name_lookups_find_more_witness :
  exists m',
    FindDeclaredVirtualMethodByName example_method_rt id 1%nat (str "f") = Some m'.
Proof.
  destruct (by_name_lookups_find_more example_method_rt id example_direct_methods
              1%nat (str "f")) as (_ & _ & Hv & _).
  apply (Hv (str "()V") (method_named "f" 1%nat)). reflexivity.
Defined.
